(** * GPS DriftCast: the descent and drift simulation

    A shallow embedding of the drift engine of the repository and the
    properties stated about it.

    Sources.  wind.js (wind samples, the constructor of a forecast, band
    queries, driftWithWind), launch.js (path points, results and their
    labels, descent entries), rocket.js (the rocket classes, their
    setters and their weathercock adjustment), main.js
    (weathercockAdjustment and calculateLandingPlots, with the later
    revision of the adjustment), drift_simulation.js (driftSimulation)
    and map_colors.js (getHourColor).  geo.js is not among the sources:
    its operations are parameters ([GeoModule]).

    Numbers.  JavaScript numbers are modelled by exact rationals [Q]:
    rounding and overflow of doubles are outside the model.  The
    source's [==] and [<] on numbers are [Qeq] and [Qlt], so computed
    values are compared up to [==].  [NaN] is modelled where a value
    that may be NaN meets a test of the source ([number]): the results
    of parseInt and parseFloat, the rates of a rocket, the arguments of
    the constructors.

    Exceptions.  Reading a property of [undefined] (an array access out
    of range followed by a field read) and the [throw new TypeError] of
    the constructors are [Throws]; [Normal v] is a normal completion
    with value [v].

    Objects.  GeoLocation objects are mutable and shared.  The
    simulation is modelled on values first ([simulateHour],
    [driftSimulation]); the assembly of the launch path is modelled a
    second time on a store of objects ([assemblePath]) and the two are
    proved to agree.

    The file has two parts: the definitions, then the properties. *)

From Stdlib Require Import QArith Qabs Qround Lqa ZArith List Lia Bool Sorted.
Import ListNotations.
Open Scope Q_scope.

(* ------------------------------------------------------------------ *)
(** ** Completions: normal return or a thrown TypeError *)

Inductive completion (A : Type) : Type :=
| Normal (a : A)
| Throws.
Arguments Normal {A} a.
Arguments Throws {A}.

Definition bind {A B : Type} (c : completion A) (k : A -> completion B)
  : completion B :=
  match c with
  | Normal a => k a
  | Throws => Throws
  end.

Notation "x <- c ;; k" := (bind c (fun x => k))
  (at level 61, c at next level, right associativity).

(** [l.[i]] followed by a property read: a TypeError when the element is
    [undefined]. *)
Definition elem {A : Type} (l : list A) (i : nat) : completion A :=
  match nth_error l i with
  | Some a => Normal a
  | None => Throws
  end.

(* ------------------------------------------------------------------ *)
(** ** Numbers that may be NaN *)

Inductive number : Type :=
| Fin (q : Q)
| NaN.

Definition isNaN (n : number) : bool :=
  match n with NaN => true | Fin _ => false end.

(** Comparisons of JavaScript numbers, on the rational model. *)
Definition Qltb (x y : Q) : bool := if Qlt_le_dec x y then true else false.
Definition Qleb (x y : Q) : bool := if Qlt_le_dec y x then false else true.
Definition Qeqb (x y : Q) : bool := if Qeq_dec x y then true else false.

(* ------------------------------------------------------------------ *)
(** ** wind.js: wind samples and band queries *)

(** class WindAtAltitude: the constructor rejects NaN, so the three
    fields of a constructed sample are numbers proper. *)
Record WindAtAltitude : Type := mkWindAtAltitude {
  altitude : Q;
  windSpeed : Q;
  windDirection : Q
}.

Definition newWindAtAltitude (alt speed dir : number)
  : completion WindAtAltitude :=
  match alt, speed, dir with
  | Fin a, Fin s, Fin d => Normal (mkWindAtAltitude a s d)
  | _, _, _ => Throws
  end.

(** The bounds test shared by the three band queries:
    [floorIndex < 0 || (floorIndex + 1) >= windData.length]. *)
Definition bandOutOfBounds (windData : list WindAtAltitude) (floorIndex : Z)
  : bool :=
  (floorIndex <? 0)%Z || (Z.of_nat (length windData) <=? floorIndex + 1)%Z.

Definition getWindBandPercentage (rocketAltitude : Q)
    (windData : list WindAtAltitude) (floorIndex : Z) : completion Q :=
  if bandOutOfBounds windData floorIndex then Normal (-1)
  else
    lo <- elem windData (Z.to_nat floorIndex) ;;
    hi <- elem windData (Z.to_nat (floorIndex + 1)) ;;
    let altitudeFloor := altitude lo in
    let altitudeCeiling := altitude hi in
    if Qltb rocketAltitude altitudeFloor || Qltb altitudeCeiling rocketAltitude
    then Normal (-1.0)
    else
      let rangeHeight := Qabs (altitudeCeiling - altitudeFloor) in
      if Qeqb 0 rangeHeight then Normal (-1.0)
      else Normal (Qabs (rocketAltitude - altitudeFloor) / rangeHeight).

Definition getAverageWindSpeed (bandPercentage : Q)
    (windData : list WindAtAltitude) (floorIndex : Z) : completion Q :=
  if Qltb bandPercentage 0.0 || Qltb 1.0 bandPercentage then Normal (-1)
  else if bandOutOfBounds windData floorIndex then Normal (-1)
  else
    lo <- elem windData (Z.to_nat floorIndex) ;;
    hi <- elem windData (Z.to_nat (floorIndex + 1)) ;;
    let speedFloor := windSpeed lo in
    let speedRange := windSpeed hi - speedFloor in
    let speedAtAltitude := speedFloor + (bandPercentage * speedRange) in
    Normal ((speedFloor + speedAtAltitude) / 2.0).

Definition getAverageWindDirection (bandPercentage : Q)
    (windData : list WindAtAltitude) (floorIndex : Z) : completion Q :=
  if Qltb bandPercentage 0.0 || Qltb 1.0 bandPercentage then Normal (-1)
  else if bandOutOfBounds windData floorIndex then Normal (-1)
  else
    lo <- elem windData (Z.to_nat floorIndex) ;;
    hi <- elem windData (Z.to_nat (floorIndex + 1)) ;;
    let directionA := windDirection lo in
    let targetDirection :=
      directionA + (bandPercentage * (windDirection hi - directionA)) in
    let averageDirection := directionA + targetDirection in
    if Qltb (Qabs (directionA - targetDirection)) 180.0
    then Normal (averageDirection / 2.0)
    else
      (* Maintain a northerly direction as the bearing oscillates around
         zero degrees *)
      let averageDirection := (averageDirection - 360.0) / 2.0 in
      if Qltb averageDirection 0.0 then Normal (averageDirection + 360.0)
      else Normal averageDirection.

(** The averaging of two bearings as section 4.2 of the specification
    words it: [(d0+d1)/2] when [|d0-d1| < 180], otherwise
    [((d0+d1)-360)/2], with 360 added when that is negative. *)
Definition specAverageDirection (d0 d1 : Q) : Q :=
  if Qlt_le_dec (Qabs (d0 - d1)) 180 then (d0 + d1) / 2
  else
    let m := ((d0 + d1) - 360) / 2 in
    if Qlt_le_dec m 0 then m + 360 else m.

(** class WeathercockWindData: ground wind speed (MPH), distance (feet)
    travelled up wind, expected apogee (feet).  The constructor rejects
    NaN. *)
Record WeathercockWindData : Type := mkWeathercockWindData {
  wcWindSpeed : Q;
  upwindDistance : Q;
  apogee : Q
}.

(** class WindForecastData, as its getters expose it. *)
Record WindForecastData : Type := mkWindForecastData {
  modelIsRAP : bool;            (* 'RAP' == model *)
  windData : list WindAtAltitude;
  groundElevation : Q;
  groundWindSpeed : Q;
  groundWindDirection : Q
}.

(* ------------------------------------------------------------------ *)
(** ** geo.js: coordinates and the movement primitives

    geo.js is not among the sources.  Its operations are taken as
    parameters of the development: [moveAlongBearing location distance
    bearing] and [moveAlongBearingKilometers] overwrite the coordinates
    of the location object they are given; here they return the new
    coordinates. *)

Record GeoLocation : Type := mkGeoLocation {
  latitude : Q;
  longitude : Q
}.

Definition geoEq (a b : GeoLocation) : Prop :=
  latitude a == latitude b /\ longitude a == longitude b.

Class GeoModule : Type := {
  feetToMeters : Q -> Q;
  moveAlongBearing : GeoLocation -> Q -> Q -> GeoLocation;
  moveAlongBearingKilometers : GeoLocation -> Q -> Q -> GeoLocation
}.

(** A flat-grid instance, used where a statement has to compute
    coordinates on concrete inputs.  It stands in for geo.js and is not
    a model of it: bearings 0, 90, 180 and 270 move along the axes, one
    degree of latitude or longitude per 111320 metres, and every other
    bearing is interpolated linearly between the neighbouring axes. *)
Definition gridNorth (bearing : Q) : Q :=
  if Qltb bearing 180 then (90 - bearing) / 90 else (bearing - 270) / 90.

Definition gridEast (bearing : Q) : Q :=
  if Qltb bearing 90 then bearing / 90
  else if Qltb bearing 270 then (180 - bearing) / 90
  else (bearing - 360) / 90.

Definition gridMove (loc : GeoLocation) (distance bearing : Q) : GeoLocation :=
  mkGeoLocation
    (Qred (latitude loc + distance * gridNorth bearing / 111320))
    (Qred (longitude loc + distance * gridEast bearing / 111320)).

Definition gridGeo : GeoModule := {|
  feetToMeters := fun feet => feet * 0.3048;
  moveAlongBearing := gridMove;
  moveAlongBearingKilometers := gridMove
|}.

(* ------------------------------------------------------------------ *)
(** ** launch.js: path points, simulation results, descent steps *)

(** class LaunchPathPoint.  The constructor stores a new GeoLocation
    built from the coordinates of the one it is given. *)
Record LaunchPathPoint : Type := mkLaunchPathPoint {
  pointAltitude : Q;
  location : GeoLocation
}.

(** class LaunchSimulationData. *)
Record LaunchSimulationData : Type := mkLaunchSimulationData {
  time : Z;
  launchPath : list LaunchPathPoint;
  elevation : Q
}.

(** constructor(ele, hour): a negative elevation is stored as 0.  Further
    arguments passed by the callers are ignored by this constructor. *)
Definition newLaunchSimulationData (ele : Q) (hour : Z) : LaunchSimulationData :=
  mkLaunchSimulationData hour [] (if Qleb 0 ele then ele else 0).

(** addLaunchPathPoint(alt, launchPathPoint), for a number [alt] and a
    non-null location. *)
Definition addLaunchPathPoint (s : LaunchSimulationData) (alt : Q)
    (launchPathPoint : GeoLocation) : LaunchSimulationData :=
  mkLaunchSimulationData (time s)
    (launchPath s ++ [mkLaunchPathPoint alt launchPathPoint])
    (elevation s).

(** getLandingLocation(): [None] is the source's [null]. *)
Definition getLandingLocation (s : LaunchSimulationData)
  : completion (option GeoLocation) :=
  if Nat.eqb 0 (length (launchPath s)) then Normal None
  else
    p <- elem (launchPath s) (length (launchPath s) - 1) ;;
    Normal (Some (location p)).

(** class DescentData. *)
Record DescentData : Type := mkDescentData {
  stepAltitude : Q;
  descentRate : Q;
  stepWindSpeed : Q;
  stepWindDirection : Q
}.

(** The constructor throws a TypeError on a NaN argument. *)
Definition newDescentData (alt rate speed dir : number)
  : completion DescentData :=
  match alt, rate, speed, dir with
  | Fin a, Fin r, Fin s, Fin d => Normal (mkDescentData a r s d)
  | _, _, _, _ => Throws
  end.

(* ------------------------------------------------------------------ *)
(** ** wind.js: driftWithWind *)

(** driftWithWind updates [rocketLocation] in place and returns the drift
    distance, or returns nothing when the descent rate cannot be used.
    The model returns the coordinates of [rocketLocation] after the call
    and the returned distance ([None] for [undefined]). *)
Definition driftWithWind {G : GeoModule} (rocketLocation : GeoLocation)
    (windSpeed windDirection : Q) (decentRate : number) (descentDistance : Q)
  : GeoLocation * option Q :=
  match decentRate with
  | NaN => (rocketLocation, None)
  | Fin rate =>
      if Qeqb 0 rate then (rocketLocation, None)
      else
        let decentRate := Qabs rate in
        let decentDuration := descentDistance / decentRate in
        let driftDistance := decentDuration * (windSpeed * 1.68781) in
        let windDirection :=
          if Qltb windDirection 180 then windDirection + 180
          else windDirection - 180 in
        (moveAlongBearingKilometers rocketLocation
           (feetToMeters driftDistance) windDirection,
         Some driftDistance)
  end.

(* ------------------------------------------------------------------ *)
(** ** Weathercocking *)

(** linearInterpolate, identical in main.js and rocket.js. *)
Definition linearInterpolate
    (sourceValue sourceLower sourceUpper targetLower targetUpper : Q) : Q :=
  if Qeqb 0 (sourceUpper - sourceLower) then targetLower
  else
    targetLower
    + ((sourceValue - sourceLower)
       * ((targetUpper - targetLower) / (sourceUpper - sourceLower))).

(** The search loop shared by the three versions of the adjustment:
    [for (index = 1; index < length; ++index)], stopping at the first
    entry whose speed is at least [windSpeed] and interpolating between
    it and the entry before it.  [previous] is [weathercockData[index-1]]
    and [rest] the entries from [index] on.  It returns the moved apogee
    location and the apogee altitude, [-1] when no entry is found. *)
Fixpoint weathercockSearch {G : GeoModule} (apogeeLocation : GeoLocation)
    (windDirection windSpeed : Q) (previous : WeathercockWindData)
    (rest : list WeathercockWindData) : GeoLocation * Q :=
  match rest with
  | [] => (apogeeLocation, -1)
  | current :: rest' =>
      if Qleb windSpeed (wcWindSpeed current) then
        let finalDistance :=
          linearInterpolate windSpeed
            (wcWindSpeed current) (wcWindSpeed previous)
            (upwindDistance current) (upwindDistance previous) in
        let apogeeAltitude :=
          linearInterpolate windSpeed
            (wcWindSpeed current) (wcWindSpeed previous)
            (apogee current) (apogee previous) in
        (moveAlongBearing apogeeLocation (feetToMeters finalDistance)
           windDirection,
         apogeeAltitude)
      else
        weathercockSearch apogeeLocation windDirection windSpeed current rest'
  end.

(** main.js, weathercockAdjustment(apogeeLocation, windDirection,
    windSpeed, weathercockData): the search loop alone. *)
Definition weathercockAdjustment {G : GeoModule} (apogeeLocation : GeoLocation)
    (windDirection windSpeed : Q) (weathercockData : list WeathercockWindData)
  : GeoLocation * Q :=
  match weathercockData with
  | [] => (apogeeLocation, -1)
  | first :: rest =>
      weathercockSearch apogeeLocation windDirection windSpeed first rest
  end.

(** The last entry of a non-empty table,
    [weathercockData[weathercockData.length - 1]]. *)
Definition lastEntry (first : WeathercockWindData)
    (rest : list WeathercockWindData) : WeathercockWindData :=
  last rest first.

(** The later revision of main.js kept in the repository guards the
    search with the two range checks. *)
Module Revised.

Definition weathercockAdjustment {G : GeoModule} (apogeeLocation : GeoLocation)
    (windDirection windSpeed : Q) (weathercockData : list WeathercockWindData)
  : GeoLocation * Q :=
  match weathercockData with
  | [] => (apogeeLocation, -1)
  | first :: rest =>
      if Qleb windSpeed (wcWindSpeed first) then
        ((if Qltb 0.0 (upwindDistance first)
          then moveAlongBearing apogeeLocation
                 (feetToMeters (upwindDistance first)) windDirection
          else apogeeLocation),
         apogee first)
      else if Qltb (wcWindSpeed (lastEntry first rest)) windSpeed then
        (moveAlongBearing apogeeLocation
           (feetToMeters (upwindDistance (lastEntry first rest)))
           windDirection,
         apogee first)
      else
        weathercockSearch apogeeLocation windDirection windSpeed first rest
  end.

End Revised.

(** rocket.js: class RocketWeathercocking.
    weathercockAdjustment(rocketLocation, windData) works on a copy of
    [rocketLocation] and returns a new LaunchPathPoint. *)
Module RocketWeathercocking.

Definition weathercockAdjustment {G : GeoModule} (thisApogee : Q)
    (weathercockData : list WeathercockWindData)
    (rocketLocation : GeoLocation) (windData : WindForecastData)
  : LaunchPathPoint :=
  match weathercockData with
  | [] => mkLaunchPathPoint thisApogee rocketLocation
  | first :: rest =>
      let windSpeed := 1.15078 * groundWindSpeed windData in
      let apogeeLocation := rocketLocation in
      if Qleb windSpeed (wcWindSpeed first) then
        mkLaunchPathPoint (apogee first)
          (if Qltb 0.0 (upwindDistance first)
           then moveAlongBearing apogeeLocation
                  (feetToMeters (upwindDistance first))
                  (groundWindDirection windData)
           else apogeeLocation)
      else if Qltb (wcWindSpeed (lastEntry first rest)) windSpeed then
        mkLaunchPathPoint (apogee (lastEntry first rest))
          (moveAlongBearing apogeeLocation
             (feetToMeters (upwindDistance (lastEntry first rest)))
             (groundWindDirection windData))
      else
        let '(apogeeLocation, apogeeAltitude) :=
          weathercockSearch apogeeLocation (groundWindDirection windData)
            windSpeed first rest in
        mkLaunchPathPoint apogeeAltitude apogeeLocation
  end.

End RocketWeathercocking.

(* ------------------------------------------------------------------ *)
(** ** The descent schedule

    The same statements build the schedule in calculateLandingPlots
    (main.js) and in driftSimulation (drift_simulation.js); they are
    modelled once, over the wind samples, the main deployment altitude
    and the main descent rate of the hour. *)

Notation "' pat <- c ;; k" :=
  (bind c (fun x => match x with pat => k end))
  (at level 61, pat pattern, c at next level, right associativity).

Section DescentSchedule.

Variable windData : list WindAtAltitude.
Variable mainDeployAltitude : Q.
Variable mainDescentRate : number.

(** [for (; windIndex < windData.length; ++windIndex)
       if (windData[windIndex].altitude >= rocketAltitude) break;]
    over the samples [rest] from [windIndex] on. *)
Fixpoint scanWindIndex (rocketAltitude : Q) (rest : list WindAtAltitude)
    (windIndex : nat) : nat :=
  match rest with
  | [] => windIndex
  | sample :: rest' =>
      if Qleb rocketAltitude (altitude sample) then windIndex
      else scanWindIndex rocketAltitude rest' (S windIndex)
  end.

(** The loop starts at index 1. *)
Definition findWindIndex (rocketAltitude : Q) : nat :=
  scanWindIndex rocketAltitude (tl windData) 1.

(** "Start with apogee": the first entry of the descent list. *)
Definition apogeeStep (rocketAltitude : Q) (windIndex : nat)
    (currentDescentRate : number) : completion DescentData :=
  windBandPercentage <-
    getWindBandPercentage rocketAltitude windData (Z.of_nat windIndex) ;;
  speed <- getAverageWindSpeed windBandPercentage windData (Z.of_nat windIndex) ;;
  direction <-
    getAverageWindDirection windBandPercentage windData (Z.of_nat windIndex) ;;
  newDescentData (Fin rocketAltitude) currentDescentRate (Fin speed) (Fin direction).

(** One iteration of the band loop at [windIndex]: the entries it pushes
    on the descent list, and the values of [currentDescentRate] and
    [rocketAltitude] after it. *)
Definition bandStep (windIndex : nat) (currentDescentRate : number)
    (rocketAltitude : Q) : completion (list DescentData * number * Q) :=
  hi <- elem windData (windIndex + 1) ;;
  lo <- elem windData windIndex ;;
  let descentDistance := altitude hi - altitude lo in
  if Qleb descentDistance 0 then
    (* inverted altitudes: continue *)
    Normal ([], currentDescentRate, altitude lo)
  else if Qeqb (altitude lo) mainDeployAltitude then
    (* the band's floor is replaced by the main parachute deployment *)
    deployment <-
      newDescentData (Fin mainDeployAltitude) mainDescentRate
        (Fin (windSpeed lo)) (Fin (windDirection lo)) ;;
    Normal ([deployment], mainDescentRate, rocketAltitude)
  else
    '(pushed, currentDescentRate) <-
      (if Qltb (altitude lo) mainDeployAltitude
          && Qltb mainDeployAltitude (altitude hi)
       then
         windBandPercentage <-
           getWindBandPercentage mainDeployAltitude windData
             (Z.of_nat windIndex) ;;
         speed <-
           getAverageWindSpeed windBandPercentage windData
             (Z.of_nat windIndex) ;;
         direction <-
           getAverageWindDirection windBandPercentage windData
             (Z.of_nat windIndex) ;;
         deployment <-
           newDescentData (Fin mainDeployAltitude) mainDescentRate
             (Fin speed) (Fin direction) ;;
         Normal ([deployment], mainDescentRate)
       else Normal ([], currentDescentRate)) ;;
    floorStep <-
      newDescentData (Fin (altitude lo)) currentDescentRate
        (Fin (windSpeed lo)) (Fin (windDirection lo)) ;;
    Normal (pushed ++ [floorStep], currentDescentRate, rocketAltitude).

(** [for (; windIndex >= 0; --windIndex)]: the entries pushed from
    [windIndex] down to 0, and the final [rocketAltitude]. *)
Fixpoint walkBands (windIndex : nat) (currentDescentRate : number)
    (rocketAltitude : Q) : completion (list DescentData * Q) :=
  '(pushed, currentDescentRate, rocketAltitude) <-
    bandStep windIndex currentDescentRate rocketAltitude ;;
  match windIndex with
  | O => Normal (pushed, rocketAltitude)
  | S below =>
      '(rest, rocketAltitude) <-
        walkBands below currentDescentRate rocketAltitude ;;
      Normal (pushed ++ rest, rocketAltitude)
  end.

(** From "Identify the altitude range the rocket's apogee fits within"
    to the end of the band loop: the descent list generated and the
    final value of [rocketAltitude], or [None] when no sample from index
    1 on reaches the apogee. *)
Definition generateDescentList (usingDualDeployment : bool)
    (drogueDescentRate : number) (rocketAltitude : Q)
  : completion (option (list DescentData * Q)) :=
  let windIndex := findWindIndex rocketAltitude in
  if Nat.eqb (length windData) windIndex then Normal None
  else
    (* All following logic assumes our index refers to the current wind
       band's floor *)
    let windIndex := (windIndex - 1)%nat in
    let currentDescentRate :=
      if usingDualDeployment then drogueDescentRate else mainDescentRate in
    first <- apogeeStep rocketAltitude windIndex currentDescentRate ;;
    '(pushed, rocketAltitude) <-
      walkBands windIndex currentDescentRate rocketAltitude ;;
    Normal (Some (first :: pushed, rocketAltitude)).

(** The same, followed by [if (descentList.length < 2)].  [None] is the
    source's [continue] (main.js) or [return null] (drift_simulation.js). *)
Definition buildDescentList (usingDualDeployment : bool)
    (drogueDescentRate : number) (rocketAltitude : Q)
  : completion (option (list DescentData * Q)) :=
  generated <-
    generateDescentList usingDualDeployment drogueDescentRate rocketAltitude ;;
  match generated with
  | None => Normal None
  | Some (descentList, rocketAltitude) =>
      if Nat.ltb (length descentList) 2 then Normal None
      else Normal (Some (descentList, rocketAltitude))
  end.

End DescentSchedule.

(* ------------------------------------------------------------------ *)
(** ** Integration of the drift along the descent list *)

(** The wind direction averaged between two consecutive entries, as the
    loop body computes it from [descentList[x - 1]] and [descentList[x]]. *)
Definition averageStepDirection (previous current : DescentData) : Q :=
  let windDirection := stepWindDirection current + stepWindDirection previous in
  if Qltb (Qabs (stepWindDirection previous - stepWindDirection current)) 180.0
  then windDirection / 2.0
  else
    (* Ensure the average remains in a northerly direction *)
    let windDirection := (windDirection - 360.0) / 2.0 in
    if Qltb windDirection 0.0 then windDirection + 360.0 else windDirection.

(** The body of [for (let x = 1; x < descentList.length; ++x)] up to the
    call of driftWithWind: the coordinates of [rocketLocation] after the
    call and the value the call returns. *)
Definition driftStep {G : GeoModule} (previous current : DescentData)
    (rocketLocation : GeoLocation) (currentDescentRate : Q)
  : GeoLocation * option Q :=
  let windSpeed := (stepWindSpeed current + stepWindSpeed previous) / 2.0 in
  let descentDistance := stepAltitude previous - stepAltitude current in
  let windDirection := averageStepDirection previous current in
  driftWithWind rocketLocation windSpeed windDirection
    (Fin currentDescentRate) descentDistance.

(** The loop itself, on values: [previous] is [descentList[x - 1]],
    [rest] the entries from [x] on.  It returns the path points appended,
    each with the coordinates [rocketLocation] has when it is appended. *)
Fixpoint integrate {G : GeoModule} (previous : DescentData)
    (rest : list DescentData) (rocketLocation : GeoLocation)
    (currentDescentRate : Q) : list LaunchPathPoint :=
  match rest with
  | [] => []
  | current :: rest' =>
      let rocketLocation :=
        fst (driftStep previous current rocketLocation currentDescentRate) in
      mkLaunchPathPoint (stepAltitude current) rocketLocation
      :: integrate current rest' rocketLocation (descentRate current)
  end.

(** The values returned by the calls of driftWithWind along the loop. *)
Fixpoint driftDistances {G : GeoModule} (previous : DescentData)
    (rest : list DescentData) (rocketLocation : GeoLocation)
    (currentDescentRate : Q) : list (option Q) :=
  match rest with
  | [] => []
  | current :: rest' =>
      let step := driftStep previous current rocketLocation currentDescentRate in
      snd step
      :: driftDistances current rest' (fst step) (descentRate current)
  end.

(** "Reset our descent rate to the apogee's value", then the loop. *)
Definition descentPath {G : GeoModule} (descentList : list DescentData)
    (rocketLocation : GeoLocation) : list LaunchPathPoint :=
  match descentList with
  | [] => []
  | first :: rest => integrate first rest rocketLocation (descentRate first)
  end.

(** The drift distances of the same loop. *)
Definition descentDrifts {G : GeoModule} (descentList : list DescentData)
    (rocketLocation : GeoLocation) : list (option Q) :=
  match descentList with
  | [] => []
  | first :: rest =>
      driftDistances first rest rocketLocation (descentRate first)
  end.

(* ------------------------------------------------------------------ *)
(** ** main.js: calculateLandingPlots *)

(** Math.round on the rational model: halves round up. *)
Definition MathRound (x : Q) : Q := inject_Z (Qfloor (x + (1 # 2))).

(** The values the hour loop works with once the form has been read and
    checked. *)
Record LaunchInputs : Type := mkLaunchInputs {
  rocketApogee : Q;
  applyWeathercockAdjustment : bool;
  weathercockData : list WeathercockWindData;
  mainDescentRate : Q;
  usingDualDeployoment : bool;
  mainDeployAltitude : Q;
  drogueDecentRate : Q;
  launchSiteElevationValue : number   (* parseInt of the elevation field *)
}.

(** The ground wind averaged over the lowest samples: direction, and
    speed converted to MPH and rounded.  [None] stands for the pair of
    NaN obtained when there is no sample at all (0 / 0). *)
Definition groundWind (inputs : LaunchInputs) (windForecast : WindForecastData)
  : option (Q * Q) :=
  let altitudeCount :=
    if modelIsRAP windForecast then
      if Qleb (rocketApogee inputs) 1000 then 2%nat else 4%nat
    else 1%nat in
  let altitudeCount :=
    if Nat.leb (length (windData windForecast)) altitudeCount
    then length (windData windForecast) else altitudeCount in
  let averaged := firstn altitudeCount (windData windForecast) in
  let groundWindDirection :=
    fold_left (fun sum sample => sum + windDirection sample) averaged 0.0 in
  let groundWindSpeed :=
    fold_left (fun sum sample => sum + windSpeed sample) averaged 0.0 in
  if Nat.eqb altitudeCount 0 then None
  else
    let count := inject_Z (Z.of_nat altitudeCount) in
    Some (groundWindDirection / count,
          MathRound ((groundWindSpeed / count) * 1.15078)).

(** The apogee location and altitude the descent starts from: the
    weathercock adjustment when enabled, defaulting to the user supplied
    apogee when the adjustment returns a value that is not positive.
    With a NaN ground wind every comparison of the search loop is false,
    so the adjustment returns -1 and moves nothing. *)
Definition adjustedApogee {G : GeoModule} (inputs : LaunchInputs)
    (launchLocation : GeoLocation) (windForecast : WindForecastData)
  : GeoLocation * Q :=
  let rocketLocation := launchLocation in
  if applyWeathercockAdjustment inputs then
    let '(rocketLocation, rocketAltitude) :=
      match groundWind inputs windForecast with
      | Some (groundWindDirection, groundWindSpeed) =>
          weathercockAdjustment rocketLocation groundWindDirection
            groundWindSpeed (weathercockData inputs)
      | None => (rocketLocation, -1)
      end in
    (rocketLocation,
     if Qleb rocketAltitude 0 then rocketApogee inputs else rocketAltitude)
  else (rocketLocation, rocketApogee inputs).

(** The launch path of a result: the launch site, the apogee, then the
    points of the descent. *)
Definition appendPath (s : LaunchSimulationData) (points : list LaunchPathPoint)
  : LaunchSimulationData :=
  fold_left (fun s p => addLaunchPathPoint s (pointAltitude p) (location p))
    points s.

(** The body of the hour loop for a forecast that was obtained.  [None]
    is the source's [continue]: the hour adds nothing to the list. *)
Definition simulateHour {G : GeoModule} (inputs : LaunchInputs)
    (launchLocation : GeoLocation) (windForecast : WindForecastData)
    (hour : Z) : completion (option LaunchSimulationData) :=
  let launchSiteElevation :=
    match launchSiteElevationValue inputs with
    | Fin e => if Qltb e 0 then groundElevation windForecast else e
    | NaN => groundElevation windForecast
    end in
  let '(rocketLocation, rocketAltitude) :=
    adjustedApogee inputs launchLocation windForecast in
  built <-
    buildDescentList (windData windForecast) (mainDeployAltitude inputs)
      (Fin (mainDescentRate inputs)) (usingDualDeployoment inputs)
      (Fin (drogueDecentRate inputs)) rocketAltitude ;;
  match built with
  | None => Normal None
  | Some (descentList, rocketAltitude) =>
      let launchSimulation := newLaunchSimulationData launchSiteElevation hour in
      let launchSimulation := addLaunchPathPoint launchSimulation 0 launchLocation in
      let launchSimulation :=
        addLaunchPathPoint launchSimulation rocketAltitude rocketLocation in
      Normal (Some (appendPath launchSimulation
                      (descentPath descentList rocketLocation)))
  end.

(** [for (currentOffset = startHourOffset; currentOffset <= endHourOffset;
    ++currentOffset)]: [forecasts] lists, for each offset of the window,
    the forecast obtained ([None] when getWindPredictionData returned
    null), and [hour] is the hour of the day of the current offset.  A
    TypeError thrown in an hour ends the whole function. *)
Fixpoint hourLoop {G : GeoModule} (inputs : LaunchInputs)
    (launchLocation : GeoLocation) (hour : Z)
    (forecasts : list (option WindForecastData))
    (simulationList : list LaunchSimulationData)
  : completion (list LaunchSimulationData) :=
  match forecasts with
  | [] => Normal simulationList
  | None :: later =>
      hourLoop inputs launchLocation (hour + 1)%Z later simulationList
  | Some windForecast :: later =>
      result <- simulateHour inputs launchLocation windForecast hour ;;
      match result with
      | None =>
          hourLoop inputs launchLocation (hour + 1)%Z later simulationList
      | Some launchSimulation =>
          hourLoop inputs launchLocation (hour + 1)%Z later
            (simulationList ++ [launchSimulation])
      end
  end.

(** class LaunchTimeData (launch.js), as calculateLandingPlots reads it.
    The constructor works from the clock and from the date and the two
    times of the page, and throws a TypeError on a string it cannot use
    or when the launch ends before it starts; its outcome is taken as
    given.  [launchDate] is a Date: its hour is the [startHour] handed
    to calculateLandingPlots.  The class has no [startHour] property. *)
Record LaunchTimeData : Type := mkLaunchTimeData {
  endHour : Z;
  startHourOffset : Z;
  endHourOffset : Z
}.

(** The two input elements of a row of the weathercock table: [None]
    when the element is not found in the page, otherwise parseInt of its
    value. *)
Record WeathercockInputs : Type := mkWeathercockInputs {
  distanceInput : option number;
  apogeeInput : option number
}.

(** The rows of the table, named as the page names them. *)
Record WeathercockRows : Type := mkWeathercockRows {
  five : WeathercockInputs;
  ten : WeathercockInputs;
  fifteen : WeathercockInputs;
  twenty : WeathercockInputs
}.

(** The page as calculateLandingPlots reads it: the outcome of
    [new LaunchTimeData(...)] and the fields as parseInt and parseFloat
    deliver them. *)
Record FormValues : Type := mkFormValues {
  launchTimeData : completion LaunchTimeData;
  apogeeAltitudeValue : number;
  applyWeathercockingChecked : bool;
  weathercockRows : WeathercockRows;
  mainDescentRateValue : number;
  dualDeployChecked : bool;
  mainEventAltitudeValue : number;
  drogueDecentRateValue : number;
  elevationValue : number
}.

(** The constructor of WeathercockWindData (wind.js) throws a TypeError
    on a NaN argument. *)
Definition newWeathercockWindData (speed dist alt : number)
  : completion WeathercockWindData :=
  match speed, dist, alt with
  | Fin s, Fin d, Fin a => Normal (mkWeathercockWindData s d a)
  | _, _, _ => Throws
  end.

(** getWeathercockInputValues(windSpeed, speedId): [None] is the
    source's [null].  The second test looks at the distance again, so a
    NaN apogee reaches the constructor. *)
Definition getWeathercockInputValues (windSpeed : Q) (row : WeathercockInputs)
  : completion (option WeathercockWindData) :=
  match distanceInput row with
  | None => Normal None
  | Some distanceValue =>
      match apogeeInput row with
      | None => Normal None
      | Some apogeeValue =>
          if isNaN distanceValue then Normal None
          else if isNaN distanceValue then Normal None
          else
            windSpeedData <-
              newWeathercockWindData (Fin windSpeed) distanceValue apogeeValue ;;
            Normal (Some windSpeedData)
      end
  end.

(** [if (null != windSpeedData) resultsData.push(windSpeedData)]. *)
Definition pushRow (resultsData : list WeathercockWindData)
    (windSpeedData : option WeathercockWindData) : list WeathercockWindData :=
  match windSpeedData with
  | Some row => resultsData ++ [row]
  | None => resultsData
  end.

(** loadWeathercockData(resultsData): the value returned and the array
    filled.  The table starts with the zero-wind entry, followed by the
    rows read for 5, 10, 15 and 20 MPH.  The two bare [return]s give
    [undefined], which the caller tests as false. *)
Definition loadWeathercockData (checked : bool) (rocketApogee : number)
    (rows : WeathercockRows) : completion (bool * list WeathercockWindData) :=
  if checked then
    match rocketApogee with
    | NaN => Normal (false, [])
    | Fin rocketApogee =>
        if Qleb rocketApogee 0 then Normal (false, [])
        else
          zeroWind <-
            newWeathercockWindData (Fin 0) (Fin 0) (Fin rocketApogee) ;;
          let resultsData := [zeroWind] in
          windSpeedData <- getWeathercockInputValues 5 (five rows) ;;
          let resultsData := pushRow resultsData windSpeedData in
          windSpeedData <- getWeathercockInputValues 10 (ten rows) ;;
          let resultsData := pushRow resultsData windSpeedData in
          windSpeedData <- getWeathercockInputValues 15 (fifteen rows) ;;
          let resultsData := pushRow resultsData windSpeedData in
          windSpeedData <- getWeathercockInputValues 20 (twenty rows) ;;
          let resultsData := pushRow resultsData windSpeedData in
          if Nat.eqb 0 (length resultsData) then Normal (false, resultsData)
          else Normal (true, resultsData)
    end
  else Normal (false, []).

Definition MathAbs (n : number) : number :=
  match n with
  | Fin q => Fin (Qabs q)
  | NaN => NaN
  end.

(** "Load the rocket's recovery data": dual deployment flag, main
    deployment altitude and drogue descent rate. *)
Definition loadRecovery (rocketApogee mainDescentRate : Q) (checked : bool)
    (mainEventAltitude drogueRate : number) : bool * Q * Q :=
  if checked then
    match MathAbs mainEventAltitude, MathAbs drogueRate with
    | Fin mainDeployAltitude, Fin drogueDecentRate =>
        if Qltb rocketApogee mainDeployAltitude then (false, -1, mainDescentRate)
        else if Qeqb 0 mainDeployAltitude then (false, -1, mainDescentRate)
        else if Qeqb 0 drogueDecentRate then (false, -1, mainDescentRate)
        else (true, mainDeployAltitude, drogueDecentRate)
    | _, _ => (false, -1, mainDescentRate)
    end
  else (false, -1, mainDescentRate).

(** calculateLandingPlots up to the hour loop: the launch window, the
    apogee, the weathercock table, the launch site and the recovery
    data.  [None] is the source's [return simulationList] with the list
    still empty; [launchSiteLocation] is the result of
    getLaunchSiteLocation. *)
Definition loadLaunchInputs (form : FormValues)
    (launchSiteLocation : option GeoLocation)
  : completion (option (LaunchTimeData * LaunchInputs * GeoLocation)) :=
  launchTimes <- launchTimeData form ;;
  (* launchTimes.startHour is undefined, and a number is never below
     undefined: the left operand of the first test is false *)
  if false && (0 <? endHour launchTimes)%Z then Normal None
  else if (startHourOffset launchTimes <? -24)%Z then Normal None
  else if (380 <? endHourOffset launchTimes)%Z then Normal None
  else
    match apogeeAltitudeValue form with
    | NaN => Normal None
    | Fin rocketApogee =>
        '(applyWeathercockAdjustment, weathercockData) <-
          loadWeathercockData (applyWeathercockingChecked form)
            (apogeeAltitudeValue form) (weathercockRows form) ;;
        match launchSiteLocation with
        | None => Normal None
        | Some launchLocation =>
            match mainDescentRateValue form with
            | NaN => Normal None
            | Fin mainDescentRate =>
                if Qleb mainDescentRate 0.0 then Normal None
                else
                  let '(usingDualDeployoment, mainDeployAltitude,
                        drogueDecentRate) :=
                    loadRecovery rocketApogee mainDescentRate
                      (dualDeployChecked form) (mainEventAltitudeValue form)
                      (drogueDecentRateValue form) in
                  Normal
                    (Some
                       (launchTimes,
                        mkLaunchInputs rocketApogee applyWeathercockAdjustment
                          weathercockData mainDescentRate usingDualDeployoment
                          mainDeployAltitude drogueDecentRate
                          (elevationValue form),
                        launchLocation))
            end
        end
    end.

(** The number of offsets from startHourOffset to endHourOffset. *)
Definition offsetCount (launchTimes : LaunchTimeData) : nat :=
  Z.to_nat (endHourOffset launchTimes - startHourOffset launchTimes + 1).

(** calculateLandingPlots.  [startHour] is the hour of the launch date
    and [forecasts] lists the results of getWindPredictionData for the
    successive offsets from startHourOffset on, of which the loop takes
    one per offset of the window. *)
Definition calculateLandingPlots {G : GeoModule} (form : FormValues)
    (launchSiteLocation : option GeoLocation) (startHour : Z)
    (forecasts : list (option WindForecastData))
  : completion (list LaunchSimulationData) :=
  loaded <- loadLaunchInputs form launchSiteLocation ;;
  match loaded with
  | None => Normal []
  | Some (launchTimes, inputs, launchLocation) =>
      hourLoop inputs launchLocation startHour
        (firstn (offsetCount launchTimes) forecasts) []
  end.

(* ------------------------------------------------------------------ *)
(** ** rocket.js and drift_simulation.js *)

Module Rocket.

(** class RocketBase: the recovery data of a rocket.  The setters store
    what they are given, so the rates may be any number. *)
Record RocketBase : Type := mkRocketBase {
  descentRateMain : number;
  mainDeployAltitude : Q;
  descentRateDrogue : number
}.

Definition usingDualDeployment (rocket : RocketBase) : bool :=
  Qltb 0 (mainDeployAltitude rocket).

(** The three classes differ by getLaunchPath only. *)
Inductive RocketClass : Type :=
| Base
| Apogee (apogee : Q)
| Weathercocking (apogee : Q) (weathercockData : list WeathercockWindData).

(** The launch site as driftSimulation reads it: [launchDetails.altitude]
    and [launchDetails.location]. *)
Record LaunchLocationData : Type := mkLaunchLocationData {
  siteAltitude : Q;
  siteLocation : GeoLocation
}.

Definition getLaunchPath {G : GeoModule} (class : RocketClass)
    (launchLocation : LaunchLocationData) (windData : WindForecastData)
  : list LaunchPathPoint :=
  match class with
  | Base =>
      [mkLaunchPathPoint (siteAltitude launchLocation)
         (siteLocation launchLocation)]
  | Apogee apogee =>
      [mkLaunchPathPoint 0 (siteLocation launchLocation);
       mkLaunchPathPoint apogee (siteLocation launchLocation)]
  | Weathercocking apogee weathercockData =>
      [mkLaunchPathPoint 0 (siteLocation launchLocation);
       RocketWeathercocking.weathercockAdjustment apogee weathercockData
         (siteLocation launchLocation) windData]
  end.

End Rocket.

(** driftSimulation(launchDetails, launchTime, rocketDetails,
    windForecast); [hours] is [launchTime.getHours()] and [None] the
    source's [return null]. *)
Definition driftSimulation {G : GeoModule}
    (launchDetails : Rocket.LaunchLocationData) (hours : Z)
    (class : Rocket.RocketClass) (rocketDetails : Rocket.RocketBase)
    (windForecast : WindForecastData)
  : completion (option LaunchSimulationData) :=
  let launchPath := Rocket.getLaunchPath class launchDetails windForecast in
  if Nat.eqb 0 (length launchPath) then Normal None
  else
    apogeePathPoint <- elem launchPath (length launchPath - 1) ;;
    let rocketLocation := location apogeePathPoint in
    let rocketAltitude := pointAltitude apogeePathPoint in
    built <-
      buildDescentList (windData windForecast)
        (Rocket.mainDeployAltitude rocketDetails)
        (Rocket.descentRateMain rocketDetails)
        (Rocket.usingDualDeployment rocketDetails)
        (Rocket.descentRateDrogue rocketDetails) rocketAltitude ;;
    match built with
    | None => Normal None
    | Some (descentList, _) =>
        ground <- elem (windData windForecast) 0 ;;
        let groundWindSpeed := MathRound (windSpeed ground * 1.15078) in
        let launchSimulation :=
          newLaunchSimulationData (Rocket.siteAltitude launchDetails) hours in
        let launchSimulation := appendPath launchSimulation launchPath in
        Normal (Some (appendPath launchSimulation
                        (descentPath descentList rocketLocation)))
    end.

(* ------------------------------------------------------------------ *)
(** ** The launch path with its objects

    GeoLocation objects are mutable and passed by reference: the
    movement primitives overwrite the object they are given, and the
    loop hands the same [rocketLocation] object to every call.  This
    part models the assembly of the launch path in calculateLandingPlots
    on a store of GeoLocation objects, an object being named by its
    position in the store. *)

Definition store : Type := list GeoLocation.

(** [new GeoLocation(latitude, longitude)]. *)
Definition newGeoLocation (objects : store) (lat lon : Q) : store * nat :=
  (objects ++ [mkGeoLocation lat lon], length objects).

(** The coordinates of an object are overwritten in place. *)
Fixpoint overwrite (objects : store) (object : nat) (coordinates : GeoLocation)
  : store :=
  match objects, object with
  | [], _ => []
  | _ :: others, O => coordinates :: others
  | first :: others, S n => first :: overwrite others n coordinates
  end.

(** A stored path point: its altitude and its own GeoLocation object. *)
Record PathPointObject : Type := mkPathPointObject {
  objectAltitude : Q;
  objectLocation : nat
}.

(** addLaunchPathPoint(alt, launchPathPoint): the LaunchPathPoint
    constructor reads the coordinates of the object it is given and
    stores a new GeoLocation made of them. *)
Definition addLaunchPathPointObject (objects : store)
    (path : list PathPointObject) (alt : Q) (launchPathPoint : nat)
  : completion (store * list PathPointObject) :=
  given <- elem objects launchPathPoint ;;
  let '(objects, copy) :=
    newGeoLocation objects (latitude given) (longitude given) in
  Normal (objects, path ++ [mkPathPointObject alt copy]).

(** The integration loop: every iteration lets driftWithWind overwrite
    the one [rocketLocation] object, then appends a path point for it. *)
Fixpoint integrateObjects {G : GeoModule} (previous : DescentData)
    (rest : list DescentData) (rocketLocation : nat)
    (currentDescentRate : Q) (objects : store) (path : list PathPointObject)
  : completion (store * list PathPointObject) :=
  match rest with
  | [] => Normal (objects, path)
  | current :: rest' =>
      coordinates <- elem objects rocketLocation ;;
      let objects :=
        overwrite objects rocketLocation
          (fst (driftStep previous current coordinates currentDescentRate)) in
      '(objects, path) <-
        addLaunchPathPointObject objects path (stepAltitude current)
          rocketLocation ;;
      integrateObjects current rest' rocketLocation (descentRate current)
        objects path
  end.

(** "Begin by adding the launch site and apogee", then the loop. *)
Definition assemblePath {G : GeoModule} (descentList : list DescentData)
    (launchLocation rocketLocation : nat) (rocketAltitude : Q)
    (objects : store) : completion (store * list PathPointObject) :=
  '(objects, path) <- addLaunchPathPointObject objects [] 0 launchLocation ;;
  '(objects, path) <-
    addLaunchPathPointObject objects path rocketAltitude rocketLocation ;;
  match descentList with
  | [] => Normal (objects, path)
  | first :: rest =>
      integrateObjects first rest rocketLocation (descentRate first)
        objects path
  end.

(** The path read back from the store: altitude and coordinates of every
    stored point. *)
Definition readPath (objects : store) (path : list PathPointObject)
  : list (option LaunchPathPoint) :=
  map (fun point =>
         option_map (mkLaunchPathPoint (objectAltitude point))
           (nth_error objects (objectLocation point)))
      path.

(* ------------------------------------------------------------------ *)
(** ** Conditions named by the properties *)

(** The situations in which the band percentage cannot be given: the
    floor index or the index above it is outside the array, the altitude
    is outside the band, or the band has no height. *)
Definition bandFailure (rocketAltitude : Q) (windData : list WindAtAltitude)
    (floorIndex : Z) : Prop :=
  (floorIndex < 0)%Z
  \/ (Z.of_nat (length windData) <= floorIndex + 1)%Z
  \/ exists lo hi,
       nth_error windData (Z.to_nat floorIndex) = Some lo
       /\ nth_error windData (Z.to_nat (floorIndex + 1)) = Some hi
       /\ (rocketAltitude < altitude lo
           \/ altitude hi < rocketAltitude
           \/ altitude hi == altitude lo).

(** A weathercock table sorted ascending by wind speed. *)
Definition ascendingBySpeed (table : list WeathercockWindData) : Prop :=
  StronglySorted (fun a b => wcWindSpeed a <= wcWindSpeed b) table.

(** Wind samples sorted by strictly increasing altitude, as the
    constructor of WindForecastData leaves them (a Set of altitudes,
    sorted). *)
Definition ascendingByAltitude (samples : list WindAtAltitude) : Prop :=
  StronglySorted (fun a b => altitude a < altitude b) samples.

(** *** The band loop on a well-formed profile

    What one iteration of the band loop pushes, and the descent rate it
    leaves, for a band of positive height from [lo] up to [hi]. *)
Section BandOutcomes.

Variable mainDeployAltitude : Q.
Variable mainDescentRate : Q.

Inductive BandOutcome (lo hi : WindAtAltitude) (rate : Q)
  : list DescentData -> Q -> Prop :=
| DeployAtSample :
    altitude lo == mainDeployAltitude ->
    BandOutcome lo hi rate
      [mkDescentData mainDeployAltitude mainDescentRate
         (windSpeed lo) (windDirection lo)]
      mainDescentRate
| DeployInsideBand (fraction speed direction : Q) :
    altitude lo < mainDeployAltitude ->
    mainDeployAltitude < altitude hi ->
    0 <= fraction <= 1 ->
    speed ==
      (windSpeed lo + (windSpeed lo + fraction * (windSpeed hi - windSpeed lo)))
      / 2 ->
    BandOutcome lo hi rate
      [mkDescentData mainDeployAltitude mainDescentRate speed direction;
       mkDescentData (altitude lo) mainDescentRate
         (windSpeed lo) (windDirection lo)]
      mainDescentRate
| NoDeployment :
    ~ altitude lo == mainDeployAltitude ->
    ~ (altitude lo < mainDeployAltitude /\ mainDeployAltitude < altitude hi) ->
    BandOutcome lo hi rate
      [mkDescentData (altitude lo) rate (windSpeed lo) (windDirection lo)]
      rate.

(** The entries pushed from band [windIndex] down to band 0. *)
Inductive Walk (windData : list WindAtAltitude)
  : nat -> Q -> list DescentData -> Prop :=
| WalkGround lo hi rate pushed rate' :
    nth_error windData 0 = Some lo ->
    nth_error windData 1 = Some hi ->
    BandOutcome lo hi rate pushed rate' ->
    Walk windData 0 rate pushed
| WalkBand below lo hi rate pushed rate' rest :
    nth_error windData (S below) = Some lo ->
    nth_error windData (S (S below)) = Some hi ->
    BandOutcome lo hi rate pushed rate' ->
    Walk windData below rate' rest ->
    Walk windData (S below) rate (pushed ++ rest).

End BandOutcomes.

(** *** The shape of the launch path of a simulated hour

    [descentList] is the descent list of the hour, [landing] the last
    point of the path and [front] the points before it; [ground] is the
    lowest wind sample.  The last clause runs the assembly of the path
    on a store in which [launchLocation] and [rocketLocation] are objects
    holding the launch site and the apogee location. *)
Definition FlightPathShape {G : GeoModule} (inputs : LaunchInputs)
    (launchLocation : GeoLocation) (windForecast : WindForecastData)
    (launchSimulation : LaunchSimulationData) (ground : WindAtAltitude)
    (descentList : list DescentData) (front : list LaunchPathPoint)
    (landing : LaunchPathPoint) : Prop :=
  let apogeeLocation := fst (adjustedApogee inputs launchLocation windForecast) in
  let apogeeAltitude := snd (adjustedApogee inputs launchLocation windForecast) in
  (* the descent list was built, the apogee altitude unchanged *)
  buildDescentList (windData windForecast) (mainDeployAltitude inputs)
    (Fin (mainDescentRate inputs)) (usingDualDeployoment inputs)
    (Fin (drogueDecentRate inputs)) apogeeAltitude
  = Normal (Some (descentList, apogeeAltitude))
  (* launch site at altitude 0, apogee, then the descent *)
  /\ launchPath launchSimulation
     = mkLaunchPathPoint 0 launchLocation
       :: mkLaunchPathPoint apogeeAltitude apogeeLocation
       :: descentPath descentList apogeeLocation
  (* one point per descent entry after the apogee entry, at its altitude *)
  /\ map pointAltitude (descentPath descentList apogeeLocation)
     = map stepAltitude (tl descentList)
  (* the last point is at the altitude of the lowest sample *)
  /\ launchPath launchSimulation = front ++ [landing]
  /\ pointAltitude landing == altitude ground
  (* from the apogee on, altitudes strictly descend *)
  /\ (altitude ground < apogeeAltitude ->
      mainDeployAltitude inputs < apogeeAltitude ->
      StronglySorted (fun a b => b < a)
        (map pointAltitude (tl (launchPath launchSimulation))))
  (* every stored point has a GeoLocation object of its own *)
  /\ forall (objects : store) (launchObject rocketObject : nat),
       nth_error objects launchObject = Some launchLocation ->
       nth_error objects rocketObject = Some apogeeLocation ->
       exists objects' path,
         assemblePath descentList launchObject rocketObject apogeeAltitude
           objects
         = Normal (objects', path)
         /\ readPath objects' path = map Some (launchPath launchSimulation)
         /\ NoDup (map objectLocation path)
         /\ Forall (fun p => (length objects <= objectLocation p)%nat) path
         /\ nth_error objects' rocketObject = Some (location landing)
         /\ forall coordinates,
              readPath (overwrite objects' rocketObject coordinates) path
              = readPath objects' path.

(* ------------------------------------------------------------------ *)
(** ** Concrete inputs *)

(** The table and the ground wind used to run the weathercock
    adjustments: entries for 0, 5 and 10 MPH, and a ground wind of
    13 knots (15 MPH once converted and rounded) from the west. *)
Definition sampleTable : list WeathercockWindData :=
  [mkWeathercockWindData 0 0 1000;
   mkWeathercockWindData 5 40 980;
   mkWeathercockWindData 10 90 940].

Definition sampleSite : GeoLocation := mkGeoLocation 40 (-100).

Definition windyForecast : WindForecastData :=
  mkWindForecastData false
    [mkWindAtAltitude 0 13 270; mkWindAtAltitude 3000 20 270] 0 13 270.

(** The profile of the deployment scenario: samples at 0, 500 and
    1500 ft. *)
Definition threeSamples : list WindAtAltitude :=
  [mkWindAtAltitude 0 5 0; mkWindAtAltitude 500 10 90;
   mkWindAtAltitude 1500 20 180].

(** A single band with a steady wind of 10 knots from the west. *)
Definition steadyWest : WindForecastData :=
  mkWindForecastData true
    [mkWindAtAltitude 0 10 270; mkWindAtAltitude 1000 10 270] 0 0 0.

(** Still air whose lowest sample lies above the ground: samples at 100
    and 200 ft, both with a wind speed of 0. *)
Definition stillAir : WindForecastData :=
  mkWindForecastData true
    [mkWindAtAltitude 100 0 0; mkWindAtAltitude 200 0 0] 0 0 0.

(** A launch window of one hour that starts now, and one of three
    hours. *)
Definition oneHour : completion LaunchTimeData :=
  Normal (mkLaunchTimeData 9 0 0).


(** A weathercock table whose rows are left blank: parseInt of an empty
    field is NaN. *)
Definition blankRow : WeathercockInputs :=
  mkWeathercockInputs (Some NaN) (Some NaN).

Definition blankRows : WeathercockRows :=
  mkWeathercockRows blankRow blankRow blankRow blankRow.

(** A form asking for an apogee of 50 ft, single deployment at 20 ft/s,
    no weathercocking. *)
Definition lowApogeeForm : FormValues :=
  mkFormValues oneHour (Fin 50) false blankRows (Fin 20) false NaN NaN NaN.

(** A dual deployment hour on the three samples: apogee 1500 ft, main
    deployment at 500 ft, 75 ft/s under drogue and 20 ft/s under main. *)
Definition dualInputs : LaunchInputs :=
  mkLaunchInputs 1500 false [] 20 true 500 75 NaN.

Definition dualForecast : WindForecastData :=
  mkWindForecastData true threeSamples 0 0 0.

Definition dualHour : LaunchSimulationData :=
  Eval vm_compute in
    match @simulateHour gridGeo dualInputs sampleSite dualForecast 9 with
    | Normal (Some launchSimulation) => launchSimulation
    | _ => newLaunchSimulationData 0 0
    end.

(** A profile whose lowest sample is 100 ft above the ground. *)
Definition raisedForecast : WindForecastData :=
  mkWindForecastData true
    [mkWindAtAltitude 100 5 270; mkWindAtAltitude 1000 10 270] 0 0 0.

(* ------------------------------------------------------------------ *)
(** ** wind.js: the constructor of WindForecastData *)

Module WindForecast.

(** The object handed to the constructor, as far as the constructor
    reads it.  The altitudes are arrays of numbers.  [speedRaw],
    [directionRaw], [speed] and [direction] are objects keyed by the
    decimal form of an altitude: a lookup is [None] when the key is
    absent ([stringAlt in windSpeeds] is false) and otherwise the result
    of parseInt on the value stored under the key.  [groundElev] and
    [groundSpd] are [None] when the key is absent. *)
Record WindJSON : Type := mkWindJSON {
  modelRAP : bool;              (* 'RAP' == windJSON.model *)
  altFtRaw : list Q;
  speedRaw : Q -> option number;
  directionRaw : Q -> option number;
  altFt : list Q;
  speed : Q -> option number;
  direction : Q -> option number;
  groundElev : option Q;
  groundSpd : option Q
}.

(** [Array.from(new Set(values))]: the values in the order of their
    first occurrence, later duplicates dropped. *)
Fixpoint newSet (values : list Q) : list Q :=
  match values with
  | [] => []
  | value :: later =>
      value :: filter (fun other => negb (Qeqb other value)) (newSet later)
  end.

(** [altitudes.sort(compare)] with the comparator of the source, which
    orders numbers ascending.  The sorted array is computed by
    insertion; the altitudes of a Set are distinct, so the order in
    which a sort leaves equal elements plays no role. *)
Fixpoint insertAscending (a : Q) (sorted : list Q) : list Q :=
  match sorted with
  | [] => [a]
  | b :: rest =>
      if Qltb b a then b :: insertAscending a rest else a :: b :: rest
  end.

Definition sort (altitudes : list Q) : list Q :=
  fold_right insertAscending [] altitudes.

(** [for (const currentAlt of altitudes)]: a sample is pushed for every
    altitude that has a wind speed and a wind direction; the constructor
    of WindAtAltitude throws when parseInt gave NaN. *)
Fixpoint loadSamples (windSpeeds windDirections : Q -> option number)
    (altitudes : list Q) : completion (list WindAtAltitude) :=
  match altitudes with
  | [] => Normal []
  | currentAlt :: later =>
      match windSpeeds currentAlt, windDirections currentAlt with
      | Some parsedSpeed, Some parsedDirection =>
          sample <-
            newWindAtAltitude (Fin currentAlt) parsedSpeed parsedDirection ;;
          samples <- loadSamples windSpeeds windDirections later ;;
          Normal (sample :: samples)
      | _, _ => loadSamples windSpeeds windDirections later
      end
  end.

(** constructor(windJSON).  The ground wind direction is read from
    ['groundSpd'], as in the source. *)
Definition newWindForecastData (windJSON : WindJSON)
  : completion WindForecastData :=
  let altitudes :=
    newSet (if modelRAP windJSON then altFtRaw windJSON else altFt windJSON) in
  let windSpeeds :=
    if modelRAP windJSON then speedRaw windJSON else speed windJSON in
  let windDirections :=
    if modelRAP windJSON then directionRaw windJSON else direction windJSON in
  let altitudes := sort altitudes in
  samples <- loadSamples windSpeeds windDirections altitudes ;;
  Normal
    (mkWindForecastData (modelRAP windJSON) samples
       (match groundElev windJSON with Some e => e | None => 0 end)
       (match groundSpd windJSON with Some s => s | None => 0 end)
       (match groundSpd windJSON with Some s => s | None => 0 end)).

End WindForecast.

(* ------------------------------------------------------------------ *)
(** ** rocket.js: the recovery setters of RocketBase *)

Module RocketSetters.

(** A rocket as its field initialisers leave it. *)
Definition newRocketBase : Rocket.RocketBase :=
  Rocket.mkRocketBase (Fin 20) (-1) (Fin 75).

(** setSingleDeployment(descentRate). *)
Definition setSingleDeployment (rocket : Rocket.RocketBase)
    (descentRate : number) : Rocket.RocketBase :=
  Rocket.mkRocketBase descentRate (-1) (Rocket.descentRateDrogue rocket).

(** setDualDeployment(drogueDecentRate, mainDeployAlt, mainDescentRate). *)
Definition setDualDeployment (rocket : Rocket.RocketBase)
    (drogueDecentRate : number) (mainDeployAlt : Q) (mainDescentRate : number)
  : Rocket.RocketBase :=
  Rocket.mkRocketBase mainDescentRate mainDeployAlt drogueDecentRate.

End RocketSetters.

(* ------------------------------------------------------------------ *)
(** ** launch.js and map_colors.js: the label and the colour of an hour *)

From Stdlib Require String DecimalString.

Module HourLabels.

Import String.
Local Open Scope string_scope.

(** The template literal of an integer: its decimal digits. *)
Definition decimal (n : Z) : string :=
  DecimalString.NilZero.string_of_int (Z.to_int n).

(** LaunchSimulationData.getLaunchTime(). *)
Definition getLaunchTime (s : LaunchSimulationData) : string :=
  if (0 =? time s)%Z then "12AM"
  else if (12 =? time s)%Z then "12PM"
  else if (12 <? time s)%Z then decimal (time s - 12) ++ "PM"
  else decimal (time s) ++ "AM".

(** class MapColorInfo. *)
Record MapColorInfo : Type := mkMapColorInfo {
  name : string;
  earthHexadecimal : string;
  webHexadecimal : string
}.

(** Colours for each hour (1 - 12), with red as a default. *)
Definition mapColors : list MapColorInfo :=
  [mkMapColorInfo "red" "ff0000ff" "ff0000";
   mkMapColorInfo "pink" "ffff00ff" "ff00ff";
   mkMapColorInfo "sky" "fffa931a" "1a93fa";
   mkMapColorInfo "yellow" "ff00ffff" "ffff00";
   mkMapColorInfo "blue" "ffff0000" "0000ff";
   mkMapColorInfo "purple" "ff800080" "800080";
   mkMapColorInfo "brown" "ff13458b" "8b4513";
   mkMapColorInfo "black" "ff000000" "000000";
   mkMapColorInfo "green" "ff008000" "008000";
   mkMapColorInfo "orange" "ff1a93fa" "fa931a";
   mkMapColorInfo "navy" "ff800000" "000080";
   mkMapColorInfo "lime" "ff00ff00" "00ff00";
   mkMapColorInfo "aqua" "ffffff00" "00ffff"]%list.

(** getHourColor(hour) for an integer [hour]; [None] is the [undefined]
    an array read outside the table would give. *)
Definition getHourColor (hour : Z) : option MapColorInfo :=
  if (hour <? 0)%Z || (23 <? hour)%Z then nth_error mapColors 0
  else
    (* AM and PM use the same colors *)
    let hour := if (12 <? hour)%Z then (hour - 12)%Z else hour in
    (* Map 0 to 12 *)
    if (0 =? hour)%Z then nth_error mapColors 12
    else if (Z.of_nat (List.length mapColors) <=? hour)%Z
    then nth_error mapColors 0
    else nth_error mapColors (Z.to_nat hour).

End HourLabels.

(* ------------------------------------------------------------------ *)
(** ** Further conditions named by the properties *)

(** [x] lies between [a] and [b], whichever of the two is larger. *)
Definition between (a x b : Q) : Prop := a <= x <= b \/ b <= x <= a.

(** A weathercock table whose wind speeds strictly increase. *)
Definition strictlyAscendingBySpeed (table : list WeathercockWindData) : Prop :=
  StronglySorted (fun a b => wcWindSpeed a < wcWindSpeed b) table.

(** The forecasts of a launch window that were obtained. *)
Definition obtained (forecasts : list (option WindForecastData))
  : list WindForecastData :=
  flat_map (fun forecast =>
              match forecast with
              | Some windForecast => [windForecast]
              | None => []
              end)
    forecasts.

(** The launch window passes the two tests on its offsets. *)
Definition windowAccepted (launchTimes : LaunchTimeData) : Prop :=
  (-24 <= startHourOffset launchTimes)%Z
  /\ (endHourOffset launchTimes <= 380)%Z.

(** The read of a row of the weathercock table throws: both input
    elements are found, the distance is a number and the apogee is
    not. *)
Definition rowThrows (row : WeathercockInputs) : Prop :=
  exists distance,
    distanceInput row = Some (Fin distance) /\ apogeeInput row = Some NaN.

(** The read of the weathercock table throws: weathercocking is
    switched on, the apogee is a number above 0 and the read of one of
    the four rows throws. *)
Definition tableReadThrows (form : FormValues) : Prop :=
  applyWeathercockingChecked form = true
  /\ (exists rocketApogee,
        apogeeAltitudeValue form = Fin rocketApogee /\ 0 < rocketApogee)
  /\ (rowThrows (five (weathercockRows form))
      \/ rowThrows (ten (weathercockRows form))
      \/ rowThrows (fifteen (weathercockRows form))
      \/ rowThrows (twenty (weathercockRows form))).

(** The page passes everything calculateLandingPlots does ahead of the
    hour loop: the launch window is built and its offsets are accepted,
    the apogee is a number, the weathercock table is read without a
    throw, the launch site has coordinates and the main descent rate is
    a number above 0. *)
Definition formAccepted (form : FormValues)
    (launchSiteLocation : option GeoLocation) (launchTimes : LaunchTimeData)
  : Prop :=
  launchTimeData form = Normal launchTimes
  /\ windowAccepted launchTimes
  /\ (exists rocketApogee, apogeeAltitudeValue form = Fin rocketApogee)
  /\ ~ tableReadThrows form
  /\ (exists launchLocation, launchSiteLocation = Some launchLocation)
  /\ (exists rate, mainDescentRateValue form = Fin rate /\ 0 < rate).

(** The distances returned by the calls of driftWithWind, added up; a
    call that returned nothing adds nothing. *)
Definition totalDrift (distances : list (option Q)) : Q :=
  fold_right (fun distance total =>
                match distance with
                | Some feet => feet + total
                | None => total
                end)
    0 distances.

(** The time of the fall along a descent list: the height of every step
    over the descent rate the integration loop uses for it, which is the
    rate of the entry the step starts from. *)
Fixpoint fallTime (previous : DescentData) (rest : list DescentData)
    (currentDescentRate : Q) : Q :=
  match rest with
  | [] => 0
  | current :: rest' =>
      (stepAltitude previous - stepAltitude current) / Qabs currentDescentRate
      + fallTime current rest' (descentRate current)
  end.

(* ------------------------------------------------------------------ *)
(** * Properties *)

(** ** Reflection of the comparisons *)

Lemma Qltb_true x y : Qltb x y = true <-> x < y.
Proof. unfold Qltb. destruct (Qlt_le_dec x y); split; try easy. lra. Qed.

Lemma Qltb_false x y : Qltb x y = false <-> y <= x.
Proof. unfold Qltb. destruct (Qlt_le_dec x y); split; try easy. lra. Qed.

Lemma Qleb_true x y : Qleb x y = true <-> x <= y.
Proof. unfold Qleb. destruct (Qlt_le_dec y x); split; try easy. lra. Qed.

Lemma Qleb_false x y : Qleb x y = false <-> y < x.
Proof. unfold Qleb. destruct (Qlt_le_dec y x); split; try easy. lra. Qed.

Lemma Qeqb_true x y : Qeqb x y = true <-> x == y.
Proof. unfold Qeqb. destruct (Qeq_dec x y); split; easy. Qed.

Lemma Qeqb_false x y : Qeqb x y = false <-> ~ x == y.
Proof. unfold Qeqb. destruct (Qeq_dec x y); split; easy. Qed.


(** Linear arithmetic does not see through a division: a division by
    a numeral is turned into a product first. *)
Ltac divide_by_numerals :=
  unfold Qdiv in *;
  repeat match goal with
  | |- context [Qinv (Qmake ?n ?d)] =>
      let v := eval vm_compute in (Qinv (Qmake n d)) in
      change (Qinv (Qmake n d)) with v
  | H : context [Qinv (Qmake ?n ?d)] |- _ =>
      let v := eval vm_compute in (Qinv (Qmake n d)) in
      change (Qinv (Qmake n d)) with v in H
  end.

Ltac qlra := divide_by_numerals; lra.

(** ** Array reads inside a band *)

Lemma elem_Some {A : Type} (l : list A) (i : nat) (a : A) :
  nth_error l i = Some a -> elem l i = Normal a.
Proof. unfold elem. now intros ->. Qed.

Lemma band_in_bounds (windData : list WindAtAltitude) (i : nat)
    (lo hi : WindAtAltitude) :
  nth_error windData i = Some lo ->
  nth_error windData (S i) = Some hi ->
  bandOutOfBounds windData (Z.of_nat i) = false
  /\ elem windData (Z.to_nat (Z.of_nat i)) = Normal lo
  /\ elem windData (Z.to_nat (Z.of_nat i + 1)) = Normal hi.
Proof.
  intros Hlo Hhi.
  assert (Hlen : (S i < length windData)%nat).
  { apply nth_error_Some. rewrite Hhi. discriminate. }
  repeat split.
  - unfold bandOutOfBounds. apply orb_false_iff. split.
    + apply Z.ltb_ge. lia.
    + apply Z.leb_gt. lia.
  - rewrite Nat2Z.id. now apply elem_Some.
  - replace (Z.to_nat (Z.of_nat i + 1)) with (S i) by lia. now apply elem_Some.
Qed.

Lemma percentage_in_range (p : Q) :
  0 <= p <= 1 -> Qltb p 0.0 || Qltb 1.0 p = false.
Proof.
  intros [H0 H1]. apply orb_false_iff. split; apply Qltb_false; lra.
Qed.

(** ** Averaged wind direction *)

Lemma seam_rule_agrees (a b : Q) :
  (let averageDirection := a + b in
   if Qltb (Qabs (a - b)) 180.0 then averageDirection / 2.0
   else
     let averageDirection := (averageDirection - 360.0) / 2.0 in
     if Qltb averageDirection 0.0 then averageDirection + 360.0
     else averageDirection)
  == specAverageDirection a b.
Proof.
  unfold specAverageDirection. cbv zeta.
  generalize (Qabs (a - b)). intros d.
  destruct (Qltb d 180.0) eqn:Hd;
    [apply Qltb_true in Hd | apply Qltb_false in Hd];
    destruct (Qlt_le_dec d 180); try qlra.
  destruct (Qltb ((a + b - 360.0) / 2.0) 0.0) eqn:Hm;
    [apply Qltb_true in Hm | apply Qltb_false in Hm];
    destruct (Qlt_le_dec ((a + b - 360) / 2) 0); qlra.
Qed.

(** C1. For a band percentage in [0,1] and a band inside the array,
    getAverageWindDirection returns the average of the floor direction d0
    and the interpolated target d1 by the seam rule: (d0+d1)/2 when
    |d0-d1| < 180, otherwise ((d0+d1)-360)/2 plus 360 when negative.  The
    copy of the rule in the integration loop computes the same value
    from the directions of two consecutive descent entries.  Averaging
    350 and 10 gives 0, averaging 90 and 110 gives 100, in both. *)
Theorem average_direction_seam_rule :
  (forall (bandPercentage : Q) (windData : list WindAtAltitude)
          (floorIndex : nat) (lo hi : WindAtAltitude),
      0 <= bandPercentage <= 1 ->
      nth_error windData floorIndex = Some lo ->
      nth_error windData (S floorIndex) = Some hi ->
      exists mean,
        getAverageWindDirection bandPercentage windData (Z.of_nat floorIndex)
        = Normal mean
        /\ mean ==
           specAverageDirection (windDirection lo)
             (windDirection lo
              + bandPercentage * (windDirection hi - windDirection lo)))
  /\ (forall previous current : DescentData,
        averageStepDirection previous current
        == specAverageDirection (stepWindDirection previous)
             (stepWindDirection current))
  /\ (exists mean,
        getAverageWindDirection 1
          [mkWindAtAltitude 0 0 350; mkWindAtAltitude 1000 0 10] 0
        = Normal mean /\ mean == 0)
  /\ (exists mean,
        getAverageWindDirection 1
          [mkWindAtAltitude 0 0 90; mkWindAtAltitude 1000 0 110] 0
        = Normal mean /\ mean == 100)
  /\ averageStepDirection (mkDescentData 1000 20 0 350) (mkDescentData 0 20 0 10)
     == 0
  /\ averageStepDirection (mkDescentData 1000 20 0 90) (mkDescentData 0 20 0 110)
     == 100.
Proof.
  split; [| split; [| split; [| split; [| split]]]].
  - intros p windData i lo hi Hp Hlo Hhi.
    destruct (band_in_bounds windData i lo hi Hlo Hhi) as (Hb & Elo & Ehi).
    unfold getAverageWindDirection.
    rewrite (percentage_in_range p Hp), Hb, Elo, Ehi. cbn [bind].
    set (a := windDirection lo).
    set (b := a + p * (windDirection hi - a)).
    pose proof (seam_rule_agrees a b) as Hagree. cbv zeta in Hagree |- *.
    destruct (Qltb (Qabs (a - b)) 180.0).
    + eexists; split; [reflexivity | exact Hagree].
    + destruct (Qltb ((a + b - 360.0) / 2.0) 0.0);
        eexists; split; try reflexivity; exact Hagree.
  - intros previous current. unfold averageStepDirection.
    pose proof (seam_rule_agrees (stepWindDirection previous)
                  (stepWindDirection current)) as Hagree.
    cbv zeta in Hagree |- *.
    rewrite <- Hagree.
    destruct (Qltb (Qabs (stepWindDirection previous - stepWindDirection current))
                180.0).
    + qlra.
    + assert (Hsum : (stepWindDirection current + stepWindDirection previous
                      - 360.0) / 2.0
                     == (stepWindDirection previous + stepWindDirection current
                         - 360.0) / 2.0) by qlra.
      destruct (Qltb ((stepWindDirection current + stepWindDirection previous
                       - 360.0) / 2.0) 0.0) eqn:H1;
        destruct (Qltb ((stepWindDirection previous + stepWindDirection current
                         - 360.0) / 2.0) 0.0) eqn:H2;
        try (apply Qltb_true in H1); try (apply Qltb_false in H1);
        try (apply Qltb_true in H2); try (apply Qltb_false in H2);
        qlra.
  - eexists; split; [vm_compute; reflexivity | reflexivity].
  - eexists; split; [vm_compute; reflexivity | reflexivity].
  - vm_compute; reflexivity.
  - vm_compute; reflexivity.
Qed.

Lemma average_direction_seam_rule_witness :
  exists mean,
    getAverageWindDirection (1 # 2)
      [mkWindAtAltitude 0 5 350; mkWindAtAltitude 1000 9 30] (Z.of_nat 0)
    = Normal mean
    /\ mean == specAverageDirection 350 (350 + (1 # 2) * (30 - 350)).
Proof.
  apply (proj1 average_direction_seam_rule (1 # 2)
           [mkWindAtAltitude 0 5 350; mkWindAtAltitude 1000 9 30] 0%nat
           (mkWindAtAltitude 0 5 350) (mkWindAtAltitude 1000 9 30)).
  - split; vm_compute; discriminate.
  - reflexivity.
  - reflexivity.
Defined.

(** ** Averaged wind speed *)

(** C6. For a band percentage p in [0,1] and a band with floor speed s0
    and ceiling speed s1, getAverageWindSpeed returns
    (s0 + (s0 + p*(s1-s0)))/2, the average of the floor speed and the
    speed interpolated at p.  This is the mean (s0+s1)/2 of the two
    endpoints only when p is 1 or the two speeds are equal. *)
Theorem average_speed_half_trapezoid (bandPercentage : Q)
    (windData : list WindAtAltitude) (floorIndex : nat)
    (lo hi : WindAtAltitude) :
  0 <= bandPercentage <= 1 ->
  nth_error windData floorIndex = Some lo ->
  nth_error windData (S floorIndex) = Some hi ->
  exists average,
    getAverageWindSpeed bandPercentage windData (Z.of_nat floorIndex)
    = Normal average
    /\ average ==
       (windSpeed lo
        + (windSpeed lo + bandPercentage * (windSpeed hi - windSpeed lo))) / 2
    /\ (average == (windSpeed lo + windSpeed hi) / 2
        <-> bandPercentage == 1 \/ windSpeed hi == windSpeed lo).
Proof.
  intros Hp Hlo Hhi.
  destruct (band_in_bounds windData floorIndex lo hi Hlo Hhi) as (Hb & Elo & Ehi).
  unfold getAverageWindSpeed.
  rewrite (percentage_in_range bandPercentage Hp), Hb, Elo, Ehi. cbn [bind].
  set (s0 := windSpeed lo). set (s1 := windSpeed hi). set (p := bandPercentage).
  eexists. split; [reflexivity |]. split.
  - cbv zeta. qlra.
  - cbv zeta.
    assert (Hgap : (1 - p) * (s1 - s0)
                   == 2 * ((s0 + s1) / 2 - (s0 + (s0 + p * (s1 - s0))) / 2.0)).
    { change 2.0 with (20 # 10). field. }
    split.
    + intros Hmean. rewrite Hmean in Hgap.
      assert (Hzero : (1 - p) * (s1 - s0) == 0) by (rewrite Hgap; ring).
      apply Qmult_integral in Hzero. destruct Hzero; [left | right]; lra.
    + intros Hcase.
      assert (Hzero : (1 - p) * (s1 - s0) == 0).
      { destruct Hcase as [H | H]; rewrite H; ring. }
      rewrite Hzero in Hgap. qlra.
Qed.

Lemma average_speed_half_trapezoid_witness :
  exists average,
    getAverageWindSpeed (1 # 4)
      [mkWindAtAltitude 0 4 0; mkWindAtAltitude 1000 12 0] (Z.of_nat 0)
    = Normal average
    /\ average == (4 + (4 + (1 # 4) * (12 - 4))) / 2
    /\ (average == (4 + 12) / 2 <-> (1 # 4) == 1 \/ 12 == 4).
Proof.
  apply (average_speed_half_trapezoid (1 # 4)
           [mkWindAtAltitude 0 4 0; mkWindAtAltitude 1000 12 0] 0%nat
           (mkWindAtAltitude 0 4 0) (mkWindAtAltitude 1000 12 0)).
  - split; vm_compute; discriminate.
  - reflexivity.
  - reflexivity.
Defined.

(** ** Band percentage *)

Lemma ratio_in_unit_interval (x y : Q) :
  0 <= x -> x <= y -> 0 < y -> 0 <= x / y <= 1.
Proof.
  intros Hx Hxy Hy. split.
  - apply Qle_shift_div_l; [exact Hy | lra].
  - apply Qle_shift_div_r; [exact Hy | lra].
Qed.

(** C8. For every altitude, sample array and floor index, the band
    percentage query completes normally with a number.  The number is the
    sentinel -1 exactly when the floor index or the index above it is
    outside the array, when the altitude is outside the band, or when
    the band has no height; otherwise the divisor is not zero and the
    number is (altitude - floor) / (ceiling - floor), within [0,1]. *)
Theorem band_percentage_sentinel (rocketAltitude : Q)
    (windData : list WindAtAltitude) (floorIndex : Z) :
  exists percentage,
    getWindBandPercentage rocketAltitude windData floorIndex = Normal percentage
    /\ (percentage == -1 <-> bandFailure rocketAltitude windData floorIndex)
    /\ (~ bandFailure rocketAltitude windData floorIndex ->
        exists lo hi,
          nth_error windData (Z.to_nat floorIndex) = Some lo
          /\ nth_error windData (Z.to_nat (floorIndex + 1)) = Some hi
          /\ ~ altitude hi - altitude lo == 0
          /\ percentage ==
             (rocketAltitude - altitude lo) / (altitude hi - altitude lo)
          /\ 0 <= percentage <= 1).
Proof.
  unfold getWindBandPercentage.
  destruct (bandOutOfBounds windData floorIndex) eqn:Hb.
  { exists (-1). split; [reflexivity |].
    assert (Hfail : bandFailure rocketAltitude windData floorIndex).
    { unfold bandOutOfBounds in Hb. apply orb_true_iff in Hb.
      destruct Hb as [Hb | Hb]; [left; apply Z.ltb_lt | right; left; apply Z.leb_le];
        exact Hb. }
    split; [split; [intros _; exact Hfail | reflexivity] | contradiction]. }
  unfold bandOutOfBounds in Hb. apply orb_false_iff in Hb.
  destruct Hb as [Hneg Hlen]. apply Z.ltb_ge in Hneg. apply Z.leb_gt in Hlen.
  destruct (nth_error windData (Z.to_nat floorIndex)) as [lo |] eqn:Hlo;
    [| apply nth_error_None in Hlo; lia].
  destruct (nth_error windData (Z.to_nat (floorIndex + 1))) as [hi |] eqn:Hhi;
    [| apply nth_error_None in Hhi; lia].
  rewrite (elem_Some _ _ _ Hlo), (elem_Some _ _ _ Hhi). cbn [bind]. cbv zeta.
  assert (Hinside : forall lo' hi',
             Some lo = Some lo' -> Some hi = Some hi' -> lo' = lo /\ hi' = hi).
  { intros lo' hi' H1 H2. now inversion H1; inversion H2. }
  destruct (Qltb rocketAltitude (altitude lo) || Qltb (altitude hi) rocketAltitude)
    eqn:Hout.
  { exists (-1.0). split; [reflexivity |].
    assert (Hfail : bandFailure rocketAltitude windData floorIndex).
    { right; right. exists lo, hi. rewrite Hlo, Hhi. repeat split.
      apply orb_true_iff in Hout.
      destruct Hout as [H | H]; apply Qltb_true in H; auto. }
    split; [split; [intros _; exact Hfail | reflexivity] | contradiction]. }
  apply orb_false_iff in Hout. destruct Hout as [Hge Hle].
  apply Qltb_false in Hge. apply Qltb_false in Hle.
  destruct (Qeqb 0 (Qabs (altitude hi - altitude lo))) eqn:Hzero.
  { exists (-1.0). split; [reflexivity |].
    assert (Hfail : bandFailure rocketAltitude windData floorIndex).
    { right; right. exists lo, hi. rewrite Hlo, Hhi. repeat split.
      right; right. apply Qeqb_true in Hzero.
      rewrite Qabs_pos in Hzero by lra. lra. }
    split; [split; [intros _; exact Hfail | reflexivity] | contradiction]. }
  apply Qeqb_false in Hzero.
  assert (Hheight : 0 < altitude hi - altitude lo).
  { rewrite Qabs_pos in Hzero by lra.
    destruct (Qlt_le_dec 0 (altitude hi - altitude lo)) as [H | H]; [exact H |].
    exfalso. apply Hzero. lra. }
  assert (Hvalue : Qabs (rocketAltitude - altitude lo)
                   / Qabs (altitude hi - altitude lo)
                   == (rocketAltitude - altitude lo)
                      / (altitude hi - altitude lo)).
  { rewrite (Qabs_pos (rocketAltitude - altitude lo)) by lra.
    rewrite (Qabs_pos (altitude hi - altitude lo)) by lra. reflexivity. }
  assert (Hunit : 0 <= (rocketAltitude - altitude lo)
                       / (altitude hi - altitude lo) <= 1).
  { apply ratio_in_unit_interval; lra. }
  eexists. split; [reflexivity |]. split; [split |].
  - intros Hminus. rewrite Hvalue in Hminus. lra.
  - intros [Hf | [Hf | (lo' & hi' & H1 & H2 & Hf)]]; try lia.
    rewrite Hlo in H1. rewrite Hhi in H2.
    destruct (Hinside lo' hi' H1 H2) as [-> ->].
    destruct Hf as [Hf | [Hf | Hf]]; lra.
  - intros _. exists lo, hi.
    split; [reflexivity |]. split; [reflexivity |]. split; [lra |].
    split; [exact Hvalue |]. rewrite Hvalue. exact Hunit.
Qed.

(** ** The landing location of a result *)

Lemma last_or_empty {A : Type} (l : list A) :
  l = [] \/ exists front a, l = front ++ [a].
Proof.
  destruct l as [| x l]; [now left | right].
  destruct (exists_last (l := x :: l)) as (front & a & E); [discriminate |].
  now exists front, a.
Qed.

Lemma landing_of_last (s : LaunchSimulationData) (front : list LaunchPathPoint)
    (point : LaunchPathPoint) :
  launchPath s = front ++ [point] ->
  getLandingLocation s = Normal (Some (location point)).
Proof.
  intros E. unfold getLandingLocation. rewrite E, length_app. cbn [length].
  replace (Nat.eqb 0 (length front + 1)) with false
    by (symmetry; apply Nat.eqb_neq; lia).
  replace (length front + 1 - 1)%nat with (length front) by lia.
  unfold elem. rewrite nth_error_app2, Nat.sub_diag by lia. reflexivity.
Qed.

(** C10. getLandingLocation never throws: it returns null exactly when
    the launch path is empty, and otherwise the location of the last
    point of the path. *)
Theorem landing_location_total (s : LaunchSimulationData) :
  exists landing,
    getLandingLocation s = Normal landing
    /\ (landing = None <-> launchPath s = [])
    /\ (forall front point,
          launchPath s = front ++ [point] -> landing = Some (location point)).
Proof.
  destruct (last_or_empty (launchPath s)) as [E | (front & point & E)].
  - exists None. unfold getLandingLocation. rewrite E. cbn.
    split; [reflexivity |]. split; [tauto |].
    intros front point H. now destruct front.
  - exists (Some (location point)).
    split; [exact (landing_of_last s front point E) |]. split.
    + split; [discriminate | intros H; rewrite H in E; now destruct front].
    + intros front' point' H. rewrite H in E. apply app_inj_tail in E.
      now destruct E as [_ ->].
Qed.

(** ** Weathercock adjustment above the table *)

Lemma search_finds_nothing {G : GeoModule} (apogeeLocation : GeoLocation)
    (windDirection windSpeed : Q) (rest : list WeathercockWindData) :
  forall previous,
    (forall entry, In entry rest -> wcWindSpeed entry < windSpeed) ->
    weathercockSearch apogeeLocation windDirection windSpeed previous rest
    = (apogeeLocation, -1).
Proof.
  induction rest as [| current rest IH]; intros previous Hall; cbn.
  - reflexivity.
  - replace (Qleb windSpeed (wcWindSpeed current)) with false.
    + apply IH. intros entry Hin. apply Hall. now right.
    + symmetry. apply Qleb_false. apply Hall. now left.
Qed.

Lemma last_any_default {A : Type} (l : list A) (d1 d2 : A) :
  l <> [] -> last l d1 = last l d2.
Proof.
  induction l as [| x l IH]; intros Hne; [contradiction |].
  destruct l as [| y l]; [reflexivity |].
  change (last (y :: l) d1 = last (y :: l) d2). apply IH. discriminate.
Qed.

Lemma last_entry_cons (first a : WeathercockWindData)
    (rest : list WeathercockWindData) :
  lastEntry first (a :: rest) = lastEntry a rest.
Proof.
  unfold lastEntry. destruct rest as [| b rest]; [reflexivity |].
  change (last (b :: rest) first = last (b :: rest) a).
  apply last_any_default. discriminate.
Qed.

Lemma sorted_below_last (first : WeathercockWindData)
    (rest : list WeathercockWindData) :
  ascendingBySpeed (first :: rest) ->
  forall entry,
    In entry (first :: rest) ->
    wcWindSpeed entry <= wcWindSpeed (lastEntry first rest).
Proof.
  unfold ascendingBySpeed. revert first.
  induction rest as [| a rest IH]; intros first Hs entry Hin.
  - destruct Hin as [<- | []]. cbn. lra.
  - apply StronglySorted_inv in Hs. destruct Hs as [Hrest Hfirst].
    rewrite last_entry_cons.
    destruct Hin as [<- | Hin].
    + rewrite Forall_forall in Hfirst.
      apply Qle_trans with (wcWindSpeed a).
      * apply Hfirst. now left.
      * apply IH; [exact Hrest | now left].
    + now apply IH.
Qed.

(** main.js: above a sorted table the search loop finds no entry, so the
    adjustment returns -1 and does not move the apogee location; the hour
    then starts from the user supplied apogee above the launch site. *)
Lemma main_adjustment_above_table {G : GeoModule}
    (apogeeLocation : GeoLocation) (windDirection windSpeed : Q)
    (first : WeathercockWindData) (rest : list WeathercockWindData) :
  ascendingBySpeed (first :: rest) ->
  wcWindSpeed (lastEntry first rest) < windSpeed ->
  weathercockAdjustment apogeeLocation windDirection windSpeed (first :: rest)
  = (apogeeLocation, -1).
Proof.
  intros Hs Habove. cbn. apply search_finds_nothing.
  intros entry Hin.
  apply Qle_lt_trans with (wcWindSpeed (lastEntry first rest)); [| exact Habove].
  apply sorted_below_last; [exact Hs | now right].
Qed.

(** rocket.js: above a sorted table the adjustment uses the last entry:
    its apogee, and its upwind distance along the ground wind
    direction. *)
Lemma rocket_adjustment_above_table {G : GeoModule} (thisApogee : Q)
    (first : WeathercockWindData) (rest : list WeathercockWindData)
    (rocketLocation : GeoLocation) (windData : WindForecastData) :
  ascendingBySpeed (first :: rest) ->
  wcWindSpeed (lastEntry first rest) < 1.15078 * groundWindSpeed windData ->
  RocketWeathercocking.weathercockAdjustment thisApogee (first :: rest)
    rocketLocation windData
  = mkLaunchPathPoint (apogee (lastEntry first rest))
      (moveAlongBearing rocketLocation
         (feetToMeters (upwindDistance (lastEntry first rest)))
         (groundWindDirection windData)).
Proof.
  intros Hs Habove. unfold RocketWeathercocking.weathercockAdjustment.
  assert (Hfirst : wcWindSpeed first <= wcWindSpeed (lastEntry first rest)).
  { apply sorted_below_last; [exact Hs | now left]. }
  replace (Qleb (1.15078 * groundWindSpeed windData) (wcWindSpeed first))
    with false by (symmetry; apply Qleb_false; lra).
  replace (Qltb (wcWindSpeed (lastEntry first rest))
             (1.15078 * groundWindSpeed windData))
    with true by (symmetry; apply Qltb_true; lra).
  reflexivity.
Qed.

(** C3. With the table for 0, 5 and 10 MPH and a ground wind of 15 MPH,
    above the highest entry: weathercockAdjustment of main.js returns -1
    and leaves the apogee location where it was, and the hour starts at
    the user supplied apogee of 1000 ft above the launch site, not at the
    940 ft and 90 ft upwind of the highest entry.  The adjustment of
    rocket.js, on the same table and wind, returns the highest entry's
    apogee at the location moved by its upwind distance; the revised
    main.js moves the location likewise but returns the first entry's
    apogee.  This holds whatever geo.js computes; on the flat grid the
    moved location is not the launch site. *)
Theorem weathercock_above_table_at_sample (G : GeoModule) :
  weathercockAdjustment sampleSite 270 15 sampleTable = (sampleSite, -1)
  /\ adjustedApogee
       (mkLaunchInputs 1000 true sampleTable 20 false (-1) 20 NaN)
       sampleSite windyForecast
     = (sampleSite, 1000)
  /\ RocketWeathercocking.weathercockAdjustment 1000 sampleTable
       sampleSite windyForecast
     = mkLaunchPathPoint 940
         (moveAlongBearing sampleSite (feetToMeters 90) 270)
  /\ Revised.weathercockAdjustment sampleSite 270 15 sampleTable
     = (moveAlongBearing sampleSite (feetToMeters 90) 270, 1000)
  /\ ~ geoEq (@moveAlongBearing gridGeo sampleSite (@feetToMeters gridGeo 90) 270)
         sampleSite.
Proof.
  split; [reflexivity |]. split; [reflexivity |]. split; [reflexivity |].
  split; [reflexivity |].
  intros [_ Hlon]. vm_compute in Hlon. discriminate.
Qed.

(** ** The band queries never throw *)

Lemma in_bounds_reads (windData : list WindAtAltitude) (floorIndex : Z) :
  bandOutOfBounds windData floorIndex = false ->
  exists lo hi,
    elem windData (Z.to_nat floorIndex) = Normal lo
    /\ elem windData (Z.to_nat (floorIndex + 1)) = Normal hi.
Proof.
  unfold bandOutOfBounds. intros Hb. apply orb_false_iff in Hb.
  destruct Hb as [Hneg Hlen]. apply Z.ltb_ge in Hneg. apply Z.leb_gt in Hlen.
  destruct (nth_error windData (Z.to_nat floorIndex)) as [lo |] eqn:Hlo;
    [| apply nth_error_None in Hlo; lia].
  destruct (nth_error windData (Z.to_nat (floorIndex + 1))) as [hi |] eqn:Hhi;
    [| apply nth_error_None in Hhi; lia].
  exists lo, hi. split; now apply elem_Some.
Qed.

Lemma band_percentage_normal (rocketAltitude : Q)
    (windData : list WindAtAltitude) (floorIndex : Z) :
  exists percentage,
    getWindBandPercentage rocketAltitude windData floorIndex = Normal percentage.
Proof.
  unfold getWindBandPercentage.
  destruct (bandOutOfBounds windData floorIndex) eqn:Hb; [eauto |].
  destruct (in_bounds_reads _ _ Hb) as (lo & hi & -> & ->). cbn [bind]. cbv zeta.
  destruct (_ || _); [eauto |]. destruct (Qeqb _ _); eauto.
Qed.

Lemma average_speed_normal (bandPercentage : Q)
    (windData : list WindAtAltitude) (floorIndex : Z) :
  exists speed,
    getAverageWindSpeed bandPercentage windData floorIndex = Normal speed.
Proof.
  unfold getAverageWindSpeed.
  destruct (_ || _); [eauto |].
  destruct (bandOutOfBounds windData floorIndex) eqn:Hb; [eauto |].
  destruct (in_bounds_reads _ _ Hb) as (lo & hi & -> & ->). cbn [bind]. eauto.
Qed.

Lemma average_direction_normal (bandPercentage : Q)
    (windData : list WindAtAltitude) (floorIndex : Z) :
  exists direction,
    getAverageWindDirection bandPercentage windData floorIndex
    = Normal direction.
Proof.
  unfold getAverageWindDirection.
  destruct (_ || _); [eauto |].
  destruct (bandOutOfBounds windData floorIndex) eqn:Hb; [eauto |].
  destruct (in_bounds_reads _ _ Hb) as (lo & hi & -> & ->). cbn [bind]. cbv zeta.
  destruct (Qltb _ _); [eauto |]. destruct (Qltb _ _); eauto.
Qed.

(** Inside a band of positive height the percentage lies in [0,1] and
    the averaged speed is the half-trapezoid value. *)
Lemma interpolation_inside (windData : list WindAtAltitude) (i : nat)
    (lo hi : WindAtAltitude) (a : Q) :
  nth_error windData i = Some lo ->
  nth_error windData (S i) = Some hi ->
  altitude lo <= a <= altitude hi ->
  altitude lo < altitude hi ->
  exists fraction speed direction,
    getWindBandPercentage a windData (Z.of_nat i) = Normal fraction
    /\ 0 <= fraction <= 1
    /\ getAverageWindSpeed fraction windData (Z.of_nat i) = Normal speed
    /\ speed ==
       (windSpeed lo + (windSpeed lo + fraction * (windSpeed hi - windSpeed lo)))
       / 2
    /\ getAverageWindDirection fraction windData (Z.of_nat i) = Normal direction.
Proof.
  intros Hlo Hhi [Hge Hle] Hheight.
  destruct (band_in_bounds windData i lo hi Hlo Hhi) as (Hb & Elo & Ehi).
  exists (Qabs (a - altitude lo) / Qabs (altitude hi - altitude lo)).
  assert (Hunit : 0 <= Qabs (a - altitude lo) / Qabs (altitude hi - altitude lo)
                  <= 1).
  { rewrite (Qabs_pos (a - altitude lo)) by lra.
    rewrite (Qabs_pos (altitude hi - altitude lo)) by lra.
    apply ratio_in_unit_interval; lra. }
  destruct (average_direction_normal
              (Qabs (a - altitude lo) / Qabs (altitude hi - altitude lo))
              windData (Z.of_nat i)) as (direction & Hdir).
  eexists. exists direction. split; [| split; [exact Hunit | split; [| split]]].
  - unfold getWindBandPercentage. rewrite Hb, Elo, Ehi. cbn [bind]. cbv zeta.
    replace (Qltb a (altitude lo) || Qltb (altitude hi) a) with false.
    + replace (Qeqb 0 (Qabs (altitude hi - altitude lo))) with false;
        [reflexivity |].
      symmetry. apply Qeqb_false. rewrite Qabs_pos by lra. lra.
    + symmetry. apply orb_false_iff. split; apply Qltb_false; lra.
  - unfold getAverageWindSpeed.
    rewrite (percentage_in_range _ Hunit), Hb, Elo, Ehi. cbn [bind]. reflexivity.
  - cbv zeta. qlra.
  - exact Hdir.
Qed.

(** ** One band of positive height *)

Section BandLemmas.

Variable windData : list WindAtAltitude.
Variable mainDeployAltitude : Q.
Variable mainDescentRate : Q.

Lemma bandStep_outcome (i : nat) (lo hi : WindAtAltitude)
    (rate rocketAltitude : Q) :
  nth_error windData i = Some lo ->
  nth_error windData (S i) = Some hi ->
  altitude lo < altitude hi ->
  exists pushed rate',
    bandStep windData mainDeployAltitude (Fin mainDescentRate) i (Fin rate)
      rocketAltitude
    = Normal (pushed, Fin rate', rocketAltitude)
    /\ BandOutcome mainDeployAltitude mainDescentRate lo hi rate pushed rate'.
Proof.
  intros Hlo Hhi Hheight. unfold bandStep.
  replace (i + 1)%nat with (S i) by lia.
  rewrite (elem_Some _ _ _ Hhi), (elem_Some _ _ _ Hlo). cbn [bind]. cbv zeta.
  replace (Qleb (altitude hi - altitude lo) 0) with false
    by (symmetry; apply Qleb_false; lra).
  destruct (Qeqb (altitude lo) mainDeployAltitude) eqn:Heq.
  { apply Qeqb_true in Heq. cbn.
    eexists. eexists. split; [reflexivity | now apply DeployAtSample]. }
  apply Qeqb_false in Heq.
  destruct (Qltb (altitude lo) mainDeployAltitude
            && Qltb mainDeployAltitude (altitude hi)) eqn:Hin.
  - apply andb_true_iff in Hin. destruct Hin as [H1 H2].
    apply Qltb_true in H1. apply Qltb_true in H2.
    destruct (interpolation_inside windData i lo hi mainDeployAltitude Hlo Hhi)
      as (fraction & speed & direction & Hp & Hunit & Hs & Hspeed & Hd);
      [lra | lra |].
    rewrite Hp. cbn [bind]. rewrite Hs. cbn [bind]. rewrite Hd.
    cbn. eexists. eexists. split; [reflexivity |].
    now apply DeployInsideBand with (fraction := fraction).
  - cbn. eexists. eexists. split; [reflexivity |].
    apply NoDeployment; [exact Heq |].
    intros [H1 H2]. apply Qltb_true in H1. apply Qltb_true in H2.
    rewrite H1, H2 in Hin. discriminate.
Qed.

End BandLemmas.

(** ** Profiles sorted by altitude *)

Lemma ascending_nth (samples : list WindAtAltitude) :
  ascendingByAltitude samples ->
  forall i j a b,
    (i < j)%nat ->
    nth_error samples i = Some a ->
    nth_error samples j = Some b ->
    altitude a < altitude b.
Proof.
  unfold ascendingByAltitude.
  induction 1 as [| x l Hsorted IH Hall]; intros i j a b Hij Ha Hb.
  - destruct i; discriminate.
  - destruct j as [| j]; [lia |]. cbn in Hb.
    destruct i as [| i]; cbn in Ha.
    + injection Ha as <-. rewrite Forall_forall in Hall.
      apply Hall. eapply nth_error_In; eauto.
    + apply (IH i j a b); [lia | exact Ha | exact Hb].
Qed.

Lemma descending_app (l1 l2 : list DescentData) :
  StronglySorted (fun a b => stepAltitude b < stepAltitude a) l1 ->
  StronglySorted (fun a b => stepAltitude b < stepAltitude a) l2 ->
  (forall a b, In a l1 -> In b l2 -> stepAltitude b < stepAltitude a) ->
  StronglySorted (fun a b => stepAltitude b < stepAltitude a) (l1 ++ l2).
Proof.
  intros H1 H2 Hcross. induction H1 as [| x l Hs IH Hall]; [exact H2 |].
  cbn. constructor.
  - apply IH. intros a b Ha Hb. apply Hcross; [now right | exact Hb].
  - apply Forall_app. split; [exact Hall |].
    apply Forall_forall. intros b Hb. apply Hcross; [now left | exact Hb].
Qed.

(** Two samples at known positions of a sorted profile. *)
Ltac by_ascending H :=
  match goal with
  | Hlo : nth_error ?l ?i = Some ?a, Hhi : nth_error ?l ?j = Some ?b
    |- altitude ?a < altitude ?b =>
      apply (ascending_nth l H i j a b); [lia | exact Hlo | exact Hhi]
  end.

Section WalkLemmas.

Variable windData : list WindAtAltitude.
Variable mainDeployAltitude : Q.
Variable mainDescentRate : Q.
Hypothesis windData_ascending : ascendingByAltitude windData.

Let D := mainDeployAltitude.
Let m := mainDescentRate.

Lemma walkBands_walk (i : nat) :
  forall rate rocketAltitude,
    (S i < length windData)%nat ->
    exists steps,
      walkBands windData D (Fin m) i (Fin rate) rocketAltitude
      = Normal (steps, rocketAltitude)
      /\ Walk D m windData i rate steps.
Proof.
  induction i as [| i IH]; intros rate rocketAltitude Hlen.
  - destruct (nth_error windData 0) as [lo |] eqn:Hlo;
      [| apply nth_error_None in Hlo; lia].
    destruct (nth_error windData 1) as [hi |] eqn:Hhi;
      [| apply nth_error_None in Hhi; lia].
    destruct (bandStep_outcome windData D m 0 lo hi rate rocketAltitude Hlo Hhi)
      as (pushed & rate' & Hstep & Hout).
    { by_ascending windData_ascending. }
    exists pushed. split.
    + cbn [walkBands]. rewrite Hstep. reflexivity.
    + eapply WalkGround; eauto.
  - destruct (nth_error windData (S i)) as [lo |] eqn:Hlo;
      [| apply nth_error_None in Hlo; lia].
    destruct (nth_error windData (S (S i))) as [hi |] eqn:Hhi;
      [| apply nth_error_None in Hhi; lia].
    destruct (bandStep_outcome windData D m (S i) lo hi rate rocketAltitude
                Hlo Hhi) as (pushed & rate' & Hstep & Hout).
    { by_ascending windData_ascending. }
    destruct (IH rate' rocketAltitude) as (rest & Hrest & Hwalk); [lia |].
    exists (pushed ++ rest). split.
    + cbn [walkBands]. rewrite Hstep. cbn [bind]. rewrite Hrest. reflexivity.
    + eapply WalkBand; eauto.
Qed.

(** The altitudes pushed by one band lie between its floor and, strictly,
    its ceiling, in strictly descending order. *)
Lemma outcome_altitudes (lo hi : WindAtAltitude) (rate : Q)
    (pushed : list DescentData) (rate' : Q) :
  altitude lo < altitude hi ->
  BandOutcome D m lo hi rate pushed rate' ->
  Forall (fun s => altitude lo <= stepAltitude s < altitude hi) pushed
  /\ Forall (fun s => stepAltitude s = altitude lo \/ stepAltitude s = D) pushed
  /\ StronglySorted (fun a b => stepAltitude b < stepAltitude a) pushed
  /\ exists front s, pushed = front ++ [s] /\ stepAltitude s == altitude lo.
Proof.
  intros Hheight Hout.
  destruct Hout as [Heq | f sp dir H1 H2 Hf Hsp | Hne Hout];
    (split; [| split; [| split]]);
    try (repeat (apply Forall_cons; [cbn; fold D; lra |]); apply Forall_nil);
    try (repeat (apply Forall_cons; [cbn; auto |]); apply Forall_nil);
    try (repeat (apply SSorted_cons;
                 [| repeat (apply Forall_cons; [cbn; fold D; lra |]);
                    apply Forall_nil]);
         apply SSorted_nil).
  - exists [], (mkDescentData mainDeployAltitude mainDescentRate
                  (windSpeed lo) (windDirection lo)).
    split; [reflexivity | cbn; fold D; lra].
  - exists [mkDescentData mainDeployAltitude mainDescentRate sp dir],
           (mkDescentData (altitude lo) mainDescentRate
              (windSpeed lo) (windDirection lo)).
    split; [reflexivity | cbn; lra].
  - exists [], (mkDescentData (altitude lo) rate
                  (windSpeed lo) (windDirection lo)).
    split; [reflexivity | cbn; lra].
Qed.

Lemma walk_below_ceiling (i : nat) :
  forall rate steps hi,
    Walk D m windData i rate steps ->
    nth_error windData (S i) = Some hi ->
    Forall (fun s => stepAltitude s < altitude hi) steps.
Proof.
  induction i as [| i IH]; intros rate steps top Hwalk Htop;
    inversion Hwalk as [lo hi r pushed r' Hlo Hhi Hout
                       | below lo hi r pushed r' rest Hlo Hhi Hout Hrest]; subst.
  - rewrite Htop in Hhi. injection Hhi as <-.
    assert (Hheight : altitude lo < altitude top)
      by (by_ascending windData_ascending).
    destruct (outcome_altitudes lo top rate steps r' Hheight Hout) as (Hb & _).
    eapply Forall_impl; [| exact Hb]. cbn. intros s Hs. lra.
  - rewrite Htop in Hhi. injection Hhi as <-.
    assert (Hheight : altitude lo < altitude top)
      by (by_ascending windData_ascending).
    destruct (outcome_altitudes lo top rate pushed r' Hheight Hout) as (Hb & _).
    apply Forall_app. split.
    + eapply Forall_impl; [| exact Hb]. cbn. intros s Hs. lra.
    + eapply Forall_impl; [| exact (IH _ _ _ Hrest Hlo)].
      cbn. intros s Hs. lra.
Qed.

Lemma walk_capped (i : nat) (rate : Q) (steps : list DescentData)
    (lo : WindAtAltitude) :
  Walk D m windData i rate steps ->
  nth_error windData i = Some lo ->
  Forall (fun s => stepAltitude s <= altitude lo \/ stepAltitude s = D) steps.
Proof.
  intros Hwalk Hfloor.
  inversion Hwalk as [lo' hi r pushed r' Hlo Hhi Hout
                     | below lo' hi r pushed r' rest Hlo Hhi Hout Hrest]; subst.
  - rewrite Hfloor in Hlo. injection Hlo as <-.
    assert (Hheight : altitude lo < altitude hi)
      by (by_ascending windData_ascending).
    destruct (outcome_altitudes lo hi rate steps r' Hheight Hout)
      as (_ & Hb & _).
    eapply Forall_impl; [| exact Hb]. cbn. intros s [-> | ->]; [left; lra | now right].
  - rewrite Hfloor in Hlo. injection Hlo as <-.
    assert (Hheight : altitude lo < altitude hi)
      by (by_ascending windData_ascending).
    destruct (outcome_altitudes lo hi rate pushed r' Hheight Hout)
      as (_ & Hb & _).
    apply Forall_app. split.
    + eapply Forall_impl; [| exact Hb]. cbn.
      intros s [-> | ->]; [left; lra | now right].
    + eapply Forall_impl; [| exact (walk_below_ceiling _ _ _ _ Hrest Hfloor)].
      cbn. intros s Hs. left. lra.
Qed.

Lemma walk_descending (i : nat) :
  forall rate steps,
    Walk D m windData i rate steps ->
    StronglySorted (fun a b => stepAltitude b < stepAltitude a) steps.
Proof.
  induction i as [| i IH]; intros rate steps Hwalk;
    inversion Hwalk as [lo hi r pushed r' Hlo Hhi Hout
                       | below lo hi r pushed r' rest Hlo Hhi Hout Hrest]; subst.
  - assert (Hheight : altitude lo < altitude hi)
      by (by_ascending windData_ascending).
    apply (outcome_altitudes lo hi rate steps r' Hheight Hout).
  - assert (Hheight : altitude lo < altitude hi)
      by (by_ascending windData_ascending).
    destruct (outcome_altitudes lo hi rate pushed r' Hheight Hout)
      as (Hb & _ & Hsorted & _).
    apply descending_app; [exact Hsorted | exact (IH _ _ Hrest) |].
    intros a b Ha Hb'.
    pose proof (walk_below_ceiling _ _ _ _ Hrest Hlo) as Hlow.
    rewrite Forall_forall in Hb, Hlow.
    specialize (Hb a Ha). specialize (Hlow b Hb'). cbn in Hb, Hlow. lra.
Qed.

Lemma walk_ends_at_ground (i : nat) :
  forall rate steps ground,
    Walk D m windData i rate steps ->
    nth_error windData 0 = Some ground ->
    exists front s, steps = front ++ [s] /\ stepAltitude s == altitude ground.
Proof.
  induction i as [| i IH]; intros rate steps ground Hwalk Hground;
    inversion Hwalk as [lo hi r pushed r' Hlo Hhi Hout
                       | below lo hi r pushed r' rest Hlo Hhi Hout Hrest]; subst.
  - rewrite Hground in Hlo. injection Hlo as <-.
    assert (Hheight : altitude ground < altitude hi)
      by (by_ascending windData_ascending).
    apply (outcome_altitudes ground hi rate steps r' Hheight Hout).
  - destruct (IH _ _ _ Hrest Hground) as (front & s & -> & Hs).
    exists (pushed ++ front), s. split; [now rewrite app_assoc | exact Hs].
Qed.

Lemma walk_keeps_main_rate (i : nat) :
  forall steps,
    Walk D m windData i m steps ->
    Forall (fun s => descentRate s = m) steps.
Proof.
  assert (Hband : forall lo hi pushed rate',
             BandOutcome D m lo hi m pushed rate' ->
             rate' = m /\ Forall (fun s => descentRate s = m) pushed).
  { intros lo hi pushed rate' Hout.
    destruct Hout; split; try reflexivity; repeat constructor. }
  induction i as [| i IH]; intros steps Hwalk;
    inversion Hwalk as [lo hi r pushed r' Hlo Hhi Hout
                       | below lo hi r pushed r' rest Hlo Hhi Hout Hrest]; subst.
  - apply (Hband _ _ _ _ Hout).
  - destruct (Hband _ _ _ _ Hout) as [-> Hp].
    apply Forall_app. split; [exact Hp | now apply IH].
Qed.

Lemma walk_still_air (i : nat) :
  (forall w, In w windData -> windSpeed w == 0) ->
  forall rate steps,
    Walk D m windData i rate steps ->
    Forall (fun s => stepWindSpeed s == 0) steps.
Proof.
  intros Hstill.
  assert (Hband : forall j k lo hi rate pushed rate',
             nth_error windData j = Some lo ->
             nth_error windData k = Some hi ->
             BandOutcome D m lo hi rate pushed rate' ->
             Forall (fun s => stepWindSpeed s == 0) pushed).
  { intros j k lo hi rate pushed rate' Hlo Hhi Hout.
    pose proof (Hstill lo (nth_error_In _ _ Hlo)) as H0.
    pose proof (Hstill hi (nth_error_In _ _ Hhi)) as H1.
    destruct Hout as [Heq | f sp dir Ha Hb Hf Hsp | Hne Hout];
      repeat constructor; cbn; try exact H0.
    rewrite Hsp, H0, H1. divide_by_numerals. ring. }
  induction i as [| i IH]; intros rate steps Hwalk;
    inversion Hwalk as [lo hi r pushed r' Hlo Hhi Hout
                       | below lo hi r pushed r' rest Hlo Hhi Hout Hrest]; subst.
  - exact (Hband _ _ _ _ _ _ _ Hlo Hhi Hout).
  - apply Forall_app.
    split; [exact (Hband _ _ _ _ _ _ _ Hlo Hhi Hout) | exact (IH _ _ Hrest)].
Qed.

(** The deployment on a sample: one entry at the deployment altitude,
    with the main rate and the sample's own wind; the entries before it
    are above it, the entries after it below it and at the main rate. *)
Lemma walk_deploys_at_sample (k : nat) (sample : WindAtAltitude) :
  nth_error windData k = Some sample ->
  altitude sample == D ->
  forall i rate steps,
    (k <= i)%nat ->
    Walk D m windData i rate steps ->
    exists before after,
      steps
      = before
        ++ mkDescentData D m (windSpeed sample) (windDirection sample) :: after
      /\ Forall (fun s => D < stepAltitude s) before
      /\ Forall (fun s => stepAltitude s < D /\ descentRate s = m) after.
Proof.
  intros Hk Hat.
  assert (Hhere : forall hi rate pushed rate',
             nth_error windData (S k) = Some hi ->
             BandOutcome D m sample hi rate pushed rate' ->
             pushed = [mkDescentData D m (windSpeed sample) (windDirection sample)]
             /\ rate' = m).
  { intros hi rate pushed rate' Hhi Hout.
    destruct Hout as [Heq | f sp dir Ha Hb Hf Hsp | Hne Hout].
    - split; reflexivity.
    - fold D in Ha. lra.
    - contradiction. }
  induction i as [| i IH]; intros rate steps Hki Hwalk;
    inversion Hwalk as [lo hi r pushed r' Hlo Hhi Hout
                       | below lo hi r pushed r' rest Hlo Hhi Hout Hrest]; subst.
  - assert (k = 0)%nat by lia. subst k.
    rewrite Hk in Hlo. injection Hlo as <-.
    destruct (Hhere _ _ _ _ Hhi Hout) as [-> _].
    exists [], []. repeat split; constructor.
  - destruct (Nat.eq_dec k (S i)) as [-> | Hneq].
    + rewrite Hk in Hlo. injection Hlo as <-.
      destruct (Hhere _ _ _ _ Hhi Hout) as [-> ->].
      exists [], rest. split; [reflexivity |]. split; [constructor |].
      pose proof (walk_below_ceiling _ _ _ _ Hrest Hk) as Hlow.
      pose proof (walk_keeps_main_rate _ _ Hrest) as Hrate.
      rewrite Forall_forall in Hlow, Hrate |- *.
      intros s Hs. specialize (Hlow s Hs). specialize (Hrate s Hs).
      cbn in Hlow. split; [lra | exact Hrate].
    + destruct (IH r' rest) as (before & after & -> & Hbefore & Hafter);
        [lia | exact Hrest |].
      assert (Habove : D < altitude lo).
      { rewrite <- Hat.
        apply (ascending_nth _ windData_ascending k (S i) sample lo);
          [lia | exact Hk | exact Hlo]. }
      assert (Hheight : altitude lo < altitude hi)
        by (by_ascending windData_ascending).
      destruct (outcome_altitudes lo hi rate pushed r' Hheight Hout) as (Hb & _).
      exists (pushed ++ before), after.
      split; [now rewrite <- app_assoc |]. split; [| exact Hafter].
      apply Forall_app. split; [| exact Hbefore].
      eapply Forall_impl; [| exact Hb]. cbn. intros s Hs. lra.
Qed.

End WalkLemmas.

(** ** Locating the apogee *)

Lemma scan_spec (rocketAltitude : Q) (rest : list WindAtAltitude) :
  forall start,
    (start <= scanWindIndex rocketAltitude rest start <= start + length rest)%nat
    /\ (forall j w,
          (j < scanWindIndex rocketAltitude rest start - start)%nat ->
          nth_error rest j = Some w -> altitude w < rocketAltitude)
    /\ ((scanWindIndex rocketAltitude rest start < start + length rest)%nat ->
        exists w,
          nth_error rest (scanWindIndex rocketAltitude rest start - start)
          = Some w
          /\ rocketAltitude <= altitude w).
Proof.
  induction rest as [| sample rest IH]; intros start; cbn [scanWindIndex length].
  - split; [lia |]. split; [intros j w Hj; lia | intros Hlt; lia].
  - destruct (Qleb rocketAltitude (altitude sample)) eqn:Hreach.
    + apply Qleb_true in Hreach.
      split; [lia |]. split; [intros j w Hj; lia |].
      intros _. exists sample. rewrite Nat.sub_diag. now split.
    + apply Qleb_false in Hreach.
      destruct (IH (S start)) as (Hrange & Hbelow & Hfound).
      split; [lia |]. split.
      * intros j w Hj Hw. destruct j as [| j]; cbn in Hw.
        -- now injection Hw as <-.
        -- apply (Hbelow j w); [lia | exact Hw].
      * intros Hlt. destruct Hfound as (w & Hw & Hreached); [lia |].
        exists w. split; [| exact Hreached].
        replace (scanWindIndex rocketAltitude rest (S start) - start)%nat
          with (S (scanWindIndex rocketAltitude rest (S start) - S start))
          by lia.
        exact Hw.
Qed.

Lemma find_spec (windData : list WindAtAltitude) (rocketAltitude : Q) :
  windData <> [] ->
  (1 <= findWindIndex windData rocketAltitude <= length windData)%nat
  /\ (forall j w,
        (1 <= j < findWindIndex windData rocketAltitude)%nat ->
        nth_error windData j = Some w -> altitude w < rocketAltitude)
  /\ ((findWindIndex windData rocketAltitude < length windData)%nat ->
      exists w,
        nth_error windData (findWindIndex windData rocketAltitude) = Some w
        /\ rocketAltitude <= altitude w).
Proof.
  destruct windData as [| ground rest]; [contradiction |]. intros _.
  unfold findWindIndex. cbn [tl length].
  destruct (scan_spec rocketAltitude rest 1) as (Hrange & Hbelow & Hfound).
  split; [lia |]. split.
  - intros j w Hj Hw. destruct j as [| j]; [lia |]. cbn in Hw.
    apply (Hbelow j w); [lia | exact Hw].
  - intros Hlt. destruct Hfound as (w & Hw & Hreached); [lia |].
    exists w. split; [| exact Hreached].
    destruct (scanWindIndex rocketAltitude rest 1) as [| n] eqn:E; [lia |].
    cbn. replace (S n - 1)%nat with n in Hw by lia. exact Hw.
Qed.

(** An apogee above every sample: the search runs off the array. *)
Lemma find_above_all (windData : list WindAtAltitude) (rocketAltitude : Q) :
  windData <> [] ->
  (forall w, In w windData -> altitude w < rocketAltitude) ->
  findWindIndex windData rocketAltitude = length windData.
Proof.
  intros Hne Hall.
  destruct (find_spec windData rocketAltitude Hne) as (Hrange & _ & Hfound).
  destruct (Nat.eq_dec (findWindIndex windData rocketAltitude) (length windData))
    as [E | Hneq]; [exact E |].
  destruct Hfound as (w & Hw & Hreached); [lia |].
  pose proof (Hall w (nth_error_In _ _ Hw)). lra.
Qed.

(** ** The first entry of the descent list *)

Lemma apogeeStep_normal (windData : list WindAtAltitude)
    (rocketAltitude : Q) (windIndex : nat) (rate : Q) :
  exists first,
    apogeeStep windData rocketAltitude windIndex (Fin rate) = Normal first
    /\ stepAltitude first = rocketAltitude
    /\ descentRate first = rate.
Proof.
  unfold apogeeStep.
  destruct (band_percentage_normal rocketAltitude windData (Z.of_nat windIndex))
    as (p & ->). cbn [bind].
  destruct (average_speed_normal p windData (Z.of_nat windIndex)) as (s & ->).
  cbn [bind].
  destruct (average_direction_normal p windData (Z.of_nat windIndex))
    as (d & ->).
  cbn. eexists. repeat split.
Qed.

(** A sample at or above the apogee, other than the lowest one, stops
    the search inside the array. *)
Lemma find_inside (windData : list WindAtAltitude) (rocketAltitude : Q)
    (j : nat) (top : WindAtAltitude) :
  (1 <= j)%nat ->
  nth_error windData j = Some top ->
  rocketAltitude <= altitude top ->
  (findWindIndex windData rocketAltitude < length windData)%nat.
Proof.
  intros Hj Htop Hreach.
  assert (Hne : windData <> []).
  { intros E. rewrite E in Htop. destruct j; discriminate. }
  destruct (find_spec windData rocketAltitude Hne) as (Hrange & Hbelow & _).
  destruct (Nat.eq_dec (findWindIndex windData rocketAltitude) (length windData))
    as [E | Hneq]; [| lia].
  assert (Hlt : (j < length windData)%nat).
  { apply nth_error_Some. rewrite Htop. discriminate. }
  pose proof (Hbelow j top ltac:(lia) Htop). lra.
Qed.

(** ** The descent list of a sorted profile *)

Section SortedProfile.

Variable windData : list WindAtAltitude.
Variable mainDeployAltitude : Q.
Variable mainDescentRate : Q.
Hypothesis windData_ascending : ascendingByAltitude windData.

Lemma walk_not_empty (i : nat) (rate : Q) (steps : list DescentData) :
  Walk mainDeployAltitude mainDescentRate windData i rate steps -> steps <> [].
Proof.
  intros Hwalk.
  assert (Hband : forall lo hi r pushed r',
             BandOutcome mainDeployAltitude mainDescentRate lo hi r pushed r' ->
             pushed <> []).
  { intros lo hi r pushed r' Hout. destruct Hout; discriminate. }
  inversion Hwalk as [lo hi r pushed r' Hlo Hhi Hout
                     | below lo hi r pushed r' rest Hlo Hhi Hout Hrest]; subst.
  - eapply Hband; eauto.
  - intros E. apply app_eq_nil in E. destruct E as [E _].
    revert E. eapply Hband; eauto.
Qed.

Lemma generate_sorted (usingDual : bool) (drogueRate rocketAltitude : Q) :
  (findWindIndex windData rocketAltitude < length windData)%nat ->
  exists first steps,
    generateDescentList windData mainDeployAltitude (Fin mainDescentRate)
      usingDual (Fin drogueRate) rocketAltitude
    = Normal (Some (first :: steps, rocketAltitude))
    /\ stepAltitude first = rocketAltitude
    /\ descentRate first = (if usingDual then drogueRate else mainDescentRate)
    /\ Walk mainDeployAltitude mainDescentRate windData
         (findWindIndex windData rocketAltitude - 1)
         (if usingDual then drogueRate else mainDescentRate) steps.
Proof.
  intros Hfound.
  assert (Hne : windData <> []) by (destruct windData; cbn in *; [lia | discriminate]).
  destruct (find_spec windData rocketAltitude Hne) as (Hrange & _).
  unfold generateDescentList. cbv zeta.
  replace (Nat.eqb (length windData) (findWindIndex windData rocketAltitude))
    with false by (symmetry; apply Nat.eqb_neq; lia).
  set (rate := if usingDual then drogueRate else mainDescentRate).
  replace (if usingDual then Fin drogueRate else Fin mainDescentRate)
    with (Fin rate) by (unfold rate; now destruct usingDual).
  destruct (apogeeStep_normal windData rocketAltitude
              (findWindIndex windData rocketAltitude - 1) rate)
    as (first & -> & Halt & Hrate). cbn [bind].
  destruct (walkBands_walk windData mainDeployAltitude mainDescentRate
              windData_ascending
              (findWindIndex windData rocketAltitude - 1) rate rocketAltitude)
    as (steps & -> & Hwalk); [lia |].
  cbn. exists first, steps. repeat split; assumption.
Qed.

Lemma build_sorted (usingDual : bool) (drogueRate rocketAltitude : Q) :
  (findWindIndex windData rocketAltitude < length windData)%nat ->
  exists first steps,
    buildDescentList windData mainDeployAltitude (Fin mainDescentRate)
      usingDual (Fin drogueRate) rocketAltitude
    = Normal (Some (first :: steps, rocketAltitude))
    /\ stepAltitude first = rocketAltitude
    /\ descentRate first = (if usingDual then drogueRate else mainDescentRate)
    /\ Walk mainDeployAltitude mainDescentRate windData
         (findWindIndex windData rocketAltitude - 1)
         (if usingDual then drogueRate else mainDescentRate) steps.
Proof.
  intros Hfound.
  destruct (generate_sorted usingDual drogueRate rocketAltitude Hfound)
    as (first & steps & Hgen & Halt & Hrate & Hwalk).
  exists first, steps. split; [| now repeat split].
  unfold buildDescentList. rewrite Hgen. cbn [bind].
  pose proof (walk_not_empty _ _ _ Hwalk) as Hne.
  destruct steps as [| s steps]; [contradiction | reflexivity].
Qed.

End SortedProfile.

(** ** Main deployment on a wind sample *)

(** C2, as amended.  On a profile sorted by strictly increasing altitude
    that reaches the apogee, with dual deployment active, a sample whose
    altitude equals the main deployment altitude and a deployment
    altitude strictly below the apogee: the descent list is built, and it
    holds one entry at the deployment altitude, with the main descent
    rate and the sample's own wind speed and direction; the entries
    before it are above that altitude, the entries after it are below it
    and all carry the main rate. *)
Theorem deployment_on_sample (windData : list WindAtAltitude)
    (mainDeployAltitude mainRate drogueRate rocketAltitude : Q)
    (k : nat) (sample top : WindAtAltitude) :
  ascendingByAltitude windData ->
  nth_error windData k = Some sample ->
  altitude sample == mainDeployAltitude ->
  mainDeployAltitude < rocketAltitude ->
  In top windData ->
  rocketAltitude <= altitude top ->
  exists before after,
    buildDescentList windData mainDeployAltitude (Fin mainRate) true
      (Fin drogueRate) rocketAltitude
    = Normal
        (Some (before
               ++ mkDescentData mainDeployAltitude mainRate
                    (windSpeed sample) (windDirection sample) :: after,
               rocketAltitude))
    /\ Forall (fun s => mainDeployAltitude < stepAltitude s) before
    /\ Forall (fun s => stepAltitude s < mainDeployAltitude
                        /\ descentRate s = mainRate) after.
Proof.
  intros Hsorted Hk Hat Hbelow Hin Hreach.
  destruct (In_nth_error _ _ Hin) as (j & Hj).
  assert (Hkj : (k < j)%nat).
  { destruct (Nat.lt_trichotomy j k) as [Hlt | [-> | Hgt]]; [| | exact Hgt].
    - pose proof (ascending_nth _ Hsorted j k top sample Hlt Hj Hk). lra.
    - rewrite Hk in Hj. injection Hj as ->. lra. }
  assert (Hfound : (findWindIndex windData rocketAltitude < length windData)%nat).
  { apply (find_inside windData rocketAltitude j top); [lia | exact Hj | exact Hreach]. }
  destruct (build_sorted windData mainDeployAltitude mainRate Hsorted true
              drogueRate rocketAltitude Hfound)
    as (first & steps & Hbuild & Halt & _ & Hwalk).
  assert (Hne : windData <> []) by (intros E; rewrite E in Hin; contradiction).
  destruct (find_spec windData rocketAltitude Hne) as (Hrange & _ & Hstop).
  destruct (Hstop Hfound) as (w & Hw & Hwreach).
  assert (Hkn : (k < findWindIndex windData rocketAltitude)%nat).
  { destruct (Nat.lt_trichotomy (findWindIndex windData rocketAltitude) k)
      as [Hlt | [E | Hgt]]; [| | exact Hgt].
    - pose proof (ascending_nth _ Hsorted _ _ w sample Hlt Hw Hk). lra.
    - rewrite E in Hw. rewrite Hk in Hw. injection Hw as ->. lra. }
  assert (Hkf : (k <= findWindIndex windData rocketAltitude - 1)%nat) by lia.
  destruct (walk_deploys_at_sample windData mainDeployAltitude mainRate Hsorted
              k sample Hk Hat (findWindIndex windData rocketAltitude - 1)
              drogueRate steps Hkf Hwalk)
    as (before & after & -> & Hbefore & Hafter).
  exists (first :: before), after. split; [exact Hbuild |]. split; [| exact Hafter].
  constructor; [rewrite Halt; exact Hbelow | exact Hbefore].
Qed.

Lemma threeSamples_ascending : ascendingByAltitude threeSamples.
Proof.
  unfold ascendingByAltitude, threeSamples.
  repeat (apply SSorted_cons;
          [| repeat (apply Forall_cons; [reflexivity |]); apply Forall_nil]).
  apply SSorted_nil.
Qed.

Lemma deployment_on_sample_witness :
  exists before after,
    buildDescentList threeSamples 500 (Fin 20) true (Fin 75) 1500
    = Normal
        (Some (before ++ mkDescentData 500 20 10 90 :: after, 1500))
    /\ Forall (fun s => 500 < stepAltitude s) before
    /\ Forall (fun s => stepAltitude s < 500 /\ descentRate s = 20) after.
Proof.
  apply (deployment_on_sample threeSamples 500 20 75 1500 1
           (mkWindAtAltitude 500 10 90) (mkWindAtAltitude 1500 20 180)).
  - exact threeSamples_ascending.
  - reflexivity.
  - reflexivity.
  - reflexivity.
  - simpl. tauto.
  - vm_compute. discriminate.
Defined.

(** C2 fails as stated.  The form accepts a main deployment altitude
    equal to the apogee (only a higher one switches to single
    deployment).  With samples at 0, 500 and 1500 ft, apogee and
    deployment both at 500 ft: the one entry at 500 ft is the apogee
    entry, with the drogue rate and an averaged wind, and the entry
    below it carries the drogue rate as well. *)
Lemma deployment_at_apogee_keeps_drogue_rate :
  loadRecovery 500 20 true (Fin 500) (Fin 75) = (true, 500, 75)
  /\ exists descentList,
       buildDescentList threeSamples 500 (Fin 20) true (Fin 75) 500
       = Normal (Some (descentList, 500))
       /\ Forall (fun s => descentRate s = 75) descentList
       /\ (exists below, In below descentList /\ stepAltitude below < 500)
       /\ ~ (exists s, In s descentList
                       /\ stepAltitude s == 500 /\ descentRate s == 20).
Proof.
  split; [reflexivity |].
  eexists. split; [vm_compute; reflexivity |]. split; [| split].
  - repeat constructor.
  - eexists. split; [right; left; reflexivity | reflexivity].
  - intros (s & [<- | [<- | []]] & Halt & Hrate); vm_compute in Hrate, Halt;
      discriminate.
Qed.

(** ** Hours that yield no result *)

Lemma generate_out_of_range (windData : list WindAtAltitude)
    (mainDeployAltitude : Q) (mainRate : number) (usingDual : bool)
    (drogueRate : number) (rocketAltitude : Q) :
  windData <> [] ->
  (forall w, In w windData -> altitude w < rocketAltitude) ->
  generateDescentList windData mainDeployAltitude mainRate usingDual drogueRate
    rocketAltitude
  = Normal None.
Proof.
  intros Hne Hall. unfold generateDescentList. cbv zeta.
  rewrite (find_above_all windData rocketAltitude Hne Hall).
  now rewrite Nat.eqb_refl.
Qed.

(** C5. An hour whose (possibly weathercock-adjusted) apogee lies above
    every wind sample, and an hour whose generated descent list has
    fewer than two entries, complete normally without a result; the hour
    loop then goes on with the hours that follow, its list unchanged. *)
Theorem unusable_hour_is_skipped {G : GeoModule} (inputs : LaunchInputs)
    (launchLocation : GeoLocation) (windForecast : WindForecastData)
    (hour : Z) (later : list (option WindForecastData))
    (simulationList : list LaunchSimulationData) :
  (windData windForecast <> []
   /\ forall w,
        In w (windData windForecast) ->
        altitude w < snd (adjustedApogee inputs launchLocation windForecast))
  \/ (exists descentList rocketAltitude,
        generateDescentList (windData windForecast) (mainDeployAltitude inputs)
          (Fin (mainDescentRate inputs)) (usingDualDeployoment inputs)
          (Fin (drogueDecentRate inputs))
          (snd (adjustedApogee inputs launchLocation windForecast))
        = Normal (Some (descentList, rocketAltitude))
        /\ (length descentList < 2)%nat) ->
  simulateHour inputs launchLocation windForecast hour = Normal None
  /\ hourLoop inputs launchLocation hour (Some windForecast :: later)
       simulationList
     = hourLoop inputs launchLocation (hour + 1)%Z later simulationList.
Proof.
  intros Hcase.
  assert (Hskip : simulateHour inputs launchLocation windForecast hour
                  = Normal None).
  { unfold simulateHour.
    destruct (adjustedApogee inputs launchLocation windForecast)
      as [rocketLocation rocketAltitude].
    cbn [snd] in Hcase. unfold buildDescentList.
    destruct Hcase as [[Hne Hall] | (descentList & alt & Hgen & Hshort)].
    - rewrite (generate_out_of_range _ _ _ _ _ _ Hne Hall). reflexivity.
    - rewrite Hgen. cbn [bind].
      replace (Nat.ltb (length descentList) 2) with true
        by (symmetry; apply Nat.ltb_lt; exact Hshort).
      reflexivity. }
  split; [exact Hskip |].
  cbn [hourLoop]. rewrite Hskip. reflexivity.
Qed.

Lemma unusable_hour_is_skipped_witness :
  @simulateHour gridGeo
    (mkLaunchInputs 2000 false [] 20 false (-1) 20 NaN)
    sampleSite (mkWindForecastData true threeSamples 0 0 0) 9
  = Normal None
  /\ @hourLoop gridGeo
       (mkLaunchInputs 2000 false [] 20 false (-1) 20 NaN)
       sampleSite 9 [Some (mkWindForecastData true threeSamples 0 0 0)] []
     = @hourLoop gridGeo
         (mkLaunchInputs 2000 false [] 20 false (-1) 20 NaN)
         sampleSite (9 + 1)%Z [] [].
Proof.
  apply (@unusable_hour_is_skipped gridGeo
           (mkLaunchInputs 2000 false [] 20 false (-1) 20 NaN)
           sampleSite (mkWindForecastData true threeSamples 0 0 0) 9 [] []).
  left. split.
  - discriminate.
  - simpl. intros w [<- | [<- | [<- | []]]]; reflexivity.
Defined.

(** The second case occurs on profiles that are not sorted: with a
    sample at 500 ft followed by one at 0 ft the only band is inverted,
    the loop pushes nothing and the list keeps its apogee entry alone. *)
Lemma short_descent_list_occurs :
  generateDescentList
    [mkWindAtAltitude 500 5 0; mkWindAtAltitude 0 5 0] (-1) (Fin 20) false
    (Fin 20) 0
  = Normal (Some ([mkDescentData 0 20 (-1) (-1)], 500)).
Proof. vm_compute. reflexivity. Qed.

(** ** A descent rate that cannot be used *)


Lemma built_hour_has_result {G : GeoModule} (inputs : LaunchInputs)
    (launchLocation : GeoLocation) (windForecast : WindForecastData)
    (hour : Z) (descentList : list DescentData) (rocketAltitude : Q) :
  buildDescentList (windData windForecast) (mainDeployAltitude inputs)
    (Fin (mainDescentRate inputs)) (usingDualDeployoment inputs)
    (Fin (drogueDecentRate inputs))
    (snd (adjustedApogee inputs launchLocation windForecast))
  = Normal (Some (descentList, rocketAltitude)) ->
  exists launchSimulation,
    simulateHour inputs launchLocation windForecast hour
    = Normal (Some launchSimulation)
    /\ launchPath launchSimulation
       = mkLaunchPathPoint 0 launchLocation
         :: mkLaunchPathPoint rocketAltitude
              (fst (adjustedApogee inputs launchLocation windForecast))
         :: descentPath descentList
              (fst (adjustedApogee inputs launchLocation windForecast)).
Proof.
  intros Hbuilt. unfold simulateHour.
  destruct (adjustedApogee inputs launchLocation windForecast)
    as [rocketLocation apogeeAltitude].
  cbn [fst snd] in *. rewrite Hbuilt. cbn [bind].
  eexists. split; [reflexivity |].
  unfold appendPath.
  generalize (descentPath descentList rocketLocation). intros points.
  set (s := addLaunchPathPoint _ rocketAltitude rocketLocation).
  change (mkLaunchPathPoint 0 launchLocation
          :: mkLaunchPathPoint rocketAltitude rocketLocation :: points)
    with (launchPath s ++ points).
  generalize s. clear. induction points as [| p points IH]; intros s; cbn.
  - now rewrite app_nil_r.
  - rewrite IH. cbn. rewrite <- app_assoc. destruct p. reflexivity.
Qed.

Lemma built_needs_samples (mainDeployAltitude : Q) (mainRate : number)
    (usingDual : bool) (drogueRate : number) (rocketAltitude : Q)
    (built : list DescentData * Q) :
  buildDescentList [] mainDeployAltitude mainRate usingDual drogueRate
    rocketAltitude
  <> Normal (Some built).
Proof.
  unfold buildDescentList, generateDescentList, apogeeStep. cbn.
  destruct (if usingDual then drogueRate else mainRate); cbn; discriminate.
Qed.

Lemma built_drift_has_result {G : GeoModule}
    (launchDetails : Rocket.LaunchLocationData) (hours : Z)
    (class : Rocket.RocketClass) (rocketDetails : Rocket.RocketBase)
    (windForecast : WindForecastData) (descentList : list DescentData)
    (rocketAltitude : Q) :
  buildDescentList (windData windForecast)
    (Rocket.mainDeployAltitude rocketDetails)
    (Rocket.descentRateMain rocketDetails)
    (Rocket.usingDualDeployment rocketDetails)
    (Rocket.descentRateDrogue rocketDetails)
    (pointAltitude
       (last (Rocket.getLaunchPath class launchDetails windForecast)
          (mkLaunchPathPoint 0 (Rocket.siteLocation launchDetails))))
  = Normal (Some (descentList, rocketAltitude)) ->
  exists launchSimulation,
    driftSimulation launchDetails hours class rocketDetails windForecast
    = Normal (Some launchSimulation).
Proof.
  intros Hbuilt. unfold driftSimulation.
  set (launchPath := Rocket.getLaunchPath class launchDetails windForecast) in *.
  assert (Hlast : Nat.eqb 0 (length launchPath) = false
                  /\ elem launchPath (length launchPath - 1)
                     = Normal (last launchPath
                                 (mkLaunchPathPoint 0
                                    (Rocket.siteLocation launchDetails)))).
  { unfold launchPath. destruct class; cbn; split; reflexivity. }
  destruct Hlast as [-> ->]. cbn [bind]. rewrite Hbuilt. cbn [bind].
  destruct (windData windForecast) as [| ground samples] eqn:Hsamples.
  - exfalso. revert Hbuilt. apply built_needs_samples.
  - cbn. eexists. reflexivity.
Qed.

(** drift_simulation.js does not check the rates of the rocket it is
    given.  A rocket set up by setSingleDeployment(0), an apogee of
    1000 ft and a steady wind of 10 knots: the one integration step has
    a descent rate of zero in effect, driftWithWind moves nothing, and
    driftSimulation returns a result whose landing point is the launch
    site. *)
Lemma drift_simulation_takes_a_zero_rate :
  @driftSimulation gridGeo (Rocket.mkLaunchLocationData 0 sampleSite) 9
    (Rocket.Apogee 1000) (Rocket.mkRocketBase (Fin 0) (-1) (Fin 75))
    steadyWest
  = Normal
      (Some
         (mkLaunchSimulationData 9
            [mkLaunchPathPoint 0 sampleSite;
             mkLaunchPathPoint 1000 sampleSite;
             mkLaunchPathPoint 0 sampleSite]
            0)).
Proof. vm_compute. reflexivity. Qed.

(** ** Still air *)

Lemma geoEq_refl (a : GeoLocation) : geoEq a a.
Proof. split; reflexivity. Qed.

Lemma geoEq_trans (a b c : GeoLocation) : geoEq a b -> geoEq b c -> geoEq a c.
Proof. intros [H1 H2] [H3 H4]. split; [now rewrite H1 | now rewrite H2]. Qed.

Section StillAir.

Context {G : GeoModule}.

(** What the development asks of geo.js here: converting a zero distance
    gives a zero distance, and moving by a zero distance leaves the
    coordinates as they are. *)
Hypothesis feetToMeters_zero : forall feet, feet == 0 -> feetToMeters feet == 0.
Hypothesis move_zero :
  forall loc distance bearing,
    distance == 0 -> geoEq (moveAlongBearingKilometers loc distance bearing) loc.

Lemma still_step (previous current : DescentData) (rocketLocation : GeoLocation)
    (rate : Q) :
  stepWindSpeed previous == 0 ->
  stepWindSpeed current == 0 ->
  geoEq (fst (driftStep previous current rocketLocation rate)) rocketLocation.
Proof.
  intros Hp Hc. unfold driftStep, driftWithWind.
  destruct (Qeqb 0 rate); [apply geoEq_refl |]. cbn [fst].
  apply move_zero. apply feetToMeters_zero.
  rewrite Hp, Hc. divide_by_numerals. ring.
Qed.

Lemma still_descent (rest : list DescentData) :
  forall previous rocketLocation rate,
    stepWindSpeed previous == 0 ->
    Forall (fun s => stepWindSpeed s == 0) rest ->
    Forall (fun p => geoEq (location p) rocketLocation)
      (integrate previous rest rocketLocation rate).
Proof.
  induction rest as [| current rest IH];
    intros previous rocketLocation rate Hp Hall; cbn [integrate].
  - constructor.
  - apply Forall_cons_iff in Hall. destruct Hall as [Hc Hall].
    pose proof (still_step previous current rocketLocation rate Hp Hc) as Hstep.
    constructor; [exact Hstep |].
    eapply Forall_impl; [| exact (IH current _ (descentRate current) Hc Hall)].
    cbn. intros p Hgeo. eapply geoEq_trans; eauto.
Qed.

(** The apogee entry inside its band: the averaged speed of a band whose
    two samples are still is zero. *)
Lemma apogee_entry_still (windData : list WindAtAltitude) (i : nat)
    (lo hi : WindAtAltitude) (rocketAltitude rate : Q) (first : DescentData) :
  nth_error windData i = Some lo ->
  nth_error windData (S i) = Some hi ->
  altitude lo <= rocketAltitude <= altitude hi ->
  altitude lo < altitude hi ->
  windSpeed lo == 0 ->
  windSpeed hi == 0 ->
  apogeeStep windData rocketAltitude i (Fin rate) = Normal first ->
  stepWindSpeed first == 0.
Proof.
  intros Hlo Hhi Hin Hheight H0 H1. unfold apogeeStep.
  destruct (interpolation_inside windData i lo hi rocketAltitude Hlo Hhi Hin
              Hheight)
    as (fraction & speed & direction & -> & Hunit & Hs & Hspeed & Hd).
  cbn [bind]. rewrite Hs. cbn [bind]. rewrite Hd. cbn.
  intros E. injection E as <-. cbn.
  rewrite Hspeed, H0, H1. divide_by_numerals. ring.
Qed.

(** In still air, on a sorted profile whose band contains the apogee,
    every point of the descent stays where the apogee is: the landing
    point is the launch point when no weathercocking moved the apogee. *)
Lemma still_air_lands_below_apogee (inputs : LaunchInputs)
    (launchLocation : GeoLocation) (windForecast : WindForecastData)
    (hour : Z) (ground : WindAtAltitude)
    (launchSimulation : LaunchSimulationData) :
  ascendingByAltitude (windData windForecast) ->
  (forall w, In w (windData windForecast) -> windSpeed w == 0) ->
  nth_error (windData windForecast) 0 = Some ground ->
  altitude ground <= snd (adjustedApogee inputs launchLocation windForecast) ->
  simulateHour inputs launchLocation windForecast hour
  = Normal (Some launchSimulation) ->
  exists landing,
    getLandingLocation launchSimulation = Normal (Some landing)
    /\ geoEq landing (fst (adjustedApogee inputs launchLocation windForecast)).
Proof.
  intros Hsorted Hstill Hground Hlow Hsim.
  set (apogeeLocation := fst (adjustedApogee inputs launchLocation windForecast))
    in *.
  set (A := snd (adjustedApogee inputs launchLocation windForecast)) in *.
  assert (Hne : windData windForecast <> [])
    by (intros E; rewrite E in Hground; discriminate).
  destruct (find_spec (windData windForecast) A Hne) as (Hrange & Hbelow & Hstop).
  assert (Hfound : (findWindIndex (windData windForecast) A
                    < length (windData windForecast))%nat).
  { destruct (Nat.eq_dec (findWindIndex (windData windForecast) A)
                (length (windData windForecast))) as [E | Hneq]; [| lia].
    exfalso. unfold simulateHour in Hsim.
    destruct (adjustedApogee inputs launchLocation windForecast) as [l a].
    cbn [snd] in A. subst A.
    unfold buildDescentList, generateDescentList in Hsim. cbv zeta in Hsim.
    rewrite E, Nat.eqb_refl in Hsim. cbn in Hsim. discriminate. }
  destruct (build_sorted (windData windForecast) (mainDeployAltitude inputs)
              (mainDescentRate inputs) Hsorted (usingDualDeployoment inputs)
              (drogueDecentRate inputs) A Hfound)
    as (first & steps & Hbuild & Halt & Hrate & Hwalk).
  destruct (built_hour_has_result inputs launchLocation windForecast hour
              (first :: steps) A Hbuild) as (s & Hs & Hpath).
  rewrite Hs in Hsim. injection Hsim as <-.
  fold apogeeLocation in Hpath.
  (* every entry of the descent list is still *)
  pose proof (walk_still_air _ _ _ _ Hstill _ _ Hwalk) as Hsteps.
  assert (Hfirst : stepWindSpeed first == 0).
  { destruct (Hstop Hfound) as (hi & Hhi & Hreach).
    set (n := findWindIndex (windData windForecast) A) in *.
    destruct (nth_error (windData windForecast) (n - 1)) as [lo |] eqn:Hlo;
      [| apply nth_error_None in Hlo; lia].
    replace n with (S (n - 1)) in Hhi by lia.
    assert (Hfloor : altitude lo <= A).
    { destruct (Nat.eq_dec (n - 1) 0) as [E | Hpos].
      - rewrite E in Hlo. rewrite Hground in Hlo. injection Hlo as <-. exact Hlow.
      - apply Qlt_le_weak. apply (Hbelow (n - 1)%nat lo); [lia | exact Hlo]. }
    assert (Hheight : altitude lo < altitude hi).
    { apply (ascending_nth _ Hsorted (n - 1) (S (n - 1)) lo hi);
        [lia | exact Hlo | exact Hhi]. }
    unfold buildDescentList, generateDescentList in Hbuild. cbv zeta in Hbuild.
    fold n in Hbuild.
    replace (Nat.eqb (length (windData windForecast)) n) with false in Hbuild
      by (symmetry; apply Nat.eqb_neq; lia).
    destruct (apogeeStep (windData windForecast) A (n - 1)
                (if usingDualDeployoment inputs
                 then Fin (drogueDecentRate inputs)
                 else Fin (mainDescentRate inputs))) as [first' |] eqn:Hap;
      [| discriminate].
    assert (first' = first).
    { cbn [bind] in Hbuild.
      destruct (walkBands _ _ _ _ _ _) as [[pushed alt] |]; cbn in Hbuild;
        [| discriminate].
      destruct pushed; cbn in Hbuild; [discriminate |].
      now injection Hbuild. }
    subst first'.
    replace (if usingDualDeployoment inputs
             then Fin (drogueDecentRate inputs)
             else Fin (mainDescentRate inputs))
      with (Fin (if usingDualDeployoment inputs
                 then drogueDecentRate inputs else mainDescentRate inputs))
      in Hap by now destruct (usingDualDeployoment inputs).
    apply (apogee_entry_still _ _ lo hi _ _ _ Hlo Hhi) in Hap; auto.
    - apply Hstill. eapply nth_error_In; eauto.
    - apply Hstill. eapply nth_error_In; eauto. }
  pose proof (still_descent steps first apogeeLocation (descentRate first)
                Hfirst Hsteps) as Hpoints.
  pose proof (walk_not_empty _ _ _ _ _ _ Hwalk) as Hsome.
  destruct (last_or_empty
              (integrate first steps apogeeLocation (descentRate first)))
    as [E | (front & point & E)].
  { destruct steps; [contradiction | cbn in E; discriminate]. }
  exists (location point). split.
  - apply (landing_of_last s
             (mkLaunchPathPoint 0 launchLocation
              :: mkLaunchPathPoint A apogeeLocation :: front) point).
    rewrite Hpath. cbn [descentPath]. rewrite E. reflexivity.
  - rewrite Forall_forall in Hpoints. apply Hpoints. rewrite E.
    apply in_or_app. right. now left.
Qed.

(** *** The apogee location in still air *)

Hypothesis moveAlongBearing_zero :
  forall loc distance bearing,
    distance == 0 -> geoEq (moveAlongBearing loc distance bearing) loc.

Lemma still_sum (samples : list WindAtAltitude) :
  (forall w, In w samples -> windSpeed w == 0) ->
  forall start,
    start == 0 ->
    fold_left (fun sum sample => sum + windSpeed sample) samples start == 0.
Proof.
  induction samples as [| w samples IH]; intros Hstill start Hstart; cbn.
  - exact Hstart.
  - apply IH.
    + intros w' Hin. apply Hstill. now right.
    + rewrite Hstart, (Hstill w (or_introl eq_refl)). reflexivity.
Qed.

Lemma still_ground_wind (inputs : LaunchInputs)
    (windForecast : WindForecastData) (direction speed : Q) :
  (forall w, In w (windData windForecast) -> windSpeed w == 0) ->
  groundWind inputs windForecast = Some (direction, speed) ->
  speed == 0.
Proof.
  intros Hstill. unfold groundWind. cbv zeta.
  set (count := if Nat.leb _ _ then _ else _).
  destruct (Nat.eqb count 0); [discriminate |].
  intros E. injection E as _ <-.
  assert (Hsum : fold_left (fun sum sample => sum + windSpeed sample)
                   (firstn count (windData windForecast)) 0.0 == 0).
  { apply still_sum; [| reflexivity].
    intros w Hin. apply Hstill.
    rewrite <- (firstn_skipn count (windData windForecast)).
    apply in_or_app. now left. }
  unfold MathRound.
  assert (Hhalf : fold_left (fun sum sample => sum + windSpeed sample)
                    (firstn count (windData windForecast)) 0.0
                  / inject_Z (Z.of_nat count) * 1.15078 + (1 # 2)
                  == 1 # 2).
  { rewrite Hsum. unfold Qdiv. ring. }
  rewrite (Qfloor_comp _ _ Hhalf). reflexivity.
Qed.

(** The table of the form: the zero-wind entry first, then entries for
    positive wind speeds. *)
Lemma still_adjustment (launchLocation : GeoLocation)
    (windDirection windSpeed userApogee : Q)
    (entries : list WeathercockWindData) :
  windSpeed == 0 ->
  Forall (fun entry => 0 < wcWindSpeed entry) entries ->
  geoEq
    (fst (weathercockAdjustment launchLocation windDirection windSpeed
            (mkWeathercockWindData 0 0 userApogee :: entries)))
    launchLocation.
Proof.
  intros Hzero Hentries. cbn [weathercockAdjustment].
  destruct entries as [| current entries]; cbn [weathercockSearch fst];
    [apply geoEq_refl |].
  apply Forall_cons_iff in Hentries. destruct Hentries as [Hpos _].
  replace (Qleb windSpeed (wcWindSpeed current)) with true
    by (symmetry; apply Qleb_true; lra).
  cbn [fst wcWindSpeed upwindDistance].
  apply moveAlongBearing_zero. apply feetToMeters_zero.
  unfold linearInterpolate.
  replace (Qeqb 0 (0 - wcWindSpeed current)) with false
    by (symmetry; apply Qeqb_false; lra).
  rewrite Hzero. field. lra.
Qed.

Lemma still_air_keeps_apogee_over_site (inputs : LaunchInputs)
    (launchLocation : GeoLocation) (windForecast : WindForecastData)
    (userApogee : Q) (entries : list WeathercockWindData) :
  (forall w, In w (windData windForecast) -> windSpeed w == 0) ->
  applyWeathercockAdjustment inputs = false
  \/ (weathercockData inputs = mkWeathercockWindData 0 0 userApogee :: entries
      /\ Forall (fun entry => 0 < wcWindSpeed entry) entries) ->
  geoEq (fst (adjustedApogee inputs launchLocation windForecast)) launchLocation.
Proof.
  intros Hstill Hcase. unfold adjustedApogee.
  destruct (applyWeathercockAdjustment inputs); [| apply geoEq_refl].
  destruct Hcase as [Hoff | [Htable Hentries]]; [discriminate |].
  destruct (groundWind inputs windForecast) as [[direction speed] |] eqn:Hwind;
    [| apply geoEq_refl].
  pose proof (still_ground_wind _ _ _ _ Hstill Hwind) as Hzero.
  rewrite Htable.
  pose proof (still_adjustment launchLocation direction speed userApogee
                entries Hzero Hentries) as Hgeo.
  destruct (weathercockAdjustment _ _ _ _) as [moved altitude]. exact Hgeo.
Qed.

(** In still air, on a sorted profile whose lowest sample is at or below
    the apogee, the landing point of a simulated hour is the launch
    point. *)
Lemma still_air_lands_at_launch (inputs : LaunchInputs)
    (launchLocation : GeoLocation) (windForecast : WindForecastData)
    (hour : Z) (ground : WindAtAltitude)
    (launchSimulation : LaunchSimulationData)
    (userApogee : Q) (entries : list WeathercockWindData) :
  ascendingByAltitude (windData windForecast) ->
  (forall w, In w (windData windForecast) -> windSpeed w == 0) ->
  nth_error (windData windForecast) 0 = Some ground ->
  altitude ground <= snd (adjustedApogee inputs launchLocation windForecast) ->
  applyWeathercockAdjustment inputs = false
  \/ (weathercockData inputs = mkWeathercockWindData 0 0 userApogee :: entries
      /\ Forall (fun entry => 0 < wcWindSpeed entry) entries) ->
  simulateHour inputs launchLocation windForecast hour
  = Normal (Some launchSimulation) ->
  exists landing,
    getLandingLocation launchSimulation = Normal (Some landing)
    /\ geoEq landing launchLocation.
Proof.
  intros Hsorted Hstill Hground Hlow Htable Hsim.
  destruct (still_air_lands_below_apogee inputs launchLocation windForecast
              hour ground launchSimulation Hsorted Hstill Hground Hlow Hsim)
    as (landing & Hland & Hgeo).
  exists landing. split; [exact Hland |].
  eapply geoEq_trans; [exact Hgeo |].
  eapply still_air_keeps_apogee_over_site; eauto.
Qed.

End StillAir.

(** The flat-grid instance satisfies what is asked of geo.js. *)
Lemma gridGeo_zero_laws :
  (forall feet, feet == 0 -> @feetToMeters gridGeo feet == 0)
  /\ (forall loc distance bearing,
        distance == 0 ->
        geoEq (@moveAlongBearingKilometers gridGeo loc distance bearing) loc)
  /\ (forall loc distance bearing,
        distance == 0 ->
        geoEq (@moveAlongBearing gridGeo loc distance bearing) loc).
Proof.
  assert (Hmove : forall loc distance bearing,
             distance == 0 -> geoEq (gridMove loc distance bearing) loc).
  { intros loc distance bearing Hzero. unfold gridMove, geoEq.
    cbn [latitude longitude].
    split; rewrite Qred_correct, Hzero; unfold Qdiv; ring. }
  split; [| split; exact Hmove].
  intros feet Hzero. cbn [feetToMeters gridGeo]. rewrite Hzero. reflexivity.
Qed.

(** C7.  Still air with samples at 100 and 200 ft, an apogee of 50 ft,
    single deployment at 20 ft/s.  Every sample has a wind speed of 0,
    yet the hour is simulated: the apogee lies below the lowest sample,
    the band queries answer with their sentinel -1, which becomes the
    wind speed of the apogee entry, and the one integration step computes
    a drift distance that is not 0.  Whatever geo.js computes, the
    landing point is the launch point moved by that distance; on the flat
    grid it is not the launch point. *)
Theorem still_air_below_lowest_sample_drifts :
  (forall w, In w (windData stillAir) -> windSpeed w == 0)
  /\ getAverageWindSpeed (-1) (windData stillAir) 0 = Normal (-1)
  /\ exists descentList distance bearing,
       buildDescentList (windData stillAir) (-1) (Fin 20) false (Fin 20) 50
       = Normal (Some (descentList, 50))
       /\ (forall G : GeoModule,
             descentDrifts descentList sampleSite = [Some distance]
             /\ exists launchSimulation,
                  calculateLandingPlots lowApogeeForm (Some sampleSite) 9
                    [Some stillAir]
                  = Normal [launchSimulation]
                  /\ getLandingLocation launchSimulation
                     = Normal
                         (Some (moveAlongBearingKilometers sampleSite
                                  (feetToMeters distance) bearing)))
       /\ ~ distance == 0
       /\ ~ geoEq
             (@moveAlongBearingKilometers gridGeo sampleSite
                (@feetToMeters gridGeo distance) bearing)
             sampleSite.
Proof.
  split; [| split].
  - simpl. intros w [<- | [<- | []]]; reflexivity.
  - reflexivity.
  - eexists. eexists. eexists.
    split; [vm_compute; reflexivity |].
    split; [| split].
    + intros G. split; [vm_compute; reflexivity |].
      eexists. split; vm_compute; reflexivity.
    + vm_compute. discriminate.
    + intros [Hlat _]. vm_compute in Hlat. discriminate.
Qed.

(** ** The store of GeoLocation objects *)

Lemma overwrite_length (objects : store) (object : nat) (v : GeoLocation) :
  length (overwrite objects object v) = length objects.
Proof.
  revert object. induction objects as [| x objects IH]; intros [| n]; cbn;
    try reflexivity. now rewrite IH.
Qed.

Lemma overwrite_same (objects : store) (object : nat) (v : GeoLocation) :
  (object < length objects)%nat ->
  nth_error (overwrite objects object v) object = Some v.
Proof.
  revert object. induction objects as [| x objects IH]; intros [| n] Hlt;
    cbn in *; try lia; try reflexivity. apply IH. lia.
Qed.

Lemma overwrite_other (objects : store) (object other : nat) (v : GeoLocation) :
  object <> other ->
  nth_error (overwrite objects object v) other = nth_error objects other.
Proof.
  revert object other.
  induction objects as [| x objects IH]; intros [| n] [| k] Hneq; cbn;
    try reflexivity; try contradiction.
  apply IH. intros ->. now apply Hneq.
Qed.

Lemma readPath_app (objects : store) (p1 p2 : list PathPointObject) :
  readPath objects (p1 ++ p2) = readPath objects p1 ++ readPath objects p2.
Proof. unfold readPath. apply map_app. Qed.

(** Points whose objects are all in the store are read alike after a new
    object is allocated. *)
Lemma readPath_alloc (objects : store) (v : GeoLocation)
    (path : list PathPointObject) :
  Forall (fun p => (objectLocation p < length objects)%nat) path ->
  readPath (objects ++ [v]) path = readPath objects path.
Proof.
  intros Hall. unfold readPath. apply map_ext_in. intros p Hin.
  rewrite Forall_forall in Hall. specialize (Hall p Hin). cbn in Hall.
  now rewrite nth_error_app1.
Qed.

(** Overwriting an object leaves the points stored in other objects as
    they are. *)
Lemma readPath_overwrite (objects : store) (object : nat) (v : GeoLocation)
    (path : list PathPointObject) :
  Forall (fun p => objectLocation p <> object) path ->
  readPath (overwrite objects object v) path = readPath objects path.
Proof.
  intros Hall. unfold readPath. apply map_ext_in. intros p Hin.
  rewrite Forall_forall in Hall. specialize (Hall p Hin). cbn in Hall.
  rewrite overwrite_other; [reflexivity | congruence].
Qed.

Lemma add_point_object (objects : store) (path : list PathPointObject)
    (alt : Q) (given : nat) (v : GeoLocation) :
  nth_error objects given = Some v ->
  addLaunchPathPointObject objects path alt given
  = Normal (objects ++ [v], path ++ [mkPathPointObject alt (length objects)]).
Proof.
  intros Hv. unfold addLaunchPathPointObject, newGeoLocation.
  rewrite (elem_Some _ _ _ Hv). cbn [bind]. now destruct v.
Qed.

(** The coordinates of [rocketLocation] after the loop. *)
Lemma integrate_app_last {G : GeoModule} (rest : list DescentData) :
  forall previous current rocketLocation rate,
    last (map location
            (integrate previous (current :: rest) rocketLocation rate))
      rocketLocation
    = last (map location
              (integrate current rest
                 (fst (driftStep previous current rocketLocation rate))
                 (descentRate current)))
        (fst (driftStep previous current rocketLocation rate)).
Proof.
  intros previous current rocketLocation rate. cbn [integrate map].
  destruct (map location _) as [| l ls] eqn:E; [reflexivity |].
  change (last (l :: ls) rocketLocation
          = last (l :: ls) (fst (driftStep previous current rocketLocation rate))).
  apply last_any_default. discriminate.
Qed.

Section PathObjects.

Context {G : GeoModule}.
Variable rocketLocation : nat.
Variable base : nat.
Hypothesis rocketLocation_old : (rocketLocation < base)%nat.

(** The loop on the store computes the points of the loop on values.
    Every point gets an object of its own, allocated after [base]; the
    objects below [base] other than [rocketLocation] are not written. *)
Lemma integrateObjects_refines (rest : list DescentData) :
  forall previous rate objects path coordinates points,
    nth_error objects rocketLocation = Some coordinates ->
    (base <= length objects)%nat ->
    Forall (fun p => (base <= objectLocation p < length objects)%nat) path ->
    NoDup (map objectLocation path) ->
    readPath objects path = map Some points ->
    exists objects' path',
      integrateObjects previous rest rocketLocation rate objects path
      = Normal (objects', path')
      /\ readPath objects' path'
         = map Some (points ++ integrate previous rest coordinates rate)
      /\ Forall (fun p => (base <= objectLocation p < length objects')%nat) path'
      /\ NoDup (map objectLocation path')
      /\ map objectAltitude path'
         = map objectAltitude path ++ map stepAltitude rest
      /\ nth_error objects' rocketLocation
         = Some (last (map location (integrate previous rest coordinates rate))
                   coordinates)
      /\ (forall other,
            (other < base)%nat -> other <> rocketLocation ->
            nth_error objects' other = nth_error objects other).
Proof.
  induction rest as [| current rest IH];
    intros previous rate objects path coordinates points
      Hrocket Hbase Hpath Hnodup Hread.
  - exists objects, path. cbn [integrateObjects integrate map last].
    rewrite !app_nil_r. repeat split; auto.
  - cbn [integrateObjects]. rewrite (elem_Some _ _ _ Hrocket). cbn [bind].
    set (moved := fst (driftStep previous current coordinates rate)).
    set (objects1 := overwrite objects rocketLocation moved).
    assert (Hlen1 : length objects1 = length objects)
      by apply overwrite_length.
    assert (Hrocket1 : nth_error objects1 rocketLocation = Some moved).
    { apply overwrite_same. lia. }
    rewrite (add_point_object objects1 path (stepAltitude current)
               rocketLocation moved Hrocket1).
    cbn [bind].
    set (point := mkPathPointObject (stepAltitude current) (length objects1)).
    destruct (IH current (descentRate current) (objects1 ++ [moved])
                (path ++ [point]) moved
                (points ++ [mkLaunchPathPoint (stepAltitude current) moved]))
      as (objects' & path' & Hrun & Hread' & Hpath' & Hnodup' & Halts
          & Hfinal & Hold).
    + rewrite nth_error_app1 by lia. exact Hrocket1.
    + rewrite length_app. lia.
    + apply Forall_app. split.
      * eapply Forall_impl; [| exact Hpath]. cbn. intros p Hp.
        rewrite length_app, Hlen1. cbn. lia.
      * constructor; [| constructor]. cbn. rewrite length_app, Hlen1. cbn. lia.
    + rewrite map_app. cbn [map].
      apply NoDup_app;
        [exact Hnodup | constructor; [intros [] | constructor] |].
      intros r Hin [<- | []]. cbn in Hin.
      apply in_map_iff in Hin. destruct Hin as (p & Hp & Hin).
      rewrite Forall_forall in Hpath. specialize (Hpath p Hin). cbn in Hpath.
      rewrite Hlen1 in Hp. lia.
    + rewrite readPath_app, map_app. f_equal.
      * rewrite readPath_alloc.
        -- unfold objects1. rewrite readPath_overwrite; [exact Hread |].
           eapply Forall_impl; [| exact Hpath]. cbn. intros p Hp. lia.
        -- eapply Forall_impl; [| exact Hpath]. cbn. intros p Hp.
           rewrite Hlen1. lia.
      * cbn. rewrite nth_error_app2, Nat.sub_diag by lia. reflexivity.
    + exists objects', path'. split; [exact Hrun |].
      split; [| split; [| split; [| split; [| split]]]].
      * rewrite Hread'. cbn [integrate]. fold moved.
        now rewrite <- app_assoc.
      * exact Hpath'.
      * exact Hnodup'.
      * rewrite Halts, map_app. cbn. now rewrite <- app_assoc.
      * rewrite Hfinal. f_equal. symmetry. apply integrate_app_last.
      * intros other Hlt Hneq. rewrite (Hold other Hlt Hneq).
        rewrite nth_error_app1 by lia.
        unfold objects1. apply overwrite_other. congruence.
Qed.

End PathObjects.

(** ** The launch path of a simulated hour *)

Section PathShape.

Context {G : GeoModule}.

Lemma assemblePath_refines (descentList : list DescentData)
    (launchObject rocketObject : nat) (rocketAltitude : Q) (objects : store)
    (launchLocation apogeeLocation : GeoLocation) :
  nth_error objects launchObject = Some launchLocation ->
  nth_error objects rocketObject = Some apogeeLocation ->
  exists objects' path,
    assemblePath descentList launchObject rocketObject rocketAltitude objects
    = Normal (objects', path)
    /\ readPath objects' path
       = map Some
           (mkLaunchPathPoint 0 launchLocation
            :: mkLaunchPathPoint rocketAltitude apogeeLocation
            :: descentPath descentList apogeeLocation)
    /\ NoDup (map objectLocation path)
    /\ Forall (fun p => (length objects <= objectLocation p < length objects')%nat)
         path
    /\ nth_error objects' rocketObject
       = Some (last (map location (descentPath descentList apogeeLocation))
                 apogeeLocation).
Proof.
  intros Hlaunch Hrocket.
  assert (Hr : (rocketObject < length objects)%nat).
  { apply nth_error_Some. rewrite Hrocket. discriminate. }
  unfold assemblePath.
  rewrite (add_point_object objects [] 0 launchObject launchLocation Hlaunch).
  cbn [bind app].
  set (objects1 := objects ++ [launchLocation]).
  assert (Hrocket1 : nth_error objects1 rocketObject = Some apogeeLocation).
  { unfold objects1. now rewrite nth_error_app1. }
  rewrite (add_point_object objects1 _ rocketAltitude rocketObject
             apogeeLocation Hrocket1).
  cbn [bind app].
  set (objects2 := objects1 ++ [apogeeLocation]).
  set (path2 := [mkPathPointObject 0 (length objects);
                 mkPathPointObject rocketAltitude (length objects1)]).
  assert (Hlen1 : length objects1 = S (length objects)).
  { unfold objects1. rewrite length_app. cbn. lia. }
  assert (Hlen2 : length objects2 = S (S (length objects))).
  { unfold objects2. rewrite length_app, Hlen1. cbn. lia. }
  assert (Hrocket2 : nth_error objects2 rocketObject = Some apogeeLocation).
  { unfold objects2. rewrite nth_error_app1 by lia. exact Hrocket1. }
  assert (Hread2 : readPath objects2 path2
                   = map Some [mkLaunchPathPoint 0 launchLocation;
                               mkLaunchPathPoint rocketAltitude apogeeLocation]).
  { unfold readPath, path2, objects2, objects1. cbn [map objectLocation objectAltitude].
    rewrite nth_error_app1 by (rewrite length_app; cbn; lia).
    rewrite nth_error_app2, Nat.sub_diag by lia.
    rewrite nth_error_app2 by (rewrite length_app; cbn; lia).
    rewrite length_app. cbn [length].
    replace (length objects + 1 - (length objects + 1))%nat with 0%nat by lia.
    reflexivity. }
  assert (Hpath2 : Forall (fun p => (length objects <= objectLocation p
                                     < length objects2)%nat) path2).
  { unfold path2. repeat constructor; cbn; lia. }
  assert (Hnodup2 : NoDup (map objectLocation path2)).
  { unfold path2. cbn. constructor; [| constructor; [intros [] | constructor]].
    intros [E | []]. lia. }
  destruct descentList as [| first rest].
  - exists objects2, path2. cbn [descentPath map last].
    repeat split; assumption.
  - destruct (integrateObjects_refines rocketObject (length objects) Hr rest
                first (descentRate first) objects2 path2 apogeeLocation
                [mkLaunchPathPoint 0 launchLocation;
                 mkLaunchPathPoint rocketAltitude apogeeLocation]
                Hrocket2 ltac:(lia) Hpath2 Hnodup2 Hread2)
      as (objects' & path' & Hrun & Hread & Hpath & Hnodup & _ & Hfinal & _).
    exists objects', path'. cbn [descentPath].
    repeat split; assumption.
Qed.

Lemma integrate_altitudes (rest : list DescentData) :
  forall previous rocketLocation rate,
    map pointAltitude (integrate previous rest rocketLocation rate)
    = map stepAltitude rest.
Proof.
  induction rest as [| current rest IH]; intros previous rocketLocation rate;
    cbn [integrate map]; [reflexivity |].
  now rewrite IH.
Qed.

Lemma simulated_hour_built (inputs : LaunchInputs)
    (launchLocation : GeoLocation) (windForecast : WindForecastData)
    (hour : Z) (launchSimulation : LaunchSimulationData) :
  simulateHour inputs launchLocation windForecast hour
  = Normal (Some launchSimulation) ->
  exists descentList rocketAltitude,
    buildDescentList (windData windForecast) (mainDeployAltitude inputs)
      (Fin (mainDescentRate inputs)) (usingDualDeployoment inputs)
      (Fin (drogueDecentRate inputs))
      (snd (adjustedApogee inputs launchLocation windForecast))
    = Normal (Some (descentList, rocketAltitude)).
Proof.
  unfold simulateHour.
  destruct (adjustedApogee inputs launchLocation windForecast) as [l a].
  cbn [snd].
  destruct (buildDescentList _ _ _ _ _ _) as [[[dl alt] |] |]; cbn;
    try discriminate.
  intros _. now exists dl, alt.
Qed.

Lemma descending_altitudes (steps : list DescentData) :
  StronglySorted (fun a b => stepAltitude b < stepAltitude a) steps ->
  StronglySorted (fun a b => b < a) (map stepAltitude steps).
Proof.
  induction 1 as [| s steps Hs IH Hall]; cbn; constructor; [exact IH |].
  apply Forall_map. exact Hall.
Qed.

End PathShape.

(** C9, as amended.  For every hour simulated on a profile sorted by
    strictly increasing altitude, the launch path is: the launch site at
    altitude 0, the (possibly weathercock-adjusted) apogee altitude and
    location, then one point per descent entry after the apogee entry, at
    that entry's altitude.  The last point is at the altitude of the
    lowest wind sample, at the final coordinates of the rocket location.
    From the apogee on, the altitudes strictly descend when the apogee is
    above the lowest sample and above the main deployment altitude.  On
    the store, every point holds a GeoLocation object of its own,
    allocated when the point is appended and distinct from the launch
    site, the rocket location and the objects of the other points:
    overwriting the rocket location afterwards changes no stored
    point. *)
Theorem flight_path_shape {G : GeoModule} (inputs : LaunchInputs)
    (launchLocation : GeoLocation) (windForecast : WindForecastData)
    (hour : Z) (launchSimulation : LaunchSimulationData)
    (ground : WindAtAltitude) :
  ascendingByAltitude (windData windForecast) ->
  nth_error (windData windForecast) 0 = Some ground ->
  simulateHour inputs launchLocation windForecast hour
  = Normal (Some launchSimulation) ->
  exists descentList front landing,
    FlightPathShape inputs launchLocation windForecast launchSimulation ground
      descentList front landing.
Proof.
  intros Hsorted Hground Hsim. unfold FlightPathShape.
  set (apogeeLocation := fst (adjustedApogee inputs launchLocation windForecast)).
  set (A := snd (adjustedApogee inputs launchLocation windForecast)).
  cbv zeta.
  assert (Hne : windData windForecast <> [])
    by (intros E; rewrite E in Hground; discriminate).
  destruct (find_spec (windData windForecast) A Hne) as (Hrange & Hbelow & Hstop).
  assert (Hfound : (findWindIndex (windData windForecast) A
                    < length (windData windForecast))%nat).
  { destruct (Nat.eq_dec (findWindIndex (windData windForecast) A)
                (length (windData windForecast))) as [E | Hneq]; [| lia].
    exfalso.
    destruct (simulated_hour_built _ _ _ _ _ Hsim) as (dl & alt & Hbuilt).
    fold A in Hbuilt.
    unfold buildDescentList, generateDescentList in Hbuilt. cbv zeta in Hbuilt.
    rewrite E, Nat.eqb_refl in Hbuilt. cbn in Hbuilt. discriminate. }
  destruct (build_sorted (windData windForecast) (mainDeployAltitude inputs)
              (mainDescentRate inputs) Hsorted (usingDualDeployoment inputs)
              (drogueDecentRate inputs) A Hfound)
    as (first & steps & Hbuild & Halt & Hrate & Hwalk).
  set (f := (findWindIndex (windData windForecast) A - 1)%nat) in *.
  destruct (built_hour_has_result inputs launchLocation windForecast hour
              (first :: steps) A Hbuild) as (s & Hs & Hpath).
  rewrite Hs in Hsim. injection Hsim as <-.
  fold apogeeLocation in Hpath.
  pose proof (integrate_altitudes steps first apogeeLocation (descentRate first))
    as Halts.
  destruct (walk_ends_at_ground _ _ _ Hsorted _ _ _ ground Hwalk Hground)
    as (before & lowest & Hsteps & Hlowest).
  destruct (last_or_empty
              (integrate first steps apogeeLocation (descentRate first)))
    as [E | (front & landing & E)].
  { rewrite E in Halts. rewrite Hsteps in Halts. cbn in Halts.
    rewrite map_app in Halts. now destruct (map stepAltitude before). }
  assert (Hlanding : pointAltitude landing = stepAltitude lowest).
  { rewrite E, Hsteps, !map_app in Halts. cbn in Halts.
    apply app_inj_tail in Halts. now destruct Halts. }
  exists (first :: steps),
         (mkLaunchPathPoint 0 launchLocation
          :: mkLaunchPathPoint A apogeeLocation :: front),
         landing.
  split; [exact Hbuild |]. split; [exact Hpath |].
  split; [exact Halts |].
  split; [rewrite Hpath; cbn [descentPath]; now rewrite E |].
  split; [now rewrite Hlanding |]. split.
  - (* strictly descending from the apogee on *)
    intros Hlow Hdeploy. rewrite Hpath. cbn [tl map descentPath].
    rewrite Halts. constructor.
    + apply descending_altitudes.
      exact (walk_descending _ _ _ Hsorted _ _ _ Hwalk).
    + apply Forall_map.
      destruct (nth_error (windData windForecast) f) as [lo |] eqn:Hlo;
        [| apply nth_error_None in Hlo; unfold f in Hlo; lia].
      assert (Hfloor : altitude lo < A).
      { destruct (Nat.eq_dec f 0) as [E0 | Hpos].
        - rewrite E0 in Hlo. rewrite Hground in Hlo. injection Hlo as <-.
          exact Hlow.
        - apply (Hbelow f lo); [unfold f in *; lia | exact Hlo]. }
      eapply Forall_impl;
        [| exact (walk_capped _ _ _ Hsorted _ _ _ lo Hwalk Hlo)].
      cbn. intros step [Hle | ->]; lra.
  - (* the objects of the stored points *)
    intros objects launchObject rocketObject Hlaunch Hrocket.
    destruct (assemblePath_refines (first :: steps) launchObject rocketObject A
                objects launchLocation apogeeLocation Hlaunch Hrocket)
      as (objects' & path & Hrun & Hread & Hnodup & Hfresh & Hfinal).
    assert (Hr : (rocketObject < length objects)%nat).
    { apply nth_error_Some. rewrite Hrocket. discriminate. }
    exists objects', path. split; [exact Hrun |].
    split; [now rewrite Hpath |]. split; [exact Hnodup |]. split; [| split].
    + eapply Forall_impl; [| exact Hfresh]. cbn. intros p Hp. lia.
    + rewrite Hfinal. cbn [descentPath]. rewrite E, map_app. cbn [map].
      now rewrite last_last.
    + intros coordinates. apply readPath_overwrite.
      eapply Forall_impl; [| exact Hfresh]. cbn. intros p Hp. lia.
Qed.

Lemma flight_path_shape_witness :
  exists descentList front landing,
    @FlightPathShape gridGeo dualInputs sampleSite dualForecast dualHour
      (mkWindAtAltitude 0 5 0) descentList front landing.
Proof.
  apply (@flight_path_shape gridGeo dualInputs sampleSite dualForecast 9
           dualHour (mkWindAtAltitude 0 5 0)).
  - exact threeSamples_ascending.
  - reflexivity.
  - vm_compute. reflexivity.
Defined.

(** C9 fails as stated.  With a lowest sample at 100 ft the last point
    of the path is at 100 ft, not at 0.  With an apogee and a main
    deployment both at 700 ft, which the form accepts, the apogee point
    and the first descent point are both at 700 ft: the altitudes do not
    strictly descend. *)
Lemma flight_path_need_not_end_at_zero :
  (exists launchSimulation front landing,
      @calculateLandingPlots gridGeo
        (mkFormValues oneHour (Fin 500) false blankRows (Fin 20) false NaN
           NaN NaN)
        (Some sampleSite) 9 [Some raisedForecast]
      = Normal [launchSimulation]
      /\ map pointAltitude (launchPath launchSimulation) = [0; 500; 100]
      /\ launchPath launchSimulation = front ++ [landing]
      /\ ~ pointAltitude landing == 0)
  /\ (exists launchSimulation,
        @calculateLandingPlots gridGeo
          (mkFormValues oneHour (Fin 700) false blankRows (Fin 20) true
             (Fin 700) (Fin 75) NaN)
          (Some sampleSite) 9 [Some dualForecast]
        = Normal [launchSimulation]
        /\ map pointAltitude (launchPath launchSimulation)
           = [0; 700; 700; 500; 0]
        /\ ~ StronglySorted (fun a b => b < a)
               (map pointAltitude (tl (launchPath launchSimulation)))).
Proof.
  split.
  - eexists. exists [mkLaunchPathPoint 0 sampleSite;
                     mkLaunchPathPoint 500 sampleSite]. eexists.
    split; [vm_compute; reflexivity |].
    split; [reflexivity |]. split; [reflexivity |].
    cbn. discriminate.
  - eexists. split; [vm_compute; reflexivity |]. split; [reflexivity |].
    cbn. intros Hsorted. apply StronglySorted_inv in Hsorted.
    destruct Hsorted as [_ Hall]. apply Forall_inv in Hall.
    revert Hall. vm_compute. discriminate.
Qed.

(* ------------------------------------------------------------------ *)
(** ** Further properties of the band queries and of driftWithWind *)

Lemma between_compat (a a' x x' b b' : Q) :
  a == a' -> x == x' -> b == b' -> between a x b -> between a' x' b'.
Proof.
  intros Ha Hx Hb. unfold between. rewrite Ha, Hx, Hb. trivial.
Qed.

Lemma scaled_between (a b p : Q) :
  0 <= p <= 1 -> between a (a + p * (b - a)) b.
Proof.
  intros [Hp0 Hp1]. unfold between.
  destruct (Qlt_le_dec b a) as [Hba | Hab].
  - right. split; nra.
  - left. split; nra.
Qed.

(** X1.  Inside a band, for a band percentage between 0 and 1, the
    speed returned by getAverageWindSpeed lies between the speeds of the
    two samples of the band, and no farther from the speed at the floor
    than half the difference of the two. *)
Theorem average_speed_within_band (bandPercentage : Q)
    (windData : list WindAtAltitude) (floorIndex : nat)
    (lo hi : WindAtAltitude) :
  0 <= bandPercentage <= 1 ->
  nth_error windData floorIndex = Some lo ->
  nth_error windData (S floorIndex) = Some hi ->
  exists average,
    getAverageWindSpeed bandPercentage windData (Z.of_nat floorIndex)
    = Normal average
    /\ between (windSpeed lo) average (windSpeed hi)
    /\ Qabs (average - windSpeed lo) <= Qabs (windSpeed hi - windSpeed lo) / 2.
Proof.
  intros Hp Hlo Hhi.
  destruct (band_in_bounds windData floorIndex lo hi Hlo Hhi)
    as (Hbounds & Hread_lo & Hread_hi).
  unfold getAverageWindSpeed.
  rewrite (percentage_in_range bandPercentage Hp), Hbounds.
  rewrite Hread_lo. cbn [bind]. rewrite Hread_hi. cbn [bind].
  eexists. split; [reflexivity |].
  destruct Hp as [Hp0 Hp1].
  set (s := windSpeed lo). set (t := windSpeed hi).
  assert (Hmid : (s + (s + bandPercentage * (t - s))) / 2.0
                 == s + (bandPercentage / 2) * (t - s)) by (field).
  split.
  - apply (between_compat s s (s + (bandPercentage / 2) * (t - s)) _ t t);
      [reflexivity | symmetry; exact Hmid | reflexivity |].
    apply scaled_between.
    split; [qlra | qlra].
  - rewrite Hmid.
    destruct (Qlt_le_dec t s) as [Hts | Hst].
    + rewrite (Qabs_neg (t - s)) by lra.
      rewrite Qabs_neg by (divide_by_numerals; nra).
      divide_by_numerals; nra.
    + rewrite (Qabs_pos (t - s)) by lra.
      rewrite Qabs_pos by (divide_by_numerals; nra).
      divide_by_numerals; nra.
Qed.

Lemma average_speed_within_band_witness :
  exists average,
    getAverageWindSpeed (3 # 4)
      [mkWindAtAltitude 0 12 0; mkWindAtAltitude 1000 4 0] (Z.of_nat 0)
    = Normal average
    /\ between 12 average 4
    /\ Qabs (average - 12) <= Qabs (4 - 12) / 2.
Proof.
  apply (average_speed_within_band (3 # 4)
           [mkWindAtAltitude 0 12 0; mkWindAtAltitude 1000 4 0] 0
           (mkWindAtAltitude 0 12 0) (mkWindAtAltitude 1000 4 0)).
  - split; lra.
  - reflexivity.
  - reflexivity.
Defined.

(** X2.  When the directions of the two samples of a band lie in
    [0, 360), so does the direction returned by getAverageWindDirection
    for a band percentage between 0 and 1; and the direction averaged
    between two descent entries with directions in [0, 360) lies in
    [0, 360) too. *)
Theorem average_direction_in_compass_range :
  (forall (bandPercentage : Q) (windData : list WindAtAltitude)
          (floorIndex : nat) (lo hi : WindAtAltitude),
      0 <= bandPercentage <= 1 ->
      nth_error windData floorIndex = Some lo ->
      nth_error windData (S floorIndex) = Some hi ->
      0 <= windDirection lo < 360 ->
      0 <= windDirection hi < 360 ->
      exists mean,
        getAverageWindDirection bandPercentage windData (Z.of_nat floorIndex)
        = Normal mean
        /\ 0 <= mean < 360)
  /\ (forall previous current : DescentData,
        0 <= stepWindDirection previous < 360 ->
        0 <= stepWindDirection current < 360 ->
        0 <= averageStepDirection previous current < 360).
Proof.
  split.
  - intros p windData i lo hi Hp Hlo Hhi Hdlo Hdhi.
    destruct (band_in_bounds windData i lo hi Hlo Hhi)
      as (Hbounds & Hread_lo & Hread_hi).
    assert (Htarget :
              0 <= windDirection lo + p * (windDirection hi - windDirection lo)
              < 360).
    { destruct (scaled_between (windDirection lo) (windDirection hi) p Hp)
        as [[H1 H2] | [H1 H2]]; split; lra. }
    unfold getAverageWindDirection.
    rewrite (percentage_in_range p Hp), Hbounds.
    rewrite Hread_lo. cbn [bind]. rewrite Hread_hi. cbn [bind]. cbv zeta.
    destruct (Qltb (Qabs _) 180.0).
    + eexists. split; [reflexivity |]. split; qlra.
    + destruct (Qltb _ 0.0) eqn:Hneg;
        [apply Qltb_true in Hneg | apply Qltb_false in Hneg];
        (eexists; split; [reflexivity |]; split; qlra).
  - intros previous current Hprev Hcur.
    unfold averageStepDirection. cbv zeta.
    destruct (Qltb (Qabs _) 180.0).
    + split; qlra.
    + destruct (Qltb _ 0.0) eqn:Hneg;
        [apply Qltb_true in Hneg | apply Qltb_false in Hneg]; split; qlra.
Qed.

Lemma average_direction_in_compass_range_witness :
  (exists mean,
      getAverageWindDirection (1 # 2)
        [mkWindAtAltitude 0 5 350; mkWindAtAltitude 1000 9 10] (Z.of_nat 0)
      = Normal mean
      /\ 0 <= mean < 360)
  /\ 0 <= averageStepDirection (mkDescentData 1000 20 5 350)
            (mkDescentData 0 20 9 10) < 360.
Proof.
  destruct average_direction_in_compass_range as [Hband Hstep].
  split.
  - apply (Hband (1 # 2)
             [mkWindAtAltitude 0 5 350; mkWindAtAltitude 1000 9 10] 0%nat
             (mkWindAtAltitude 0 5 350) (mkWindAtAltitude 1000 9 10)).
    + split; lra.
    + reflexivity.
    + reflexivity.
    + cbn; split; lra.
    + cbn; split; lra.
  - apply (Hstep (mkDescentData 1000 20 5 350) (mkDescentData 0 20 9 10)).
    + cbn; split; lra.
    + cbn; split; lra.
Defined.

Lemma Qabs_opp_eq (x : Q) : Qabs (- x) = Qabs x.
Proof.
  destruct x as [n d]. unfold Qabs, Qopp. cbn [Qnum Qden].
  rewrite Z.abs_opp. reflexivity.
Qed.

Lemma Qeqb_zero_opp (x : Q) : Qeqb 0 (- x) = Qeqb 0 x.
Proof.
  destruct (Qeqb 0 x) eqn:Hx.
  - apply Qeqb_true in Hx. apply Qeqb_true. lra.
  - apply Qeqb_false in Hx. apply Qeqb_false. intro H. apply Hx. lra.
Qed.

(** X3.  driftWithWind does not look at the sign of the descent rate: a
    rate and its opposite move the rocket to the same coordinates and
    return the same distance. *)
Theorem drift_ignores_sign_of_rate {G : GeoModule}
    (rocketLocation : GeoLocation)
    (windSpeed windDirection rate descentDistance : Q) :
  driftWithWind rocketLocation windSpeed windDirection (Fin (- rate))
    descentDistance
  = driftWithWind rocketLocation windSpeed windDirection (Fin rate)
      descentDistance.
Proof.
  unfold driftWithWind.
  rewrite Qeqb_zero_opp, Qabs_opp_eq. reflexivity.
Qed.

(** X4.  For a descent rate other than 0 and a wind direction in
    [0, 360), driftWithWind moves the rocket along the opposite bearing,
    which lies in [0, 360) too, and returns the distance covered at the
    wind speed (knots, converted to feet per second) during the time the
    descent takes; that distance is not negative when neither the wind
    speed nor the descent distance is. *)
Theorem drift_moves_downwind {G : GeoModule} (rocketLocation : GeoLocation)
    (windSpeed windDirection rate descentDistance : Q) :
  ~ rate == 0 ->
  0 <= windDirection < 360 ->
  exists bearing driftDistance,
    driftWithWind rocketLocation windSpeed windDirection (Fin rate)
      descentDistance
    = (moveAlongBearingKilometers rocketLocation (feetToMeters driftDistance)
         bearing,
       Some driftDistance)
    /\ 0 <= bearing < 360
    /\ (bearing == windDirection + 180 \/ bearing == windDirection - 180)
    /\ driftDistance * Qabs rate == descentDistance * (windSpeed * 1.68781)
    /\ (0 <= windSpeed -> 0 <= descentDistance -> 0 <= driftDistance).
Proof.
  intros Hrate Hdir.
  assert (Hzero : Qeqb 0 rate = false).
  { apply Qeqb_false. intro H. apply Hrate. lra. }
  assert (Habs : 0 < Qabs rate).
  { destruct (Qlt_le_dec rate 0) as [Hneg | Hpos].
    - rewrite Qabs_neg by lra. lra.
    - rewrite Qabs_pos by lra.
      destruct (Qeq_dec rate 0) as [H | H]; [contradiction |].
      apply Qle_lteq in Hpos. destruct Hpos as [Hlt | Heq]; [exact Hlt |].
      exfalso. apply H. symmetry. exact Heq. }
  unfold driftWithWind. rewrite Hzero.
  eexists. eexists. split; [reflexivity |].
  split; [| split; [| split]].
  - destruct (Qltb windDirection 180) eqn:Hhalf;
      [apply Qltb_true in Hhalf | apply Qltb_false in Hhalf]; split; lra.
  - destruct (Qltb windDirection 180); [left | right]; reflexivity.
  - field. intro H. rewrite H in Habs. lra.
  - intros Hspeed Hdistance.
    apply Qmult_le_0_compat.
    + apply Qle_shift_div_l; [exact Habs | lra].
    + apply Qmult_le_0_compat; [exact Hspeed | lra].
Qed.

Lemma drift_moves_downwind_witness :
  exists bearing driftDistance,
    @driftWithWind gridGeo sampleSite 10 270 (Fin (-20)) 1000
    = (@moveAlongBearingKilometers gridGeo sampleSite
         (@feetToMeters gridGeo driftDistance) bearing,
       Some driftDistance)
    /\ 0 <= bearing < 360
    /\ (bearing == 270 + 180 \/ bearing == 270 - 180)
    /\ driftDistance * Qabs (-20) == 1000 * (10 * 1.68781)
    /\ (0 <= 10 -> 0 <= 1000 -> 0 <= driftDistance).
Proof.
  apply (@drift_moves_downwind gridGeo sampleSite 10 270 (-20) 1000).
  - intro H. vm_compute in H. discriminate H.
  - split; lra.
Defined.

(* ------------------------------------------------------------------ *)
(** ** Further properties of the weathercock adjustment *)

Lemma interpolate_formula (v sL sU tL tU : Q) :
  ~ sU == sL ->
  linearInterpolate v sL sU tL tU
  == tL + ((v - sL) / (sU - sL)) * (tU - tL).
Proof.
  intros Hrange. unfold linearInterpolate.
  destruct (Qeqb 0 (sU - sL)) eqn:Hzero.
  - apply Qeqb_true in Hzero. exfalso. apply Hrange. lra.
  - field. intro H. apply Hrange. lra.
Qed.

Lemma ratio_of_between (v sL sU : Q) :
  ~ sU == sL ->
  between sL v sU ->
  0 <= (v - sL) / (sU - sL) <= 1.
Proof.
  intros Hrange [[H1 H2] | [H1 H2]].
  - assert (Hpos : 0 < sU - sL).
    { destruct (Qlt_le_dec sL sU) as [H | H]; [lra |].
      exfalso. apply Hrange. lra. }
    split.
    + apply Qle_shift_div_l; [exact Hpos | lra].
    + apply Qle_shift_div_r; [exact Hpos | lra].
  - assert (Hpos : 0 < sL - sU).
    { destruct (Qlt_le_dec sU sL) as [H | H]; [lra |].
      exfalso. apply Hrange. lra. }
    assert (Hflip : (v - sL) / (sU - sL) == (sL - v) / (sL - sU)).
    { field. split; intro H; apply Hrange; lra. }
    rewrite Hflip. split.
    + apply Qle_shift_div_l; [exact Hpos | lra].
    + apply Qle_shift_div_r; [exact Hpos | lra].
Qed.

(** X5.  linearInterpolate over a source range that is not empty maps
    the two ends of the source range to the two ends of the target
    range, and a source value between the ends, whichever of them is the
    larger, to a value between the ends of the target range. *)
Theorem interpolation_stays_between
    (sourceValue sourceLower sourceUpper targetLower targetUpper : Q) :
  ~ sourceUpper == sourceLower ->
  (sourceValue == sourceLower ->
   linearInterpolate sourceValue sourceLower sourceUpper targetLower targetUpper
   == targetLower)
  /\ (sourceValue == sourceUpper ->
      linearInterpolate sourceValue sourceLower sourceUpper targetLower
        targetUpper
      == targetUpper)
  /\ (between sourceLower sourceValue sourceUpper ->
      between targetLower
        (linearInterpolate sourceValue sourceLower sourceUpper targetLower
           targetUpper)
        targetUpper).
Proof.
  intros Hrange.
  pose proof (interpolate_formula sourceValue sourceLower sourceUpper
                targetLower targetUpper Hrange) as Hformula.
  split; [| split].
  - intros Hat. rewrite Hformula, Hat. field.
    intro H. apply Hrange. lra.
  - intros Hat. rewrite Hformula, Hat. field.
    intro H. apply Hrange. lra.
  - intros Hinside.
    apply (between_compat targetLower targetLower
             (targetLower
              + (sourceValue - sourceLower) / (sourceUpper - sourceLower)
                * (targetUpper - targetLower))
             _ targetUpper targetUpper);
      [reflexivity | symmetry; exact Hformula | reflexivity |].
    apply scaled_between. apply ratio_of_between; assumption.
Qed.

Lemma interpolation_stays_between_witness :
  (5 == 10 -> linearInterpolate 5 10 0 90 0 == 90)
  /\ (5 == 0 -> linearInterpolate 5 10 0 90 0 == 0)
  /\ (between 10 5 0 -> between 90 (linearInterpolate 5 10 0 90 0) 0).
Proof.
  apply (interpolation_stays_between 5 10 0 90 0).
  intro H. vm_compute in H. discriminate H.
Defined.

Lemma between_sym (a x b : Q) : between a x b -> between b x a.
Proof. unfold between. tauto. Qed.

Lemma between_refl (a x : Q) : x == a -> between a x a.
Proof. intros H. left. rewrite H. split; apply Qle_refl. Qed.

Lemma interpolate_at_lower (v sL sU tL tU : Q) :
  v == sL -> linearInterpolate v sL sU tL tU == tL.
Proof.
  intros Hat. unfold linearInterpolate.
  destruct (Qeqb 0 (sU - sL)) eqn:Hzero; [reflexivity |].
  apply Qeqb_false in Hzero. rewrite Hat. field.
  intro H. apply Hzero. lra.
Qed.

Lemma interpolate_at_upper (v sL sU tL tU : Q) :
  ~ sU == sL -> v == sU -> linearInterpolate v sL sU tL tU == tU.
Proof.
  intros Hrange Hat. rewrite interpolate_formula by exact Hrange.
  rewrite Hat. field. intro H. apply Hrange. lra.
Qed.

Lemma interpolate_between (v sL sU tL tU : Q) :
  ~ sU == sL ->
  between sL v sU ->
  between tL (linearInterpolate v sL sU tL tU) tU.
Proof.
  intros Hrange Hinside.
  apply (between_compat tL tL (tL + (v - sL) / (sU - sL) * (tU - tL)) _ tU tU);
    [reflexivity
    | symmetry; apply interpolate_formula; exact Hrange
    | reflexivity |].
  apply scaled_between. apply ratio_of_between; assumption.
Qed.

Lemma search_at_entry {G : GeoModule} (apogeeLocation : GeoLocation)
    (windDirection windSpeed : Q) (rest : list WeathercockWindData) :
  forall previous entry,
    strictlyAscendingBySpeed (previous :: rest) ->
    rest <> [] ->
    In entry (previous :: rest) ->
    windSpeed == wcWindSpeed entry ->
    exists distance altitude,
      weathercockSearch apogeeLocation windDirection windSpeed previous rest
      = (moveAlongBearing apogeeLocation (feetToMeters distance) windDirection,
         altitude)
      /\ distance == upwindDistance entry
      /\ altitude == apogee entry.
Proof.
  induction rest as [| current rest' IH];
    intros previous entry Hsorted Hrest Hin Hat.
  - contradiction.
  - apply StronglySorted_inv in Hsorted. destruct Hsorted as [Hsorted' Hall].
    pose proof (Forall_inv Hall) as Hstep. cbn beta in Hstep.
    cbn [weathercockSearch].
    destruct (Qleb windSpeed (wcWindSpeed current)) eqn:Hreach.
    + apply Qleb_true in Hreach.
      eexists. eexists. split; [reflexivity |].
      destruct Hin as [Hin | [Hin | Hin]].
      * subst entry.
        split; apply interpolate_at_upper; try exact Hat; intro H; lra.
      * subst entry. split; apply interpolate_at_lower; exact Hat.
      * exfalso.
        apply StronglySorted_inv in Hsorted'. destruct Hsorted' as [_ Hlater].
        rewrite Forall_forall in Hlater. specialize (Hlater entry Hin).
        cbn beta in Hlater. lra.
    + apply Qleb_false in Hreach.
      destruct Hin as [Hin | Hin].
      * subst entry. exfalso. lra.
      * destruct rest' as [| next rest''].
        -- destruct Hin as [Hin | []]. subst entry. exfalso. lra.
        -- apply (IH current entry Hsorted'); [discriminate | exact Hin | exact Hat].
Qed.

(** X6.  On a table of two entries or more whose wind speeds strictly
    increase, the adjustment of main.js at the wind speed of an entry
    returns the apogee of that entry and moves the apogee location by
    the up wind distance of that entry. *)
Theorem adjustment_reproduces_table {G : GeoModule}
    (apogeeLocation : GeoLocation) (windDirection windSpeed : Q)
    (weathercockData : list WeathercockWindData)
    (entry : WeathercockWindData) :
  strictlyAscendingBySpeed weathercockData ->
  (2 <= length weathercockData)%nat ->
  In entry weathercockData ->
  windSpeed == wcWindSpeed entry ->
  exists distance altitude,
    weathercockAdjustment apogeeLocation windDirection windSpeed
      weathercockData
    = (moveAlongBearing apogeeLocation (feetToMeters distance) windDirection,
       altitude)
    /\ distance == upwindDistance entry
    /\ altitude == apogee entry.
Proof.
  intros Hsorted Hlength Hin Hat.
  destruct weathercockData as [| first rest]; [cbn in Hlength; lia |].
  cbn [weathercockAdjustment].
  apply (search_at_entry apogeeLocation windDirection windSpeed rest first
           entry Hsorted); [| exact Hin | exact Hat].
  intro H. subst rest. cbn in Hlength. lia.
Qed.

Lemma adjustment_reproduces_table_witness :
  exists distance altitude,
    @weathercockAdjustment gridGeo sampleSite 270 5 sampleTable
    = (@moveAlongBearing gridGeo sampleSite (@feetToMeters gridGeo distance)
         270,
       altitude)
    /\ distance == 40
    /\ altitude == 980.
Proof.
  apply (@adjustment_reproduces_table gridGeo sampleSite 270 5 sampleTable
           (mkWeathercockWindData 5 40 980)).
  - unfold strictlyAscendingBySpeed, sampleTable.
    repeat (apply SSorted_cons;
            [| repeat (apply Forall_cons; [cbn; lra |]); apply Forall_nil]).
    apply SSorted_nil.
  - cbn. lia.
  - cbn. right. left. reflexivity.
  - reflexivity.
Defined.

Lemma search_brackets {G : GeoModule} (apogeeLocation : GeoLocation)
    (windDirection windSpeed : Q) (rest : list WeathercockWindData) :
  forall previous,
    wcWindSpeed previous < windSpeed ->
    (exists reached, In reached rest /\ windSpeed <= wcWindSpeed reached) ->
    exists before lower upper after distance altitude,
      previous :: rest = before ++ lower :: upper :: after
      /\ Forall (fun passed => wcWindSpeed passed < windSpeed) before
      /\ wcWindSpeed lower < windSpeed <= wcWindSpeed upper
      /\ weathercockSearch apogeeLocation windDirection windSpeed previous rest
         = (moveAlongBearing apogeeLocation (feetToMeters distance)
              windDirection,
            altitude)
      /\ between (upwindDistance lower) distance (upwindDistance upper)
      /\ between (apogee lower) altitude (apogee upper).
Proof.
  induction rest as [| current rest' IH];
    intros previous Hbelow (reached & Hin & Hreached).
  - contradiction.
  - cbn [weathercockSearch].
    destruct (Qleb windSpeed (wcWindSpeed current)) eqn:Hstop.
    + apply Qleb_true in Hstop.
      exists [], previous, current, rest'.
      eexists. eexists.
      split; [reflexivity |].
      split; [apply Forall_nil |].
      split; [split; assumption |].
      split; [reflexivity |].
      split; apply between_sym; apply interpolate_between;
        try (intro H; lra); right; split; lra.
    + apply Qleb_false in Hstop.
      destruct Hin as [Hin | Hin]; [subst reached; exfalso; lra |].
      destruct (IH current Hstop (ex_intro _ reached (conj Hin Hreached)))
        as (before & lower & upper & after & distance & altitude
            & Hsplit & Hpassed & Hbracket & Hsearch & Hdistance & Haltitude).
      exists (previous :: before), lower, upper, after, distance, altitude.
      split; [cbn [app]; rewrite Hsplit; reflexivity |].
      split; [apply Forall_cons; assumption |].
      split; [exact Hbracket |].
      split; [exact Hsearch |].
      split; assumption.
Qed.

(** X7.  For a wind speed above the speed of the first entry of the
    table and not above the speed of some later entry, the adjustment of
    main.js stops at the first pair of neighbouring entries that
    encloses the wind speed: every entry before the pair is slower than
    the wind, and the returned apogee and the distance moved lie between
    the values of the two entries. *)
Theorem adjustment_interpolates_bracket {G : GeoModule}
    (apogeeLocation : GeoLocation) (windDirection windSpeed : Q)
    (first : WeathercockWindData) (rest : list WeathercockWindData) :
  wcWindSpeed first < windSpeed ->
  (exists reached, In reached rest /\ windSpeed <= wcWindSpeed reached) ->
  exists before lower upper after distance altitude,
    first :: rest = before ++ lower :: upper :: after
    /\ Forall (fun passed => wcWindSpeed passed < windSpeed) before
    /\ wcWindSpeed lower < windSpeed <= wcWindSpeed upper
    /\ weathercockAdjustment apogeeLocation windDirection windSpeed
         (first :: rest)
       = (moveAlongBearing apogeeLocation (feetToMeters distance)
            windDirection,
          altitude)
    /\ between (upwindDistance lower) distance (upwindDistance upper)
    /\ between (apogee lower) altitude (apogee upper).
Proof.
  intros Hbelow Hreached. cbn [weathercockAdjustment].
  apply search_brackets; assumption.
Qed.

Lemma adjustment_interpolates_bracket_witness :
  exists before lower upper after distance altitude,
    sampleTable = before ++ lower :: upper :: after
    /\ Forall (fun passed => wcWindSpeed passed < 7) before
    /\ wcWindSpeed lower < 7 <= wcWindSpeed upper
    /\ @weathercockAdjustment gridGeo sampleSite 270 7 sampleTable
       = (@moveAlongBearing gridGeo sampleSite
            (@feetToMeters gridGeo distance) 270,
          altitude)
    /\ between (upwindDistance lower) distance (upwindDistance upper)
    /\ between (apogee lower) altitude (apogee upper).
Proof.
  apply (@adjustment_interpolates_bracket gridGeo sampleSite 270 7
           (mkWeathercockWindData 0 0 1000)
           [mkWeathercockWindData 5 40 980; mkWeathercockWindData 10 90 940]).
  - cbn. lra.
  - exists (mkWeathercockWindData 10 90 940). split.
    + right. left. reflexivity.
    + cbn. lra.
Defined.

Lemma last_entry_in (first : WeathercockWindData)
    (rest : list WeathercockWindData) :
  In (lastEntry first rest) (first :: rest).
Proof.
  unfold lastEntry. revert first.
  induction rest as [| a rest IH]; intros first.
  - left. reflexivity.
  - right. destruct rest as [| b rest'].
    + left. reflexivity.
    + change (last (a :: b :: rest') first) with (last (b :: rest') first).
      rewrite (last_any_default (b :: rest') first a) by discriminate.
      apply IH.
Qed.

Lemma last_entry_reached (first : WeathercockWindData)
    (rest : list WeathercockWindData) (windSpeed : Q) :
  wcWindSpeed first < windSpeed ->
  windSpeed <= wcWindSpeed (lastEntry first rest) ->
  exists reached, In reached rest /\ windSpeed <= wcWindSpeed reached.
Proof.
  intros Hbelow Hlast.
  exists (lastEntry first rest). split; [| exact Hlast].
  destruct (last_entry_in first rest) as [Hfirst | Hin]; [| exact Hin].
  exfalso. rewrite <- Hfirst in Hlast. lra.
Qed.

(** X8.  For a wind speed above the speed of the first entry of a table
    and not above the speed of its last entry, the three versions of the
    weathercock adjustment agree: the later revision of main.js returns
    what main.js returns, and the path point of rocket.js carries the
    location and the altitude main.js returns for the ground wind of the
    forecast converted to MPH. *)
Theorem adjustments_agree_inside_table {G : GeoModule}
    (first : WeathercockWindData) (rest : list WeathercockWindData) :
  (forall (apogeeLocation : GeoLocation) (windDirection windSpeed : Q),
      wcWindSpeed first < windSpeed ->
      windSpeed <= wcWindSpeed (lastEntry first rest) ->
      Revised.weathercockAdjustment apogeeLocation windDirection windSpeed
        (first :: rest)
      = weathercockAdjustment apogeeLocation windDirection windSpeed
          (first :: rest))
  /\ (forall (thisApogee : Q) (rocketLocation : GeoLocation)
             (windData : WindForecastData),
        wcWindSpeed first < 1.15078 * groundWindSpeed windData ->
        1.15078 * groundWindSpeed windData
        <= wcWindSpeed (lastEntry first rest) ->
        RocketWeathercocking.weathercockAdjustment thisApogee (first :: rest)
          rocketLocation windData
        = mkLaunchPathPoint
            (snd (weathercockAdjustment rocketLocation
                    (groundWindDirection windData)
                    (1.15078 * groundWindSpeed windData) (first :: rest)))
            (fst (weathercockAdjustment rocketLocation
                    (groundWindDirection windData)
                    (1.15078 * groundWindSpeed windData) (first :: rest)))).
Proof.
  split.
  - intros apogeeLocation windDirection windSpeed Hbelow Hlast.
    apply Qleb_false in Hbelow. apply Qltb_false in Hlast.
    unfold Revised.weathercockAdjustment, weathercockAdjustment.
    rewrite Hbelow, Hlast. reflexivity.
  - intros thisApogee rocketLocation windData Hbelow Hlast.
    apply Qleb_false in Hbelow. apply Qltb_false in Hlast.
    unfold RocketWeathercocking.weathercockAdjustment, weathercockAdjustment.
    rewrite Hbelow, Hlast.
    destruct (weathercockSearch rocketLocation (groundWindDirection windData)
                (1.15078 * groundWindSpeed windData) first rest)
      as [location altitude].
    reflexivity.
Qed.

Lemma adjustments_agree_inside_table_witness :
  @Revised.weathercockAdjustment gridGeo sampleSite 270 7 sampleTable
  = @weathercockAdjustment gridGeo sampleSite 270 7 sampleTable
  /\ @RocketWeathercocking.weathercockAdjustment gridGeo 1000 sampleTable
       sampleSite (mkWindForecastData true [] 0 5 270)
     = mkLaunchPathPoint
         (snd (@weathercockAdjustment gridGeo sampleSite 270 (1.15078 * 5)
                 sampleTable))
         (fst (@weathercockAdjustment gridGeo sampleSite 270 (1.15078 * 5)
                 sampleTable)).
Proof.
  destruct (@adjustments_agree_inside_table gridGeo
              (mkWeathercockWindData 0 0 1000)
              [mkWeathercockWindData 5 40 980;
               mkWeathercockWindData 10 90 940]) as [Hrevised Hrocket].
  split.
  - apply (Hrevised sampleSite 270 7).
    + cbn. lra.
    + cbn. lra.
  - apply (Hrocket 1000 sampleSite (mkWindForecastData true [] 0 5 270)).
    + cbn. lra.
    + cbn. lra.
Defined.

(** X9.  On a table that is not empty, the altitude of the path point
    returned by the adjustment of rocket.js lies between the apogees of
    two entries of the table, whatever the ground wind: the value -1
    with which the search starts is never returned. *)
Theorem rocket_adjustment_within_table {G : GeoModule} (thisApogee : Q)
    (first : WeathercockWindData) (rest : list WeathercockWindData)
    (rocketLocation : GeoLocation) (windData : WindForecastData) :
  exists lower upper,
    In lower (first :: rest)
    /\ In upper (first :: rest)
    /\ between (apogee lower)
         (pointAltitude
            (RocketWeathercocking.weathercockAdjustment thisApogee
               (first :: rest) rocketLocation windData))
         (apogee upper).
Proof.
  unfold RocketWeathercocking.weathercockAdjustment. cbv zeta.
  destruct (Qleb (1.15078 * groundWindSpeed windData) (wcWindSpeed first))
    eqn:Hbelow.
  - exists first, first.
    split; [left; reflexivity |]. split; [left; reflexivity |].
    apply between_refl. reflexivity.
  - apply Qleb_false in Hbelow.
    destruct (Qltb (wcWindSpeed (lastEntry first rest))
                (1.15078 * groundWindSpeed windData)) eqn:Habove.
    + exists (lastEntry first rest), (lastEntry first rest).
      split; [apply last_entry_in |]. split; [apply last_entry_in |].
      apply between_refl. reflexivity.
    + apply Qltb_false in Habove.
      destruct (search_brackets rocketLocation (groundWindDirection windData)
                  (1.15078 * groundWindSpeed windData) rest first Hbelow
                  (last_entry_reached first rest _ Hbelow Habove))
        as (before & lower & upper & after & distance & altitude
            & Hsplit & _ & _ & Hsearch & _ & Haltitude).
      rewrite Hsearch. cbn [pointAltitude].
      exists lower, upper.
      split; [rewrite Hsplit; apply in_or_app; right; left; reflexivity |].
      split; [rewrite Hsplit; apply in_or_app; right; right; left; reflexivity |].
      exact Haltitude.
Qed.

(* ------------------------------------------------------------------ *)
(** ** The descent schedule on arbitrary wind samples *)

Lemma reads_inside {A : Type} (l : list A) (i : nat) :
  (i < length l)%nat -> exists a, nth_error l i = Some a.
Proof.
  intros Hi. destruct (nth_error l i) as [a |] eqn:Hread.
  - exists a. reflexivity.
  - apply nth_error_None in Hread. lia.
Qed.

Section ScheduleTotal.

Variable windData : list WindAtAltitude.
Variable mainDeployAltitude : Q.
Variable mainDescentRate : Q.

Local Abbreviation D := mainDeployAltitude.
Local Abbreviation m := mainDescentRate.

(** One iteration of the band loop inside the array completes, and the
    rates it leaves are the rate it was given or the main rate. *)
Lemma bandStep_total (i : nat) (rate rocketAltitude : Q) :
  (S i < length windData)%nat ->
  exists pushed rate' rocketAltitude',
    bandStep windData D (Fin m) i (Fin rate) rocketAltitude
    = Normal (pushed, Fin rate', rocketAltitude')
    /\ forall P : Q -> Prop,
         P m -> P rate ->
         Forall (fun s => P (descentRate s)) pushed /\ P rate'.
Proof.
  intros Hi.
  destruct (reads_inside windData i ltac:(lia)) as [lo Hlo].
  destruct (reads_inside windData (S i) Hi) as [hi Hhi].
  unfold bandStep. rewrite Nat.add_1_r.
  rewrite (elem_Some _ _ _ Hhi). cbn [bind].
  rewrite (elem_Some _ _ _ Hlo). cbn [bind].
  destruct (Qleb (altitude hi - altitude lo) 0).
  { exists [], rate, (altitude lo). split; [reflexivity |].
    intros P Hm Hrate. split; [apply Forall_nil | exact Hrate]. }
  destruct (Qeqb (altitude lo) D).
  { cbn [newDescentData bind].
    eexists. exists m. eexists. split; [reflexivity |].
    intros P Hm Hrate. split; [| exact Hm].
    apply Forall_cons; [exact Hm | apply Forall_nil]. }
  destruct (Qltb (altitude lo) D && Qltb D (altitude hi)).
  - destruct (band_percentage_normal D windData (Z.of_nat i)) as [p Hp].
    destruct (average_speed_normal p windData (Z.of_nat i)) as [speed Hspeed].
    destruct (average_direction_normal p windData (Z.of_nat i))
      as [direction Hdirection].
    rewrite Hp. cbn [bind]. rewrite Hspeed. cbn [bind].
    rewrite Hdirection. cbn [bind newDescentData].
    eexists. exists m. eexists. split; [reflexivity |].
    intros P Hm Hrate. split; [| exact Hm].
    cbn [app].
    apply Forall_cons; [exact Hm |].
    apply Forall_cons; [exact Hm | apply Forall_nil].
  - cbn [bind newDescentData].
    eexists. exists rate. eexists. split; [reflexivity |].
    intros P Hm Hrate. split; [| exact Hrate].
    cbn [app]. apply Forall_cons; [exact Hrate | apply Forall_nil].
Qed.

Lemma walkBands_total (i : nat) :
  forall rate rocketAltitude,
    (S i < length windData)%nat ->
    exists steps rocketAltitude',
      walkBands windData D (Fin m) i (Fin rate) rocketAltitude
      = Normal (steps, rocketAltitude')
      /\ forall P : Q -> Prop,
           P m -> P rate -> Forall (fun s => P (descentRate s)) steps.
Proof.
  induction i as [| below IH]; intros rate rocketAltitude Hi.
  - destruct (bandStep_total 0 rate rocketAltitude Hi)
      as (pushed & rate' & alt' & Hstep & Hrates).
    cbn [walkBands]. rewrite Hstep. cbn [bind].
    exists pushed, alt'. split; [reflexivity |].
    intros P Hm Hrate. apply (Hrates P Hm Hrate).
  - destruct (bandStep_total (S below) rate rocketAltitude Hi)
      as (pushed & rate' & alt' & Hstep & Hrates).
    destruct (IH rate' alt' ltac:(lia)) as (rest & alt'' & Hwalk & Hrest).
    cbn [walkBands]. rewrite Hstep. cbn [bind].
    rewrite Hwalk. cbn [bind].
    exists (pushed ++ rest), alt''. split; [reflexivity |].
    intros P Hm Hrate.
    destruct (Hrates P Hm Hrate) as [Hpushed Hrate'].
    apply Forall_app. split; [exact Hpushed | apply (Hrest P Hm Hrate')].
Qed.

Lemma generate_total (usingDual : bool) (drogueRate rocketAltitude : Q) :
  windData <> [] ->
  exists generated,
    generateDescentList windData D (Fin m) usingDual (Fin drogueRate)
      rocketAltitude
    = Normal generated
    /\ forall descentList rocketAltitude',
         generated = Some (descentList, rocketAltitude') ->
         forall P : Q -> Prop,
           P m -> P (if usingDual then drogueRate else m) ->
           Forall (fun s => P (descentRate s)) descentList.
Proof.
  intros Hsamples.
  destruct (find_spec windData rocketAltitude Hsamples) as ([Hone Hmost] & _).
  unfold generateDescentList. cbv zeta.
  destruct (Nat.eqb (length windData) (findWindIndex windData rocketAltitude))
    eqn:Habove.
  - exists None. split; [reflexivity |]. intros dl a H. discriminate H.
  - apply Nat.eqb_neq in Habove.
    replace (if usingDual then Fin drogueRate else Fin m)
      with (Fin (if usingDual then drogueRate else m))
      by (destruct usingDual; reflexivity).
    destruct (apogeeStep_normal windData rocketAltitude
                (findWindIndex windData rocketAltitude - 1)
                (if usingDual then drogueRate else m))
      as (first & Hfirst & _ & Hrate).
    destruct (walkBands_total (findWindIndex windData rocketAltitude - 1)
                (if usingDual then drogueRate else m) rocketAltitude
                ltac:(lia))
      as (steps & alt' & Hwalk & Hrates).
    rewrite Hfirst. cbn [bind]. rewrite Hwalk. cbn [bind].
    eexists. split; [reflexivity |].
    intros dl a Hsome P Hm Hstart.
    injection Hsome as Hdl _. subst dl.
    apply Forall_cons; [rewrite Hrate; exact Hstart | apply (Hrates P Hm Hstart)].
Qed.

Lemma build_total (usingDual : bool) (drogueRate rocketAltitude : Q) :
  windData <> [] ->
  exists built,
    buildDescentList windData D (Fin m) usingDual (Fin drogueRate)
      rocketAltitude
    = Normal built
    /\ forall descentList rocketAltitude',
         built = Some (descentList, rocketAltitude') ->
         (2 <= length descentList)%nat
         /\ forall P : Q -> Prop,
              P m -> P (if usingDual then drogueRate else m) ->
              Forall (fun s => P (descentRate s)) descentList.
Proof.
  intros Hsamples.
  destruct (generate_total usingDual drogueRate rocketAltitude Hsamples)
    as (generated & Hgenerated & Hrates).
  unfold buildDescentList. rewrite Hgenerated. cbn [bind].
  destruct generated as [[descentList alt'] |].
  - destruct (Nat.ltb (length descentList) 2) eqn:Hshort.
    + exists None. split; [reflexivity |]. intros dl a H. discriminate H.
    + apply Nat.ltb_ge in Hshort.
      eexists. split; [reflexivity |].
      intros dl a Hsome. injection Hsome as Hdl Ha. subst dl a.
      split; [exact Hshort |].
      apply (Hrates descentList alt' eq_refl).
  - exists None. split; [reflexivity |]. intros dl a H. discriminate H.
Qed.

End ScheduleTotal.

Lemma build_without_samples (mainDeployAltitude : Q) (mainRate : number)
    (usingDual : bool) (drogueRate : number) (rocketAltitude : Q) :
  buildDescentList [] mainDeployAltitude mainRate usingDual drogueRate
    rocketAltitude
  = Throws.
Proof.
  unfold buildDescentList, generateDescentList, apogeeStep. cbn.
  destruct (if usingDual then drogueRate else mainRate); reflexivity.
Qed.

(* ------------------------------------------------------------------ *)
(** ** The hours of calculateLandingPlots *)

Lemma appendPath_fields (points : list LaunchPathPoint) :
  forall s,
    time (appendPath s points) = time s
    /\ elevation (appendPath s points) = elevation s
    /\ launchPath (appendPath s points) = launchPath s ++ points.
Proof.
  unfold appendPath.
  induction points as [| [alt loc] points IH]; intros s;
    cbn [fold_left pointAltitude location].
  - rewrite app_nil_r. auto.
  - destruct (IH (addLaunchPathPoint s alt loc)) as (Htime & Helevation & Hpath).
    rewrite Htime, Helevation, Hpath. cbn.
    rewrite <- app_assoc. auto.
Qed.

Lemma integrate_length {G : GeoModule} (rest : list DescentData) :
  forall previous rocketLocation rate,
    length (integrate previous rest rocketLocation rate) = length rest.
Proof.
  induction rest as [| current rest IH]; intros previous loc rate.
  - reflexivity.
  - cbn [integrate length]. rewrite IH. reflexivity.
Qed.

Lemma new_elevation_not_negative (ele : Q) (hour : Z) :
  0 <= elevation (newLaunchSimulationData ele hour).
Proof.
  unfold newLaunchSimulationData. cbn [elevation].
  destruct (Qleb 0 ele) eqn:H; [apply Qleb_true in H; exact H | lra].
Qed.

(** What an hour over a forecast with samples leaves: no exception, and
    a result, if any, that carries the hour, an elevation that is not
    negative and a launch path of three points or more starting at the
    launch site. *)
Lemma simulateHour_total {G : GeoModule} (inputs : LaunchInputs)
    (launchLocation : GeoLocation) (windForecast : WindForecastData)
    (hour : Z) :
  windData windForecast <> [] ->
  exists result,
    simulateHour inputs launchLocation windForecast hour = Normal result
    /\ forall launchSimulation,
         result = Some launchSimulation ->
         time launchSimulation = hour
         /\ 0 <= elevation launchSimulation
         /\ (3 <= length (launchPath launchSimulation))%nat
         /\ hd_error (launchPath launchSimulation)
            = Some (mkLaunchPathPoint 0 launchLocation).
Proof.
  intros Hsamples. unfold simulateHour.
  destruct (adjustedApogee inputs launchLocation windForecast)
    as [rocketLocation rocketAltitude].
  destruct (build_total (windData windForecast) (mainDeployAltitude inputs)
              (mainDescentRate inputs) (usingDualDeployoment inputs)
              (drogueDecentRate inputs) rocketAltitude Hsamples)
    as (built & Hbuilt & Hlist).
  rewrite Hbuilt. cbn [bind].
  destruct built as [[descentList rocketAltitude'] |].
  - eexists. split; [reflexivity |].
    intros s Hs. injection Hs as Hs. subst s.
    destruct (Hlist descentList rocketAltitude' eq_refl) as [Hlength _].
    match goal with
    | |- context [appendPath ?s0 ?pts] =>
        destruct (appendPath_fields pts s0) as (Htime & Helevation & Hpath)
    end.
    rewrite Htime, Helevation, Hpath.
    split; [reflexivity |].
    split; [cbn [addLaunchPathPoint elevation]; apply new_elevation_not_negative |].
    split; [| reflexivity].
    rewrite length_app. cbn [addLaunchPathPoint launchPath
                               newLaunchSimulationData app length].
    destruct descentList as [| first rest]; [cbn in Hlength; lia |].
    cbn [descentPath]. rewrite integrate_length. cbn in Hlength. lia.
  - exists None. split; [reflexivity |]. intros s Hs. discriminate Hs.
Qed.

Lemma simulateHour_without_samples {G : GeoModule} (inputs : LaunchInputs)
    (launchLocation : GeoLocation) (windForecast : WindForecastData)
    (hour : Z) :
  windData windForecast = [] ->
  simulateHour inputs launchLocation windForecast hour = Throws.
Proof.
  intros Hsamples. unfold simulateHour.
  destruct (adjustedApogee inputs launchLocation windForecast)
    as [rocketLocation rocketAltitude].
  rewrite Hsamples, build_without_samples. reflexivity.
Qed.

(** X10.  An hour of calculateLandingPlots ends the function with a
    TypeError exactly when the forecast of the hour holds no wind sample
    at all; over any other forecast the hour is either skipped or gives
    a result. *)
Theorem hour_throws_exactly_without_samples {G : GeoModule}
    (inputs : LaunchInputs) (launchLocation : GeoLocation)
    (windForecast : WindForecastData) (hour : Z) :
  simulateHour inputs launchLocation windForecast hour = Throws
  <-> windData windForecast = [].
Proof.
  split.
  - intros Hthrows.
    destruct (windData windForecast) as [| sample samples] eqn:Hsamples;
      [reflexivity |].
    exfalso.
    destruct (simulateHour_total inputs launchLocation windForecast hour)
      as (result & Hresult & _).
    + rewrite Hsamples. discriminate.
    + rewrite Hresult in Hthrows. discriminate Hthrows.
  - apply simulateHour_without_samples.
Qed.

Lemma hourLoop_throws {G : GeoModule} (inputs : LaunchInputs)
    (launchLocation : GeoLocation)
    (forecasts : list (option WindForecastData)) :
  forall hour simulationList,
    hourLoop inputs launchLocation hour forecasts simulationList = Throws
    <-> exists windForecast,
          In windForecast (obtained forecasts) /\ windData windForecast = [].
Proof.
  induction forecasts as [| [windForecast |] later IH];
    intros hour simulationList; cbn [hourLoop obtained flat_map].
  - split; [discriminate | intros (f & [] & _)].
  - fold (obtained later).
    destruct (windData windForecast) as [| sample samples] eqn:Hsamples.
    + rewrite simulateHour_without_samples by exact Hsamples.
      cbn [bind]. split; [| reflexivity].
      intros _. exists windForecast. split; [left; reflexivity | exact Hsamples].
    + destruct (simulateHour_total inputs launchLocation windForecast hour)
        as (result & Hresult & _); [rewrite Hsamples; discriminate |].
      rewrite Hresult. cbn [bind].
      assert (Hlater :
                (exists f, In f ([windForecast] ++ obtained later)
                           /\ windData f = [])
                <-> exists f, In f (obtained later) /\ windData f = []).
      { split.
        - intros (f & [Hf | Hf] & Hempty).
          + subst f. rewrite Hsamples in Hempty. discriminate Hempty.
          + exists f. split; assumption.
        - intros (f & Hf & Hempty). exists f. split; [right; exact Hf | exact Hempty]. }
      rewrite Hlater.
      destruct result as [launchSimulation |]; apply IH.
  - fold (obtained later). cbn [app]. apply IH.
Qed.

(** *** The checks ahead of the hour loop *)

Lemma row_read_throws (windSpeed : Q) (row : WeathercockInputs) :
  getWeathercockInputValues windSpeed row = Throws <-> rowThrows row.
Proof.
  unfold getWeathercockInputValues, rowThrows.
  destruct (distanceInput row) as [[distance |] |];
    destruct (apogeeInput row) as [[apogee |] |];
    cbn [isNaN newWeathercockWindData bind];
    (split;
     [ try discriminate; intros _; exists distance; split; reflexivity
     | try reflexivity; intros (d & Hd & Ha); congruence ]).
Qed.

Lemma table_read_throws (checked : bool) (rocketApogee : number)
    (rows : WeathercockRows) :
  loadWeathercockData checked rocketApogee rows = Throws
  <-> checked = true
      /\ (exists apogee, rocketApogee = Fin apogee /\ 0 < apogee)
      /\ (rowThrows (five rows) \/ rowThrows (ten rows)
          \/ rowThrows (fifteen rows) \/ rowThrows (twenty rows)).
Proof.
  unfold loadWeathercockData.
  destruct checked;
    [| split; [discriminate | intros (H & _); discriminate H]].
  destruct rocketApogee as [apogee |];
    [| split; [discriminate | intros (_ & (a & H & _) & _); discriminate H]].
  destruct (Qleb apogee 0) eqn:Hlow.
  { apply Qleb_true in Hlow.
    split; [discriminate |].
    intros (_ & (a & H & Hpositive) & _). injection H as <-. lra. }
  apply Qleb_false in Hlow.
  cbn [newWeathercockWindData bind]. cbv zeta.
  pose proof (row_read_throws 5 (five rows)) as H5.
  pose proof (row_read_throws 10 (ten rows)) as H10.
  pose proof (row_read_throws 15 (fifteen rows)) as H15.
  pose proof (row_read_throws 20 (twenty rows)) as H20.
  assert (Hhead : true = true /\ exists a, Fin apogee = Fin a /\ 0 < a).
  { split; [reflexivity |]. exists apogee. split; [reflexivity | exact Hlow]. }
  destruct (getWeathercockInputValues 5 (five rows)) as [row5 |];
    cbn [bind].
  2: { split; [| reflexivity]. intros _. destruct Hhead as [Hc Ha].
       split; [exact Hc |]. split; [exact Ha |]. left. apply H5. reflexivity. }
  destruct (getWeathercockInputValues 10 (ten rows)) as [row10 |];
    cbn [bind].
  2: { split; [| reflexivity]. intros _. destruct Hhead as [Hc Ha].
       split; [exact Hc |]. split; [exact Ha |].
       right. left. apply H10. reflexivity. }
  destruct (getWeathercockInputValues 15 (fifteen rows)) as [row15 |];
    cbn [bind].
  2: { split; [| reflexivity]. intros _. destruct Hhead as [Hc Ha].
       split; [exact Hc |]. split; [exact Ha |].
       right. right. left. apply H15. reflexivity. }
  destruct (getWeathercockInputValues 20 (twenty rows)) as [row20 |];
    cbn [bind].
  2: { split; [| reflexivity]. intros _. destruct Hhead as [Hc Ha].
       split; [exact Hc |]. split; [exact Ha |].
       right. right. right. apply H20. reflexivity. }
  split.
  - destruct (Nat.eqb 0 _); discriminate.
  - intros (_ & _ & [H | [H | [H | H]]]);
      [apply H5 in H | apply H10 in H | apply H15 in H | apply H20 in H];
      discriminate H.
Qed.

(** The outcome of the checks: they throw when the launch window
    cannot be built or the read of the weathercock table throws, and
    they hand inputs to the hour loop exactly for an accepted page. *)
Lemma load_throws (form : FormValues)
    (launchSiteLocation : option GeoLocation) :
  loadLaunchInputs form launchSiteLocation = Throws
  <-> launchTimeData form = Throws
      \/ exists launchTimes,
           launchTimeData form = Normal launchTimes
           /\ windowAccepted launchTimes
           /\ tableReadThrows form.
Proof.
  unfold loadLaunchInputs, windowAccepted, tableReadThrows.
  destruct (launchTimeData form) as [launchTimes |]; cbn [bind andb].
  2: { split; [intros _; left; reflexivity | reflexivity]. }
  destruct (startHourOffset launchTimes <? -24)%Z eqn:Hstart.
  { apply Z.ltb_lt in Hstart. split; [discriminate |].
    intros [H | (lt & H & [Hs _] & _)]; [discriminate H |].
    injection H as <-. lia. }
  apply Z.ltb_ge in Hstart.
  destruct (380 <? endHourOffset launchTimes)%Z eqn:Hend.
  { apply Z.ltb_lt in Hend. split; [discriminate |].
    intros [H | (lt & H & [_ He] & _)]; [discriminate H |].
    injection H as <-. lia. }
  apply Z.ltb_ge in Hend.
  pose proof (table_read_throws (applyWeathercockingChecked form)
                (apogeeAltitudeValue form) (weathercockRows form)) as Htable.
  destruct (apogeeAltitudeValue form) as [rocketApogee |] eqn:Hapogee.
  2: { split; [discriminate |].
       intros [H | (lt & _ & _ & _ & (a & H & _) & _)]; discriminate H. }
  destruct (loadWeathercockData (applyWeathercockingChecked form)
              (Fin rocketApogee) (weathercockRows form))
    as [[apply table] |]; cbn [bind].
  - split.
    + destruct launchSiteLocation as [launchLocation |]; [| discriminate].
      destruct (mainDescentRateValue form) as [rate |]; [| discriminate].
      destruct (Qleb rate 0.0); [discriminate |].
      destruct (loadRecovery rocketApogee rate (dualDeployChecked form)
                  (mainEventAltitudeValue form) (drogueDecentRateValue form))
        as [[dual deploy] drogue].
      discriminate.
    + intros [H | (lt & _ & _ & Hthrows)]; [discriminate H |].
      apply Htable in Hthrows. discriminate Hthrows.
  - split; [| reflexivity]. intros _. right. exists launchTimes.
    split; [reflexivity |]. split; [split; assumption |].
    apply Htable. reflexivity.
Qed.

Lemma load_accepted (form : FormValues)
    (launchSiteLocation : option GeoLocation) (launchTimes : LaunchTimeData)
    (inputs : LaunchInputs) (launchLocation : GeoLocation) :
  loadLaunchInputs form launchSiteLocation
  = Normal (Some (launchTimes, inputs, launchLocation)) ->
  formAccepted form launchSiteLocation launchTimes
  /\ launchSiteLocation = Some launchLocation
  /\ 0 < mainDescentRate inputs
  /\ exists rocketApogee,
       loadRecovery rocketApogee (mainDescentRate inputs)
         (dualDeployChecked form) (mainEventAltitudeValue form)
         (drogueDecentRateValue form)
       = (usingDualDeployoment inputs, mainDeployAltitude inputs,
          drogueDecentRate inputs).
Proof.
  intros Hload.
  assert (Hquiet : ~ tableReadThrows form).
  { intros Hthrows.
    assert (H : loadLaunchInputs form launchSiteLocation = Throws).
    { apply load_throws. right.
      unfold loadLaunchInputs in Hload.
      destruct (launchTimeData form) as [lt |]; [| discriminate Hload].
      cbn [bind andb] in Hload.
      destruct (startHourOffset lt <? -24)%Z eqn:Hstart;
        [discriminate Hload |].
      destruct (380 <? endHourOffset lt)%Z eqn:Hend; [discriminate Hload |].
      apply Z.ltb_ge in Hstart. apply Z.ltb_ge in Hend.
      exists lt. split; [reflexivity |]. split; [split; assumption |].
      exact Hthrows. }
    rewrite H in Hload. discriminate Hload. }
  unfold loadLaunchInputs in Hload. unfold formAccepted, windowAccepted.
  destruct (launchTimeData form) as [lt |]; [| discriminate Hload].
  cbn [bind andb] in Hload.
  destruct (startHourOffset lt <? -24)%Z eqn:Hstart; [discriminate Hload |].
  destruct (380 <? endHourOffset lt)%Z eqn:Hend; [discriminate Hload |].
  apply Z.ltb_ge in Hstart. apply Z.ltb_ge in Hend.
  destruct (apogeeAltitudeValue form) as [rocketApogee |] eqn:Hapogee;
    [| discriminate Hload].
  destruct (loadWeathercockData (applyWeathercockingChecked form)
              (Fin rocketApogee) (weathercockRows form))
    as [[apply table] |]; [| discriminate Hload].
  cbn [bind] in Hload.
  destruct launchSiteLocation as [site |]; [| discriminate Hload].
  destruct (mainDescentRateValue form) as [rate |]; [| discriminate Hload].
  destruct (Qleb rate 0.0) eqn:Hrate; [discriminate Hload |].
  apply Qleb_false in Hrate.
  destruct (loadRecovery rocketApogee rate (dualDeployChecked form)
              (mainEventAltitudeValue form) (drogueDecentRateValue form))
    as [[dual deploy] drogue] eqn:Hrecovery.
  injection Hload as <- <- <-. cbn [mainDescentRate usingDualDeployoment
                                     mainDeployAltitude drogueDecentRate].
  split; [| split; [reflexivity | split; [lra |]]].
  - split; [reflexivity |]. split; [split; assumption |].
    split; [exists rocketApogee; reflexivity |]. split; [exact Hquiet |].
    split; [exists site; reflexivity |].
    exists rate. split; [reflexivity | lra].
  - exists rocketApogee. exact Hrecovery.
Qed.

Lemma accepted_loads (form : FormValues)
    (launchSiteLocation : option GeoLocation) (launchTimes : LaunchTimeData) :
  formAccepted form launchSiteLocation launchTimes ->
  exists inputs launchLocation,
    loadLaunchInputs form launchSiteLocation
    = Normal (Some (launchTimes, inputs, launchLocation)).
Proof.
  intros (Htimes & [Hstart Hend] & (rocketApogee & Hapogee) & Hquiet
          & (site & ->) & (rate & Hrate & Hpositive)).
  pose proof (table_read_throws (applyWeathercockingChecked form)
                (apogeeAltitudeValue form) (weathercockRows form)) as Htable.
  unfold loadLaunchInputs. rewrite Htimes. cbn [bind andb].
  replace (startHourOffset launchTimes <? -24)%Z with false
    by (symmetry; apply Z.ltb_ge; exact Hstart).
  replace (380 <? endHourOffset launchTimes)%Z with false
    by (symmetry; apply Z.ltb_ge; exact Hend).
  rewrite Hapogee in *.
  destruct (loadWeathercockData (applyWeathercockingChecked form)
              (Fin rocketApogee) (weathercockRows form))
    as [[apply table] |].
  2: { exfalso. apply Hquiet. unfold tableReadThrows. rewrite Hapogee.
       apply Htable. reflexivity. }
  cbn [bind]. rewrite Hrate.
  replace (Qleb rate 0.0) with false
    by (symmetry; apply Qleb_false; lra).
  destruct (loadRecovery rocketApogee rate (dualDeployChecked form)
              (mainEventAltitudeValue form) (drogueDecentRateValue form))
    as [[dual deploy] drogue].
  eexists. eexists. reflexivity.
Qed.

(** X11.  calculateLandingPlots throws exactly in three cases: the
    launch window cannot be built; the window is accepted and the read
    of the weathercock table throws; or the page passes every check
    ahead of the hour loop and one of the forecasts obtained for the
    offsets of the window holds no wind sample, in which case the
    results of the other hours are lost with it.  In every other case
    the function returns its list.  (The ground elevation of a forecast
    is taken to be a number.) *)
Theorem batch_throws_exactly_on_empty_forecast {G : GeoModule}
    (form : FormValues) (launchSiteLocation : option GeoLocation)
    (startHour : Z) (forecasts : list (option WindForecastData)) :
  calculateLandingPlots form launchSiteLocation startHour forecasts = Throws
  <-> launchTimeData form = Throws
      \/ (exists launchTimes,
            launchTimeData form = Normal launchTimes
            /\ windowAccepted launchTimes
            /\ tableReadThrows form)
      \/ (exists launchTimes,
            formAccepted form launchSiteLocation launchTimes
            /\ exists windForecast,
                 In windForecast
                   (obtained (firstn (offsetCount launchTimes) forecasts))
                 /\ windData windForecast = []).
Proof.
  pose proof (load_throws form launchSiteLocation) as Hthrows.
  unfold calculateLandingPlots.
  destruct (loadLaunchInputs form launchSiteLocation)
    as [[[[launchTimes inputs] launchLocation] |] |] eqn:Hload; cbn [bind].
  - destruct (load_accepted _ _ _ _ _ Hload) as (Haccepted & _).
    rewrite hourLoop_throws. split.
    + intros Hempty. right. right. exists launchTimes.
      split; [exact Haccepted | exact Hempty].
    + intros [H | [H | (lt & Hlt & Hempty)]].
      * assert (E : @Normal (option (LaunchTimeData * LaunchInputs
                                      * GeoLocation))
                      (Some (launchTimes, inputs, launchLocation)) = Throws)
          by (apply Hthrows; left; exact H).
        discriminate E.
      * assert (E : @Normal (option (LaunchTimeData * LaunchInputs
                                      * GeoLocation))
                      (Some (launchTimes, inputs, launchLocation)) = Throws)
          by (apply Hthrows; right; exact H).
        discriminate E.
      * destruct Haccepted as [Htimes _]. destruct Hlt as [Htimes' _].
        rewrite Htimes in Htimes'. injection Htimes' as <-. exact Hempty.
  - split; [discriminate |].
    intros [H | [H | (lt & Hlt & _)]].
    + assert (E : @Normal (option (LaunchTimeData * LaunchInputs
                                    * GeoLocation)) None = Throws)
        by (apply Hthrows; left; exact H).
      discriminate E.
    + assert (E : @Normal (option (LaunchTimeData * LaunchInputs
                                    * GeoLocation)) None = Throws)
        by (apply Hthrows; right; exact H).
      discriminate E.
    + destruct (accepted_loads _ _ _ Hlt) as (inputs & loc & Hsome).
      rewrite Hload in Hsome. discriminate Hsome.
  - split; [| reflexivity]. intros _.
    destruct (proj1 Hthrows eq_refl) as [H | H]; [left | right; left]; exact H.
Qed.

Lemma obtained_some (windForecast : WindForecastData)
    (later : list (option WindForecastData)) :
  obtained (Some windForecast :: later) = windForecast :: obtained later.
Proof. reflexivity. Qed.

Lemma obtained_none (later : list (option WindForecastData)) :
  obtained (None :: later) = obtained later.
Proof. reflexivity. Qed.

(** The results the hour loop appends: one at most per forecast
    obtained, in the order of the hours, each as [simulateHour] leaves
    it. *)
Lemma hourLoop_results {G : GeoModule} (inputs : LaunchInputs)
    (launchLocation : GeoLocation)
    (forecasts : list (option WindForecastData)) :
  forall hour simulationList returned,
    hourLoop inputs launchLocation hour forecasts simulationList
    = Normal returned ->
    exists appended,
      returned = simulationList ++ appended
      /\ StronglySorted Z.lt (map time appended)
      /\ Forall (fun s =>
                   (hour <= time s < hour + Z.of_nat (length forecasts))%Z)
           appended
      /\ (length appended <= length (obtained forecasts))%nat
      /\ Forall (fun s =>
                   0 <= elevation s
                   /\ (3 <= length (launchPath s))%nat
                   /\ hd_error (launchPath s)
                      = Some (mkLaunchPathPoint 0 launchLocation))
           appended.
Proof.
  induction forecasts as [| [windForecast |] later IH];
    intros hour simulationList returned Hloop; cbn [hourLoop] in Hloop.
  - injection Hloop as Hloop. subst returned. exists [].
    rewrite app_nil_r. split; [reflexivity |].
    split; [apply SSorted_nil |].
    split; [apply Forall_nil |].
    split; [cbn; lia | apply Forall_nil].
  - destruct (windData windForecast) as [| sample samples] eqn:Hsamples.
    { rewrite simulateHour_without_samples in Hloop by exact Hsamples.
      discriminate Hloop. }
    destruct (simulateHour_total inputs launchLocation windForecast hour)
      as (result & Hresult & Hfields); [rewrite Hsamples; discriminate |].
    rewrite Hresult in Hloop. cbn [bind] in Hloop.
    destruct result as [launchSimulation |].
    + destruct (IH _ _ _ Hloop)
        as (appended & Hreturned & Hsorted & Hhours & Hcount & Hshape).
      destruct (Hfields launchSimulation eq_refl)
        as (Htime & Helevation & Hlength & Hhead).
      exists (launchSimulation :: appended).
      split; [rewrite Hreturned, <- app_assoc; reflexivity |].
      split.
      { cbn [map]. apply SSorted_cons; [exact Hsorted |].
        rewrite Forall_map. rewrite Forall_forall in Hhours |- *.
        intros s Hs. specialize (Hhours s Hs). lia. }
      split.
      { apply Forall_cons.
        - cbn [length]. lia.
        - rewrite Forall_forall in Hhours |- *.
          intros s Hs. specialize (Hhours s Hs). cbn [length]. lia. }
      split; [rewrite obtained_some; cbn [length]; lia |].
      apply Forall_cons; [auto | exact Hshape].
    + destruct (IH _ _ _ Hloop)
        as (appended & Hreturned & Hsorted & Hhours & Hcount & Hshape).
      exists appended.
      split; [exact Hreturned |]. split; [exact Hsorted |].
      split.
      { rewrite Forall_forall in Hhours |- *.
        intros s Hs. specialize (Hhours s Hs). cbn [length]. lia. }
      split; [rewrite obtained_some; cbn [length]; lia | exact Hshape].
  - destruct (IH _ _ _ Hloop)
      as (appended & Hreturned & Hsorted & Hhours & Hcount & Hshape).
    exists appended.
    split; [exact Hreturned |]. split; [exact Hsorted |].
    split.
    { rewrite Forall_forall in Hhours |- *.
      intros s Hs. specialize (Hhours s Hs). cbn [length]. lia. }
    split; [rewrite obtained_none; exact Hcount | exact Hshape].
Qed.


Lemma batch_is_hour_loop {G : GeoModule} (form : FormValues)
    (launchSiteLocation : option GeoLocation) (startHour : Z)
    (forecasts : list (option WindForecastData))
    (simulationList : list LaunchSimulationData) :
  calculateLandingPlots form launchSiteLocation startHour forecasts
  = Normal simulationList ->
  simulationList = []
  \/ exists launchTimes inputs launchLocation,
       launchSiteLocation = Some launchLocation
       /\ hourLoop inputs launchLocation startHour
            (firstn (offsetCount launchTimes) forecasts) []
          = Normal simulationList.
Proof.
  unfold calculateLandingPlots. intros Hbatch.
  destruct (loadLaunchInputs form launchSiteLocation)
    as [[[[launchTimes inputs] launchLocation] |] |] eqn:Hload;
    cbn [bind] in Hbatch.
  - right. exists launchTimes, inputs, launchLocation.
    destruct (load_accepted _ _ _ _ _ Hload) as (_ & Hsite & _).
    split; [exact Hsite | exact Hbatch].
  - left. injection Hbatch as H. symmetry. exact H.
  - discriminate Hbatch.
Qed.



(** X13.  Every result in the list calculateLandingPlots returns has an
    elevation that is not negative and a launch path of three points or
    more that starts at the launch site at altitude 0; so
    getLandingLocation never answers null for a result of the list. *)
Theorem results_have_a_landing {G : GeoModule} (form : FormValues)
    (launchSiteLocation : option GeoLocation) (startHour : Z)
    (forecasts : list (option WindForecastData))
    (simulationList : list LaunchSimulationData) :
  calculateLandingPlots form launchSiteLocation startHour forecasts
  = Normal simulationList ->
  Forall (fun s =>
            0 <= elevation s
            /\ (3 <= length (launchPath s))%nat
            /\ (exists launchLocation,
                  launchSiteLocation = Some launchLocation
                  /\ hd_error (launchPath s)
                     = Some (mkLaunchPathPoint 0 launchLocation))
            /\ exists landing, getLandingLocation s = Normal (Some landing))
    simulationList.
Proof.
  intros Hbatch.
  destruct (batch_is_hour_loop _ _ _ _ _ Hbatch)
    as [Hnone | (launchTimes & inputs & launchLocation & Hsite & Hloop)].
  - subst simulationList. apply Forall_nil.
  - destruct (hourLoop_results _ _ _ _ _ _ Hloop)
      as (appended & Hreturned & _ & _ & _ & Hshape).
    cbn [app] in Hreturned. subst appended.
    rewrite Forall_forall in Hshape |- *.
    intros s Hs. destruct (Hshape s Hs) as (Helevation & Hlength & Hhead).
    split; [exact Helevation |]. split; [exact Hlength |].
    split; [exists launchLocation; split; assumption |].
    destruct (last_or_empty (launchPath s)) as [Hempty | (front & point & Hlast)].
    + rewrite Hempty in Hlength. cbn in Hlength. lia.
    + exists (location point). apply (landing_of_last s front point Hlast).
Qed.

Lemma results_have_a_landing_witness :
  exists simulationList,
    @calculateLandingPlots gridGeo
      (mkFormValues oneHour (Fin 800) false blankRows (Fin 20) false NaN
         NaN (Fin (-5)))
      (Some sampleSite) 9 [Some steadyWest]
    = Normal simulationList
    /\ length simulationList = 1%nat
    /\ Forall (fun s =>
                 0 <= elevation s
                 /\ (3 <= length (launchPath s))%nat
                 /\ (exists launchLocation,
                       Some sampleSite = Some launchLocation
                       /\ hd_error (launchPath s)
                          = Some (mkLaunchPathPoint 0 launchLocation))
                 /\ exists landing,
                      getLandingLocation s = Normal (Some landing))
         simulationList.
Proof.
  eexists. split; [vm_compute; reflexivity |].
  split; [reflexivity |].
  apply (@results_have_a_landing gridGeo
           (mkFormValues oneHour (Fin 800) false blankRows (Fin 20) false NaN
         NaN (Fin (-5)))
           (Some sampleSite) 9 [Some steadyWest]).
  vm_compute. reflexivity.
Defined.

(* ------------------------------------------------------------------ *)
(** ** Descent rates *)

Lemma Qabs_not_zero (x : Q) : ~ 0 == Qabs x -> 0 < Qabs x.
Proof.
  intros Hx. pose proof (Qabs_nonneg x) as Hpos.
  apply Qle_lteq in Hpos. destruct Hpos as [Hlt | Heq]; [exact Hlt |].
  contradiction.
Qed.

(** What "Load the rocket's recovery data" leaves: dual deployment with
    a main deployment altitude above the ground and not above the
    apogee and a drogue rate above 0, or single deployment with the
    altitude -1 and the drogue rate set to the main rate. *)
Lemma loadRecovery_cases (rocketApogee mainRate : Q) (checked : bool)
    (mainEventAltitude drogueRate : number) (usingDual : bool)
    (deployAltitude drogue : Q) :
  loadRecovery rocketApogee mainRate checked mainEventAltitude drogueRate
  = (usingDual, deployAltitude, drogue) ->
  (usingDual = true /\ 0 < deployAltitude <= rocketApogee /\ 0 < drogue)
  \/ (usingDual = false /\ deployAltitude = -1 /\ drogue = mainRate).
Proof.
  unfold loadRecovery. intros Hload.
  destruct checked; [| injection Hload as <- <- <-; right; auto].
  destruct mainEventAltitude as [deploy |]; cbn [MathAbs] in Hload;
    [| injection Hload as <- <- <-; right; auto].
  destruct drogueRate as [rate |]; cbn [MathAbs] in Hload;
    [| injection Hload as <- <- <-; right; auto].
  destruct (Qltb rocketApogee (Qabs deploy)) eqn:Habove;
    [injection Hload as <- <- <-; right; auto |].
  destruct (Qeqb 0 (Qabs deploy)) eqn:Hground;
    [injection Hload as <- <- <-; right; auto |].
  destruct (Qeqb 0 (Qabs rate)) eqn:Hrate;
    injection Hload as <- <- <-; [right; auto |].
  left. apply Qltb_false in Habove.
  apply Qeqb_false in Hground. apply Qeqb_false in Hrate.
  split; [reflexivity |].
  split; [split; [apply Qabs_not_zero; exact Hground | exact Habove] |].
  apply Qabs_not_zero. exact Hrate.
Qed.

Lemma drifts_returned {G : GeoModule} (rest : list DescentData) :
  forall previous rocketLocation rate,
    ~ rate == 0 ->
    Forall (fun s => ~ descentRate s == 0) rest ->
    Forall (fun distance => distance <> None)
      (driftDistances previous rest rocketLocation rate).
Proof.
  induction rest as [| current rest IH];
    intros previous rocketLocation rate Hrate Hrest; cbn [driftDistances].
  - apply Forall_nil.
  - apply Forall_cons.
    + unfold driftStep, driftWithWind.
      replace (Qeqb 0 rate) with false
        by (symmetry; apply Qeqb_false; intro H; apply Hrate; lra).
      cbn [snd]. discriminate.
    + apply IH; [exact (Forall_inv Hrest) | exact (Forall_inv_tail Hrest)].
Qed.

(** X14.  With a main descent rate above 0 and the recovery data as
    calculateLandingPlots loads it from the form, every entry of a
    descent list that is built carries a descent rate above 0, on any
    wind samples; so every call of driftWithWind in the integration loop
    returns a distance and none is refused. *)
Theorem form_rates_are_usable {G : GeoModule} (rocketApogee mainRate : Q)
    (checked : bool) (mainEventAltitude drogueRate : number)
    (usingDual : bool) (deployAltitude drogue : Q)
    (windData : list WindAtAltitude) (rocketAltitude : Q)
    (descentList : list DescentData) (rocketAltitude' : Q)
    (rocketLocation : GeoLocation) :
  0 < mainRate ->
  loadRecovery rocketApogee mainRate checked mainEventAltitude drogueRate
  = (usingDual, deployAltitude, drogue) ->
  buildDescentList windData deployAltitude (Fin mainRate) usingDual
    (Fin drogue) rocketAltitude
  = Normal (Some (descentList, rocketAltitude')) ->
  Forall (fun s => 0 < descentRate s) descentList
  /\ Forall (fun distance => distance <> None)
       (descentDrifts descentList rocketLocation).
Proof.
  intros Hmain Hload Hbuilt.
  assert (Hsamples : windData <> []).
  { intro H. subst windData. rewrite build_without_samples in Hbuilt.
    discriminate Hbuilt. }
  destruct (build_total windData deployAltitude mainRate usingDual drogue
              rocketAltitude Hsamples) as (built & Hbuilt' & Hlist).
  rewrite Hbuilt' in Hbuilt. injection Hbuilt as Hbuilt. subst built.
  destruct (Hlist descentList rocketAltitude' eq_refl) as [_ Hrates].
  assert (Hpositive : Forall (fun s => 0 < descentRate s) descentList).
  { apply (Hrates (fun rate => 0 < rate) Hmain).
    destruct (loadRecovery_cases _ _ _ _ _ _ _ _ Hload)
      as [(-> & _ & Hdrogue) | (-> & _ & ->)]; assumption. }
  split; [exact Hpositive |].
  destruct descentList as [| first rest]; [apply Forall_nil |].
  cbn [descentDrifts].
  apply drifts_returned.
  - pose proof (Forall_inv Hpositive) as H. cbn beta in H. intro Hz. lra.
  - apply Forall_inv_tail in Hpositive.
    rewrite Forall_forall in Hpositive |- *.
    intros s Hs Hz. specialize (Hpositive s Hs). cbn beta in Hpositive. lra.
Qed.

Lemma form_rates_are_usable_witness :
  exists descentList rocketAltitude',
    buildDescentList threeSamples 500 (Fin 20) true (Fin 75) 1500
    = Normal (Some (descentList, rocketAltitude'))
    /\ Forall (fun s => 0 < descentRate s) descentList
    /\ Forall (fun distance => distance <> None)
         (@descentDrifts gridGeo descentList sampleSite).
Proof.
  eexists. eexists. split; [vm_compute; reflexivity |].
  eapply (@form_rates_are_usable gridGeo 1500 20 true (Fin 500) (Fin (-75))
            true 500 75 threeSamples 1500 _ _ sampleSite).
  - lra.
  - vm_compute. reflexivity.
  - vm_compute. reflexivity.
Defined.

Lemma build_single_ignores_drogue (windData : list WindAtAltitude)
    (deployAltitude : Q) (mainRate drogueRate other : number)
    (rocketAltitude : Q) :
  buildDescentList windData deployAltitude mainRate false drogueRate
    rocketAltitude
  = buildDescentList windData deployAltitude mainRate false other
      rocketAltitude.
Proof. reflexivity. Qed.

(** X15.  After setSingleDeployment(rate) on a rocket, whatever was set
    on it before, the rocket does not use dual deployment and every
    entry of a descent list built for it carries that rate, on any wind
    samples. *)
Theorem single_deployment_keeps_one_rate (rocket : Rocket.RocketBase)
    (rate : Q) (windData : list WindAtAltitude) (rocketAltitude : Q)
    (descentList : list DescentData) (rocketAltitude' : Q) :
  buildDescentList windData
    (Rocket.mainDeployAltitude
       (RocketSetters.setSingleDeployment rocket (Fin rate)))
    (Rocket.descentRateMain
       (RocketSetters.setSingleDeployment rocket (Fin rate)))
    (Rocket.usingDualDeployment
       (RocketSetters.setSingleDeployment rocket (Fin rate)))
    (Rocket.descentRateDrogue
       (RocketSetters.setSingleDeployment rocket (Fin rate)))
    rocketAltitude
  = Normal (Some (descentList, rocketAltitude')) ->
  Rocket.usingDualDeployment
    (RocketSetters.setSingleDeployment rocket (Fin rate)) = false
  /\ Forall (fun s => descentRate s = rate) descentList.
Proof.
  assert (Hsingle : Rocket.usingDualDeployment
                      (RocketSetters.setSingleDeployment rocket (Fin rate))
                    = false).
  { unfold Rocket.usingDualDeployment, RocketSetters.setSingleDeployment.
    cbn [Rocket.mainDeployAltitude]. apply Qltb_false. lra. }
  rewrite Hsingle.
  unfold RocketSetters.setSingleDeployment.
  cbn [Rocket.mainDeployAltitude Rocket.descentRateMain
       Rocket.descentRateDrogue].
  rewrite (build_single_ignores_drogue windData (-1) (Fin rate)
             (Rocket.descentRateDrogue rocket) (Fin rate)).
  intros Hbuilt. split; [reflexivity |].
  assert (Hsamples : windData <> []).
  { intro H. subst windData. rewrite build_without_samples in Hbuilt.
    discriminate Hbuilt. }
  destruct (build_total windData (-1) rate false rate rocketAltitude Hsamples)
    as (built & Hbuilt' & Hlist).
  rewrite Hbuilt' in Hbuilt. injection Hbuilt as Hbuilt. subst built.
  destruct (Hlist descentList rocketAltitude' eq_refl) as [_ Hrates].
  apply (Hrates (fun r => r = rate)); reflexivity.
Qed.

Lemma single_deployment_keeps_one_rate_witness :
  exists descentList rocketAltitude',
    buildDescentList threeSamples (-1) (Fin 18) false (Fin 75) 1200
    = Normal (Some (descentList, rocketAltitude'))
    /\ Rocket.usingDualDeployment
         (RocketSetters.setSingleDeployment
            (RocketSetters.setDualDeployment RocketSetters.newRocketBase
               (Fin 75) 500 (Fin 20))
            (Fin 18))
       = false
    /\ Forall (fun s => descentRate s = 18) descentList.
Proof.
  eexists. eexists. split; [vm_compute; reflexivity |].
  eapply (single_deployment_keeps_one_rate
            (RocketSetters.setDualDeployment RocketSetters.newRocketBase
               (Fin 75) 500 (Fin 20))
            18 threeSamples 1200).
  vm_compute. reflexivity.
Defined.

(* ------------------------------------------------------------------ *)
(** ** The two engines *)

(** On samples of strictly increasing altitude the band loop leaves the
    apogee altitude as it was. *)
Lemma build_sorted_altitude (windData : list WindAtAltitude)
    (deployAltitude mainRate : Q) (usingDual : bool)
    (drogueRate rocketAltitude : Q) (descentList : list DescentData)
    (rocketAltitude' : Q) :
  ascendingByAltitude windData ->
  buildDescentList windData deployAltitude (Fin mainRate) usingDual
    (Fin drogueRate) rocketAltitude
  = Normal (Some (descentList, rocketAltitude')) ->
  rocketAltitude' = rocketAltitude.
Proof.
  intros Hsorted Hbuilt.
  assert (Hsamples : windData <> []).
  { intro H. subst windData. rewrite build_without_samples in Hbuilt.
    discriminate Hbuilt. }
  destruct (find_spec windData rocketAltitude Hsamples) as ([_ Hmost] & _).
  destruct (Nat.eq_dec (findWindIndex windData rocketAltitude)
              (length windData)) as [Habove | Hinside].
  - exfalso. unfold buildDescentList, generateDescentList in Hbuilt.
    cbv zeta in Hbuilt. rewrite Habove, Nat.eqb_refl in Hbuilt.
    discriminate Hbuilt.
  - destruct (build_sorted windData deployAltitude mainRate Hsorted usingDual
                drogueRate rocketAltitude ltac:(lia))
      as (first & steps & Hsame & _).
    rewrite Hsame in Hbuilt. injection Hbuilt as _ H. symmetry. exact H.
Qed.

(** X16.  Without weathercocking, on wind samples of strictly increasing
    altitude, driftSimulation run for a RocketApogee with the recovery
    data of the form, at a launch site whose altitude is the elevation
    entered in the form, completes as the hour of calculateLandingPlots
    does: both throw, both give no result, or both give the same
    result. *)
Theorem engines_agree_without_weathercocking {G : GeoModule}
    (inputs : LaunchInputs) (launchLocation : GeoLocation)
    (windForecast : WindForecastData) (hour : Z) (siteElevation : Q) :
  ascendingByAltitude (windData windForecast) ->
  applyWeathercockAdjustment inputs = false ->
  launchSiteElevationValue inputs = Fin siteElevation ->
  0 <= siteElevation ->
  usingDualDeployoment inputs = Qltb 0 (mainDeployAltitude inputs) ->
  driftSimulation (Rocket.mkLaunchLocationData siteElevation launchLocation)
    hour (Rocket.Apogee (rocketApogee inputs))
    (Rocket.mkRocketBase (Fin (mainDescentRate inputs))
       (mainDeployAltitude inputs) (Fin (drogueDecentRate inputs)))
    windForecast
  = simulateHour inputs launchLocation windForecast hour.
Proof.
  intros Hsorted Hplain Helevation Hground Hdual.
  unfold driftSimulation, simulateHour, adjustedApogee.
  rewrite Hplain, Helevation.
  replace (Qltb siteElevation 0) with false
    by (symmetry; apply Qltb_false; exact Hground).
  cbn [Rocket.getLaunchPath length Nat.eqb Nat.sub elem nth_error bind
       location pointAltitude Rocket.siteLocation Rocket.siteAltitude
       Rocket.mainDeployAltitude Rocket.descentRateMain
       Rocket.descentRateDrogue].
  unfold Rocket.usingDualDeployment. cbn [Rocket.mainDeployAltitude].
  rewrite <- Hdual.
  destruct (buildDescentList (windData windForecast)
              (mainDeployAltitude inputs) (Fin (mainDescentRate inputs))
              (usingDualDeployoment inputs) (Fin (drogueDecentRate inputs))
              (rocketApogee inputs)) as [[[descentList rocketAltitude'] |] |]
    eqn:Hbuilt; cbn [bind]; try reflexivity.
  pose proof (build_sorted_altitude _ _ _ _ _ _ _ _ Hsorted Hbuilt) as Hsame.
  subst rocketAltitude'.
  destruct (windData windForecast) as [| ground samples] eqn:Hsamples.
  { rewrite build_without_samples in Hbuilt. discriminate Hbuilt. }
  cbn [elem nth_error bind]. reflexivity.
Qed.

Lemma engines_agree_without_weathercocking_witness :
  @driftSimulation gridGeo (Rocket.mkLaunchLocationData 120 sampleSite) 9
    (Rocket.Apogee 1500) (Rocket.mkRocketBase (Fin 20) 500 (Fin 75))
    dualForecast
  = @simulateHour gridGeo (mkLaunchInputs 1500 false [] 20 true 500 75 (Fin 120))
      sampleSite dualForecast 9.
Proof.
  apply (@engines_agree_without_weathercocking gridGeo
           (mkLaunchInputs 1500 false [] 20 true 500 75 (Fin 120))
           sampleSite dualForecast 9 120).
  - unfold ascendingByAltitude, dualForecast, threeSamples. cbn [windData].
    repeat (apply SSorted_cons;
            [| repeat (apply Forall_cons; [cbn; lra |]); apply Forall_nil]).
    apply SSorted_nil.
  - reflexivity.
  - reflexivity.
  - lra.
  - reflexivity.
Defined.

(* ------------------------------------------------------------------ *)
(** ** The constructor of WindForecastData *)

Lemma filter_keeps_order {A : Type} (R : A -> A -> Prop) (keep : A -> bool)
    (l : list A) :
  StronglySorted R l -> StronglySorted R (filter keep l).
Proof.
  induction 1 as [| a l Hsorted IH Hall]; cbn [filter].
  - apply SSorted_nil.
  - destruct (keep a); [| exact IH].
    apply SSorted_cons; [exact IH |].
    rewrite Forall_forall in Hall |- *.
    intros b Hb. apply filter_In in Hb. apply Hall. tauto.
Qed.

Lemma newSet_subset (values : list Q) :
  forall a, In a (WindForecast.newSet values) -> In a values.
Proof.
  induction values as [| v later IH]; intros a Ha; cbn in Ha.
  - contradiction.
  - destruct Ha as [Ha | Ha]; [left; exact Ha |].
    apply filter_In in Ha. right. apply IH. tauto.
Qed.

(** No altitude of a Set equals an altitude before it. *)
Lemma newSet_distinct (values : list Q) :
  StronglySorted (fun a b => ~ b == a) (WindForecast.newSet values).
Proof.
  induction values as [| v later IH]; cbn [WindForecast.newSet].
  - apply SSorted_nil.
  - apply SSorted_cons; [apply filter_keeps_order; exact IH |].
    rewrite Forall_forall. intros b Hb.
    apply filter_In in Hb. destruct Hb as [_ Hb].
    apply negb_true_iff in Hb. apply Qeqb_false in Hb. exact Hb.
Qed.

Lemma insertAscending_in (a : Q) (sorted : list Q) :
  forall x, In x (WindForecast.insertAscending a sorted) <-> x = a \/ In x sorted.
Proof.
  induction sorted as [| b rest IH]; intros x; cbn [WindForecast.insertAscending].
  - cbn. intuition.
  - destruct (Qltb b a).
    + cbn [In]. rewrite IH. intuition.
    + cbn [In]. intuition.
Qed.

Lemma sort_in (altitudes : list Q) :
  forall x, In x (WindForecast.sort altitudes) <-> In x altitudes.
Proof.
  unfold WindForecast.sort.
  induction altitudes as [| a rest IH]; intros x; cbn [fold_right].
  - reflexivity.
  - rewrite insertAscending_in, IH. cbn [In]. intuition.
Qed.

Lemma insertAscending_sorted (a : Q) (sorted : list Q) :
  StronglySorted Qlt sorted ->
  (forall x, In x sorted -> ~ x == a) ->
  StronglySorted Qlt (WindForecast.insertAscending a sorted).
Proof.
  induction 1 as [| b rest Hsorted IH Hall]; intros Hdistinct;
    cbn [WindForecast.insertAscending].
  - apply SSorted_cons; [apply SSorted_nil | apply Forall_nil].
  - destruct (Qltb b a) eqn:Hba.
    + apply Qltb_true in Hba.
      apply SSorted_cons.
      * apply IH. intros x Hx. apply Hdistinct. right. exact Hx.
      * rewrite Forall_forall in Hall |- *. intros x Hx.
        apply insertAscending_in in Hx. destruct Hx as [-> | Hx];
          [exact Hba | apply Hall; exact Hx].
    + apply Qltb_false in Hba.
      assert (Hab : a < b).
      { apply Qle_lteq in Hba. destruct Hba as [Hlt | Heq]; [exact Hlt |].
        exfalso. apply (Hdistinct b); [left; reflexivity |].
        symmetry. exact Heq. }
      apply SSorted_cons.
      * apply SSorted_cons; assumption.
      * apply Forall_cons; [exact Hab |].
        rewrite Forall_forall in Hall |- *. intros x Hx.
        specialize (Hall x Hx). cbn beta in Hall. lra.
Qed.

Lemma sort_sorted (altitudes : list Q) :
  StronglySorted (fun a b => ~ b == a) altitudes ->
  StronglySorted Qlt (WindForecast.sort altitudes).
Proof.
  unfold WindForecast.sort.
  induction 1 as [| a rest Hdistinct IH Hall]; cbn [fold_right].
  - apply SSorted_nil.
  - apply insertAscending_sorted; [exact IH |].
    intros x Hx. apply (proj1 (sort_in rest x)) in Hx.
    rewrite Forall_forall in Hall. exact (Hall x Hx).
Qed.

Lemma loadSamples_sorted (windSpeeds windDirections : Q -> option number)
    (altitudes : list Q) :
  StronglySorted Qlt altitudes ->
  forall samples,
    WindForecast.loadSamples windSpeeds windDirections altitudes
    = Normal samples ->
    ascendingByAltitude samples
    /\ Forall (fun sample =>
                 In (altitude sample) altitudes
                 /\ windSpeeds (altitude sample)
                    = Some (Fin (windSpeed sample))
                 /\ windDirections (altitude sample)
                    = Some (Fin (windDirection sample)))
         samples.
Proof.
  unfold ascendingByAltitude.
  induction 1 as [| a rest Hsorted IH Hall]; intros samples Hload;
    cbn [WindForecast.loadSamples] in Hload.
  - injection Hload as <-. split; [apply SSorted_nil | apply Forall_nil].
  - assert (Hlater :
              forall samples',
                WindForecast.loadSamples windSpeeds windDirections rest
                = Normal samples' ->
                StronglySorted (fun x y => altitude x < altitude y) samples'
                /\ Forall (fun sample =>
                             In (altitude sample) (a :: rest)
                             /\ windSpeeds (altitude sample)
                                = Some (Fin (windSpeed sample))
                             /\ windDirections (altitude sample)
                                = Some (Fin (windDirection sample)))
                     samples'
                /\ Forall (fun sample => a < altitude sample) samples').
    { intros samples' Hrest. destruct (IH samples' Hrest) as [Hs Hf].
      split; [exact Hs |].
      rewrite Forall_forall in Hf, Hall.
      split; rewrite Forall_forall; intros sample Hsample;
        destruct (Hf sample Hsample) as (Hin & Hspeed & Hdirection).
      - split; [right; exact Hin | split; assumption].
      - apply Hall. exact Hin. }
    destruct (windSpeeds a) as [parsedSpeed |] eqn:Hspeed;
      [| destruct (Hlater samples Hload) as (H1 & H2 & _); split; assumption].
    destruct (windDirections a) as [parsedDirection |] eqn:Hdirection;
      [| destruct (Hlater samples Hload) as (H1 & H2 & _); split; assumption].
    destruct parsedSpeed as [s |]; [| discriminate Hload].
    destruct parsedDirection as [d |]; [| discriminate Hload].
    cbn [newWindAtAltitude bind] in Hload.
    destruct (WindForecast.loadSamples windSpeeds windDirections rest)
      as [samples' |] eqn:Hrest; [| discriminate Hload].
    cbn [bind] in Hload. injection Hload as <-.
    destruct (Hlater samples' eq_refl) as (H1 & H2 & H3).
    split.
    + apply SSorted_cons; [exact H1 | exact H3].
    + apply Forall_cons; [| exact H2].
      cbn [altitude windSpeed windDirection].
      split; [left; reflexivity | split; assumption].
Qed.

(** X17.  The wind samples of a forecast the constructor of
    WindForecastData returns are sorted by strictly increasing altitude.
    Every sample stands at an altitude of the altitude array of the
    model and carries the wind speed and the wind direction parsed for
    that altitude; the ground wind direction of the forecast is the
    value read for the ground wind speed. *)
Theorem constructed_forecast_is_ascending (windJSON : WindForecast.WindJSON)
    (windForecast : WindForecastData) :
  WindForecast.newWindForecastData windJSON = Normal windForecast ->
  ascendingByAltitude (windData windForecast)
  /\ Forall (fun sample =>
               In (altitude sample)
                 (if WindForecast.modelRAP windJSON
                  then WindForecast.altFtRaw windJSON
                  else WindForecast.altFt windJSON)
               /\ (if WindForecast.modelRAP windJSON
                   then WindForecast.speedRaw windJSON
                   else WindForecast.speed windJSON) (altitude sample)
                  = Some (Fin (windSpeed sample))
               /\ (if WindForecast.modelRAP windJSON
                   then WindForecast.directionRaw windJSON
                   else WindForecast.direction windJSON) (altitude sample)
                  = Some (Fin (windDirection sample)))
       (windData windForecast)
  /\ groundWindDirection windForecast = groundWindSpeed windForecast.
Proof.
  unfold WindForecast.newWindForecastData. cbv zeta. intros Hnew.
  match type of Hnew with
  | bind (WindForecast.loadSamples ?s ?d ?alts) _ = _ =>
      destruct (WindForecast.loadSamples s d alts) as [samples |] eqn:Hload;
        [| discriminate Hnew];
      pose proof (loadSamples_sorted s d alts
                    (sort_sorted _ (newSet_distinct _)) samples Hload)
        as [Hsorted Hfrom]
  end.
  cbn [bind] in Hnew. injection Hnew as <-.
  cbn [windData groundWindDirection groundWindSpeed].
  split; [exact Hsorted |]. split; [| reflexivity].
  rewrite Forall_forall in Hfrom |- *.
  intros sample Hsample.
  destruct (Hfrom sample Hsample) as (Hin & Hspeed & Hdirection).
  split; [| split; assumption].
  apply newSet_subset. apply (proj1 (sort_in _ _)). exact Hin.
Qed.

Lemma constructed_forecast_is_ascending_witness :
  exists windForecast,
    WindForecast.newWindForecastData
      (WindForecast.mkWindJSON false [] (fun _ => None) (fun _ => None)
         [3000; 0; 1000; 3000; 6000]
         (fun a => if Qeqb a 6000 then None else Some (Fin (a / 100)))
         (fun a => Some (Fin 270))
         (Some 820) (Some 7))
    = Normal windForecast
    /\ map altitude (windData windForecast) = [0; 1000; 3000]
    /\ ascendingByAltitude (windData windForecast)
    /\ groundWindDirection windForecast = 7.
Proof.
  eexists. split; [vm_compute; reflexivity |].
  split; [reflexivity |].
  match goal with
  | |- ascendingByAltitude (windData ?f) /\ _ =>
      destruct (constructed_forecast_is_ascending
                  (WindForecast.mkWindJSON false [] (fun _ => None)
                     (fun _ => None)
                     [3000; 0; 1000; 3000; 6000]
                     (fun a =>
                        if Qeqb a 6000 then None else Some (Fin (a / 100)))
                     (fun a => Some (Fin 270))
                     (Some 820) (Some 7))
                  f) as (Hsorted & _ & Hground)
  end.
  - vm_compute. reflexivity.
  - split; [exact Hsorted | exact Hground].
Defined.



(* ------------------------------------------------------------------ *)
(** ** The label and the colour of an hour *)

Lemma hour_cases (hour : Z) :
  (0 <= hour <= 23)%Z -> In hour (map Z.of_nat (seq 0 24)).
Proof.
  intros Hhour. replace hour with (Z.of_nat (Z.to_nat hour)) by lia.
  apply in_map. apply in_seq. lia.
Qed.

Ltac each_hour H :=
  apply hour_cases in H; cbn [map seq Z.of_nat Pos.of_succ_nat Pos.succ] in H;
  repeat (destruct H as [H | H]; [subst |]); [.. | contradiction].

(** X19.  getHourColor returns an entry of the colour table for every
    integer hour.  An hour of the afternoon gets the colour of the hour
    twelve hours earlier, the twelve hours of a half day get twelve
    different colours, and no hour from 0 to 23 gets the colour returned
    for -1, which the KML writers use for the launch site. *)
Theorem hour_colours_are_shared_by_half_days :
  (forall hour : Z,
      exists colour,
        HourLabels.getHourColor hour = Some colour
        /\ In colour HourLabels.mapColors)
  /\ (forall hour : Z,
        (0 <= hour < 12)%Z ->
        HourLabels.getHourColor (hour + 12) = HourLabels.getHourColor hour)
  /\ (forall a b : Z,
        (0 <= a < 12)%Z -> (0 <= b < 12)%Z ->
        HourLabels.getHourColor a = HourLabels.getHourColor b -> a = b)
  /\ (forall hour : Z,
        (0 <= hour <= 23)%Z ->
        HourLabels.getHourColor hour <> HourLabels.getHourColor (-1)).
Proof.
  split; [| split; [| split]].
  - intros hour.
    destruct (Z_lt_le_dec hour 0) as [Hneg | Hpos].
    { unfold HourLabels.getHourColor.
      replace (hour <? 0)%Z with true by (symmetry; apply Z.ltb_lt; exact Hneg).
      cbn [orb]. eexists. split; [reflexivity | left; reflexivity]. }
    destruct (Z_lt_le_dec 23 hour) as [Hlate | Hday].
    { unfold HourLabels.getHourColor.
      replace (23 <? hour)%Z with true by (symmetry; apply Z.ltb_lt; exact Hlate).
      rewrite orb_true_r. eexists. split; [reflexivity | left; reflexivity]. }
    assert (H : (0 <= hour <= 23)%Z) by lia. clear Hpos Hday.
    each_hour H;
      (eexists; split; [vm_compute; reflexivity | cbn; tauto]).
  - intros hour Hhour.
    assert (H : (0 <= hour <= 23)%Z) by lia.
    each_hour H; try lia; vm_compute; reflexivity.
  - intros a b Ha Hb.
    assert (H : (0 <= a <= 23)%Z) by lia.
    assert (H' : (0 <= b <= 23)%Z) by lia.
    each_hour H; try lia;
      (each_hour H'; try lia; vm_compute; intros Hsame;
       solve [reflexivity | discriminate Hsame]).
  - intros hour H.
    each_hour H; vm_compute; intros Hsame; discriminate Hsame.
Qed.

Lemma hour_colours_are_shared_by_half_days_witness :
  (exists colour,
      HourLabels.getHourColor 24 = Some colour
      /\ In colour HourLabels.mapColors)
  /\ HourLabels.getHourColor (3 + 12) = HourLabels.getHourColor 3
  /\ (HourLabels.getHourColor 0 = HourLabels.getHourColor 0 -> 0%Z = 0%Z)
  /\ HourLabels.getHourColor 12 <> HourLabels.getHourColor (-1).
Proof.
  destruct hour_colours_are_shared_by_half_days
    as (Hdefined & Hshared & Hdistinct & Hreserved).
  split; [apply (Hdefined 24%Z) |].
  split; [apply (Hshared 3%Z); lia |].
  split; [apply (Hdistinct 0%Z 0%Z); lia |].
  apply (Hreserved 12%Z). lia.
Defined.

(** X20.  For a result whose time is an hour from 0 to 23, the label
    getLaunchTime gives is a clock number from 1 to 12 followed by two
    letters; the clock number differs from the hour by 0 or by 12, and
    the colour getHourColor gives for the hour is the entry of the
    colour table at the clock number.  Two results with hours from 0 to
    23 and the same label have the same hour. *)
Theorem launch_time_label_matches_colour (s : LaunchSimulationData) :
  (0 <= time s <= 23)%Z ->
  (exists (clock : Z) (letters : String.string),
      (1 <= clock <= 12)%Z
      /\ HourLabels.getLaunchTime s
         = String.append (HourLabels.decimal clock) letters
      /\ String.length letters = 2%nat
      /\ (clock = time s \/ clock = (time s + 12)%Z
          \/ clock = (time s - 12)%Z)
      /\ HourLabels.getHourColor (time s)
         = nth_error HourLabels.mapColors (Z.to_nat clock))
  /\ (forall other : LaunchSimulationData,
        (0 <= time other <= 23)%Z ->
        HourLabels.getLaunchTime s = HourLabels.getLaunchTime other ->
        time s = time other).
Proof.
  destruct s as [hour path ele]. cbn [time]. intros H.
  split.
  - exists (if (hour =? 0)%Z then 12%Z
            else if (12 <? hour)%Z then (hour - 12)%Z else hour).
    exists (String.substring
              (String.length
                 (HourLabels.getLaunchTime
                    (mkLaunchSimulationData hour path ele)) - 2)
              2
              (HourLabels.getLaunchTime
                 (mkLaunchSimulationData hour path ele))).
    unfold HourLabels.getLaunchTime. cbn [time].
    each_hour H;
      (split; [vm_compute; split; discriminate |]);
      (split; [vm_compute; reflexivity |]);
      (split; [vm_compute; reflexivity |]);
      (split; [vm_compute; tauto | vm_compute; reflexivity]).
  - intros [hour' path' ele']. cbn [time]. intros H'.
    unfold HourLabels.getLaunchTime. cbn [time].
    each_hour H;
      (each_hour H'; vm_compute; intros Hsame;
       solve [reflexivity | discriminate Hsame]).
Qed.

Lemma launch_time_label_matches_colour_witness :
  (exists (clock : Z) (letters : String.string),
      (1 <= clock <= 12)%Z
      /\ HourLabels.getLaunchTime (mkLaunchSimulationData 15 [] 0)
         = String.append (HourLabels.decimal clock) letters
      /\ String.length letters = 2%nat
      /\ (clock = 15%Z \/ clock = (15 + 12)%Z \/ clock = (15 - 12)%Z)
      /\ HourLabels.getHourColor 15
         = nth_error HourLabels.mapColors (Z.to_nat clock))
  /\ (forall other : LaunchSimulationData,
        (0 <= time other <= 23)%Z ->
        HourLabels.getLaunchTime (mkLaunchSimulationData 15 [] 0)
        = HourLabels.getLaunchTime other ->
        15%Z = time other).
Proof.
  apply (launch_time_label_matches_colour (mkLaunchSimulationData 15 [] 0)).
  cbn. lia.
Defined.

(* ------------------------------------------------------------------ *)
(** ** The band of the apogee *)

(** The first entry of a descent list built on samples of strictly
    increasing altitude, for an apogee inside the samples: the band
    chosen encloses the apogee and the wind speed of the entry is the
    speed averaged over that band. *)
Lemma apogee_entry_speed (windData : list WindAtAltitude)
    (deployAltitude mainRate : Q) (usingDual : bool)
    (drogueRate rocketAltitude : Q) (ground top : WindAtAltitude) (j : nat)
    (first : DescentData) (rest : list DescentData) (rocketAltitude' : Q) :
  ascendingByAltitude windData ->
  nth_error windData 0 = Some ground ->
  altitude ground <= rocketAltitude ->
  (1 <= j)%nat ->
  nth_error windData j = Some top ->
  rocketAltitude <= altitude top ->
  buildDescentList windData deployAltitude (Fin mainRate) usingDual
    (Fin drogueRate) rocketAltitude
  = Normal (Some (first :: rest, rocketAltitude')) ->
  exists lo hi fraction,
    nth_error windData (findWindIndex windData rocketAltitude - 1) = Some lo
    /\ nth_error windData (S (findWindIndex windData rocketAltitude - 1))
       = Some hi
    /\ altitude lo <= rocketAltitude <= altitude hi
    /\ 0 <= fraction <= 1
    /\ stepWindSpeed first
       == (windSpeed lo
           + (windSpeed lo + fraction * (windSpeed hi - windSpeed lo))) / 2.
Proof.
  intros Hsorted Hground Hfloor Hj Htop Hceiling Hbuilt.
  assert (Hsamples : windData <> []).
  { intro H. subst windData. discriminate Hground. }
  pose proof (find_inside windData rocketAltitude j top Hj Htop Hceiling)
    as Hinside.
  destruct (find_spec windData rocketAltitude Hsamples)
    as ([Hone _] & Hbelow & Hreach).
  destruct (Hreach Hinside) as (hi & Hhi & Hreached).
  set (index := findWindIndex windData rocketAltitude) in *.
  destruct (reads_inside windData (index - 1) ltac:(lia)) as [lo Hlo].
  replace index with (S (index - 1)) in Hhi by lia.
  assert (Hlow : altitude lo <= rocketAltitude).
  { destruct (Nat.eq_dec (index - 1) 0) as [Hzero | Hpositive].
    - rewrite Hzero in Hlo. rewrite Hground in Hlo.
      injection Hlo as <-. exact Hfloor.
    - apply Qlt_le_weak. apply (Hbelow (index - 1)%nat lo); [lia | exact Hlo]. }
  assert (Hband : altitude lo < altitude hi).
  { apply (ascending_nth windData Hsorted (index - 1) (S (index - 1)) lo hi);
      [lia | exact Hlo | exact Hhi]. }
  destruct (interpolation_inside windData (index - 1) lo hi rocketAltitude
              Hlo Hhi (conj Hlow Hreached) Hband)
    as (fraction & speed & direction & Hfraction & Hrange & Hspeed & Hvalue
        & Hdirection).
  exists lo, hi, fraction.
  split; [exact Hlo |]. split; [exact Hhi |].
  split; [split; assumption |]. split; [exact Hrange |].
  assert (Hfirst : stepWindSpeed first = speed).
  { unfold buildDescentList, generateDescentList in Hbuilt.
    cbv zeta in Hbuilt. fold index in Hbuilt.
    replace (Nat.eqb (length windData) index) with false in Hbuilt
      by (symmetry; apply Nat.eqb_neq; lia).
    unfold apogeeStep in Hbuilt.
    rewrite Hfraction in Hbuilt. cbn [bind] in Hbuilt.
    rewrite Hspeed in Hbuilt. cbn [bind] in Hbuilt.
    rewrite Hdirection in Hbuilt. cbn [bind] in Hbuilt.
    destruct usingDual; cbn [newDescentData bind] in Hbuilt;
      match type of Hbuilt with
      | context [walkBands ?w ?d ?r ?i ?c ?a] =>
          destruct (walkBands w d r i c a) as [[steps alt] |]
      end; cbn [bind] in Hbuilt; try discriminate Hbuilt;
      match type of Hbuilt with
      | context [Nat.ltb ?n 2] => destruct (Nat.ltb n 2)
      end; try discriminate Hbuilt;
      injection Hbuilt as <- _ _; reflexivity. }
  rewrite Hfirst. exact Hvalue.
Qed.

(** X21.  On samples of strictly increasing altitude, for an apogee not
    below the lowest sample and not above some sample after it, the band
    chosen for the apogee encloses it, the descent list is built with
    the apogee altitude unchanged, and its first entry stands at the
    apogee with a wind speed between the speeds of the two samples of
    that band. *)
Theorem apogee_entry_lies_in_its_band (windData : list WindAtAltitude)
    (deployAltitude mainRate : Q) (usingDual : bool)
    (drogueRate rocketAltitude : Q) (ground top : WindAtAltitude) (j : nat) :
  ascendingByAltitude windData ->
  nth_error windData 0 = Some ground ->
  altitude ground <= rocketAltitude ->
  (1 <= j)%nat ->
  nth_error windData j = Some top ->
  rocketAltitude <= altitude top ->
  exists lo hi first rest,
    nth_error windData (findWindIndex windData rocketAltitude - 1) = Some lo
    /\ nth_error windData (S (findWindIndex windData rocketAltitude - 1))
       = Some hi
    /\ altitude lo <= rocketAltitude <= altitude hi
    /\ buildDescentList windData deployAltitude (Fin mainRate) usingDual
         (Fin drogueRate) rocketAltitude
       = Normal (Some (first :: rest, rocketAltitude))
    /\ stepAltitude first = rocketAltitude
    /\ between (windSpeed lo) (stepWindSpeed first) (windSpeed hi).
Proof.
  intros Hsorted Hground Hfloor Hj Htop Hceiling.
  pose proof (find_inside windData rocketAltitude j top Hj Htop Hceiling)
    as Hinside.
  destruct (build_sorted windData deployAltitude mainRate Hsorted usingDual
              drogueRate rocketAltitude Hinside)
    as (first & rest & Hbuilt & Haltitude & _).
  destruct (apogee_entry_speed windData deployAltitude mainRate usingDual
              drogueRate rocketAltitude ground top j first rest rocketAltitude
              Hsorted Hground Hfloor Hj Htop Hceiling Hbuilt)
    as (lo & hi & fraction & Hlo & Hhi & Hband & Hrange & Hspeed).
  exists lo, hi, first, rest.
  split; [exact Hlo |]. split; [exact Hhi |]. split; [exact Hband |].
  split; [exact Hbuilt |]. split; [exact Haltitude |].
  apply (between_compat (windSpeed lo) (windSpeed lo)
           (windSpeed lo + (fraction / 2) * (windSpeed hi - windSpeed lo))
           (stepWindSpeed first) (windSpeed hi) (windSpeed hi));
    [reflexivity | rewrite Hspeed; field | reflexivity |].
  apply scaled_between. destruct Hrange as [H0 H1]. split; qlra.
Qed.

Lemma apogee_entry_lies_in_its_band_witness :
  exists lo hi first rest,
    nth_error threeSamples (findWindIndex threeSamples 1200 - 1) = Some lo
    /\ nth_error threeSamples (S (findWindIndex threeSamples 1200 - 1))
       = Some hi
    /\ altitude lo <= 1200 <= altitude hi
    /\ buildDescentList threeSamples 500 (Fin 20) true (Fin 75) 1200
       = Normal (Some (first :: rest, 1200))
    /\ stepAltitude first = 1200
    /\ between (windSpeed lo) (stepWindSpeed first) (windSpeed hi).
Proof.
  apply (apogee_entry_lies_in_its_band threeSamples 500 20 true 75 1200
           (mkWindAtAltitude 0 5 0) (mkWindAtAltitude 1500 20 180) 2).
  - unfold ascendingByAltitude, threeSamples.
    repeat (apply SSorted_cons;
            [| repeat (apply Forall_cons; [cbn; lra |]); apply Forall_nil]).
    apply SSorted_nil.
  - reflexivity.
  - cbn. lra.
  - lia.
  - reflexivity.
  - cbn. lra.
Defined.

(* ------------------------------------------------------------------ *)
(** ** A steady wind *)

Section SteadyWind.

Variable windData : list WindAtAltitude.
Variable deployAltitude : Q.
Variable mainRate : Q.
Variable steady : Q.

Hypothesis windData_steady :
  forall sample, In sample windData -> windSpeed sample == steady.

Lemma steady_outcome (lo hi : WindAtAltitude) (rate : Q)
    (pushed : list DescentData) (rate' : Q) :
  In lo windData ->
  In hi windData ->
  BandOutcome deployAltitude mainRate lo hi rate pushed rate' ->
  Forall (fun s => stepWindSpeed s == steady) pushed.
Proof.
  intros Hlo Hhi Houtcome.
  pose proof (windData_steady lo Hlo) as H0.
  pose proof (windData_steady hi Hhi) as H1.
  destruct Houtcome as [Hat | fraction speed direction Ha Hb Hf Hspeed | Hne Hout].
  - apply Forall_cons; [exact H0 | apply Forall_nil].
  - apply Forall_cons; [| apply Forall_cons; [exact H0 | apply Forall_nil]].
    cbn [stepWindSpeed]. rewrite Hspeed, H0, H1. field.
  - apply Forall_cons; [exact H0 | apply Forall_nil].
Qed.

Lemma steady_walk (i : nat) :
  forall rate steps,
    Walk deployAltitude mainRate windData i rate steps ->
    Forall (fun s => stepWindSpeed s == steady) steps.
Proof.
  induction i as [| i IH]; intros rate steps Hwalk;
    inversion Hwalk as [lo hi r pushed r' Hlo Hhi Hout
                       | below lo hi r pushed r' rest Hlo Hhi Hout Hrest]; subst.
  - exact (steady_outcome _ _ _ _ _ (nth_error_In _ _ Hlo)
             (nth_error_In _ _ Hhi) Hout).
  - apply Forall_app. split.
    + exact (steady_outcome _ _ _ _ _ (nth_error_In _ _ Hlo)
               (nth_error_In _ _ Hhi) Hout).
    + exact (IH _ _ Hrest).
Qed.

End SteadyWind.

(** The distances of the integration loop add up to the time of the fall
    times the wind speed, when every entry carries the same wind speed
    and the same descent rate. *)
Lemma steady_drifts_add_up {G : GeoModule} (steady rate : Q)
    (rest : list DescentData) :
  ~ rate == 0 ->
  Forall (fun s => stepWindSpeed s == steady /\ descentRate s = rate) rest ->
  forall previous rocketLocation,
    stepWindSpeed previous == steady ->
    totalDrift (driftDistances previous rest rocketLocation rate)
    == (stepAltitude previous - stepAltitude (last rest previous))
       / Qabs rate * (steady * 1.68781).
Proof.
  intros Hrate.
  assert (Habs : ~ Qabs rate == 0).
  { intro H. apply Hrate.
    destruct (Qlt_le_dec rate 0) as [Hneg | Hpos].
    - rewrite Qabs_neg in H by lra. lra.
    - rewrite Qabs_pos in H by lra. exact H. }
  induction rest as [| current rest IH];
    intros Hall previous rocketLocation Hprevious.
  - cbn [driftDistances totalDrift fold_right last]. field. exact Habs.
  - apply Forall_cons_iff in Hall. destruct Hall as [[Hspeed Hsame] Hall].
    cbn [driftDistances].
    unfold driftStep at 1. unfold driftWithWind at 1.
    replace (Qeqb 0 rate) with false
      by (symmetry; apply Qeqb_false; intro H; apply Hrate; lra).
    cbn [snd totalDrift fold_right].
    fold (totalDrift
            (driftDistances current rest
               (fst (driftStep previous current rocketLocation rate))
               (descentRate current))).
    rewrite Hsame.
    rewrite (IH Hall current _ Hspeed).
    rewrite Hspeed, Hprevious.
    assert (Hlast : last (current :: rest) previous = last rest current).
    { destruct rest as [| next rest']; [reflexivity |].
      change (last (current :: next :: rest') previous)
        with (last (next :: rest') previous).
      apply last_any_default. discriminate. }
    rewrite Hlast. field. exact Habs.
Qed.

(** X22.  In a wind of one speed at every sample, on samples of strictly
    increasing altitude and with single deployment at a rate other than
    0, the distances returned by driftWithWind along the descent add up
    to the wind speed (knots, converted to feet per second) times the
    time the fall from the apogee to the lowest sample takes at that
    rate. *)
Theorem steady_wind_drift_is_speed_times_fall_time {G : GeoModule}
    (windData : list WindAtAltitude) (deployAltitude mainRate : Q)
    (drogueRate steady rocketAltitude : Q) (ground top : WindAtAltitude)
    (j : nat) (rocketLocation : GeoLocation) :
  ascendingByAltitude windData ->
  (forall sample, In sample windData -> windSpeed sample == steady) ->
  ~ mainRate == 0 ->
  nth_error windData 0 = Some ground ->
  altitude ground <= rocketAltitude ->
  (1 <= j)%nat ->
  nth_error windData j = Some top ->
  rocketAltitude <= altitude top ->
  exists descentList,
    buildDescentList windData deployAltitude (Fin mainRate) false
      (Fin drogueRate) rocketAltitude
    = Normal (Some (descentList, rocketAltitude))
    /\ totalDrift (descentDrifts descentList rocketLocation)
       == (rocketAltitude - altitude ground) / Qabs mainRate
          * (steady * 1.68781).
Proof.
  intros Hsorted Hsteady Hrate Hground Hfloor Hj Htop Hceiling.
  assert (Hsamples : windData <> []).
  { intro H. subst windData. discriminate Hground. }
  pose proof (find_inside windData rocketAltitude j top Hj Htop Hceiling)
    as Hinside.
  destruct (build_sorted windData deployAltitude mainRate Hsorted false
              drogueRate rocketAltitude Hinside)
    as (first & steps & Hbuilt & Haltitude & Hfirst_rate & Hwalk).
  exists (first :: steps). split; [exact Hbuilt |].
  (* every entry carries the main rate *)
  destruct (build_total windData deployAltitude mainRate false drogueRate
              rocketAltitude Hsamples) as (built & Hbuilt' & Hlist).
  rewrite Hbuilt in Hbuilt'. injection Hbuilt' as <-.
  destruct (Hlist (first :: steps) rocketAltitude eq_refl) as [_ Hrates].
  pose proof (Hrates (fun r => r = mainRate) eq_refl eq_refl) as Hone.
  (* every entry carries the steady speed *)
  pose proof (steady_walk windData deployAltitude mainRate steady Hsteady
                _ _ _ Hwalk) as Hspeeds.
  assert (Hfirst_speed : stepWindSpeed first == steady).
  { destruct (apogee_entry_speed windData deployAltitude mainRate false
                drogueRate rocketAltitude ground top j first steps
                rocketAltitude Hsorted Hground Hfloor Hj Htop Hceiling Hbuilt)
      as (lo & hi & fraction & Hlo & Hhi & _ & _ & Hspeed).
    rewrite Hspeed.
    rewrite (Hsteady lo (nth_error_In _ _ Hlo)).
    rewrite (Hsteady hi (nth_error_In _ _ Hhi)). field. }
  (* the last entry stands at the lowest sample *)
  destruct (walk_ends_at_ground windData deployAltitude mainRate Hsorted
              _ _ _ ground Hwalk Hground) as (front & landing & Hsteps & Hlanding).
  cbn [descentDrifts].
  rewrite (Forall_inv Hone).
  rewrite steady_drifts_add_up with (steady := steady).
  - rewrite Hsteps, last_last, Hlanding, Haltitude. reflexivity.
  - exact Hrate.
  - apply Forall_inv_tail in Hone.
    rewrite Forall_forall in Hone, Hspeeds |- *.
    intros s Hs. split; [apply Hspeeds | apply Hone]; exact Hs.
  - exact Hfirst_speed.
Qed.

Lemma steady_wind_drift_is_speed_times_fall_time_witness :
  exists descentList,
    buildDescentList
      [mkWindAtAltitude 0 10 270; mkWindAtAltitude 500 10 250;
       mkWindAtAltitude 2000 10 230]
      (-1) (Fin 20) false (Fin 20) 1200
    = Normal (Some (descentList, 1200))
    /\ totalDrift (@descentDrifts gridGeo descentList sampleSite)
       == (1200 - 0) / Qabs 20 * (10 * 1.68781).
Proof.
  apply (@steady_wind_drift_is_speed_times_fall_time gridGeo
           [mkWindAtAltitude 0 10 270; mkWindAtAltitude 500 10 250;
            mkWindAtAltitude 2000 10 230]
           (-1) 20 20 10 1200
           (mkWindAtAltitude 0 10 270) (mkWindAtAltitude 2000 10 230) 2
           sampleSite).
  - unfold ascendingByAltitude.
    repeat (apply SSorted_cons;
            [| repeat (apply Forall_cons; [cbn; lra |]); apply Forall_nil]).
    apply SSorted_nil.
  - intros sample [<- | [<- | [<- | []]]]; reflexivity.
  - intro H. vm_compute in H. discriminate H.
  - reflexivity.
  - cbn. lra.
  - lia.
  - reflexivity.
  - cbn. lra.
Defined.

Lemma Qabs_other_than_zero (x : Q) : ~ x == 0 -> ~ Qabs x == 0.
Proof.
  intros Hx H. apply Hx.
  destruct (Qlt_le_dec x 0) as [Hneg | Hpos].
  - rewrite Qabs_neg in H by lra. lra.
  - rewrite Qabs_pos in H by lra. exact H.
Qed.

(** In a steady wind the distances of the integration loop add up to the
    wind speed times the time of the fall. *)
Lemma steady_drifts_are_fall_time {G : GeoModule} (steady : Q)
    (rest : list DescentData) :
  Forall (fun s => stepWindSpeed s == steady /\ ~ descentRate s == 0) rest ->
  forall previous rocketLocation rate,
    stepWindSpeed previous == steady ->
    ~ rate == 0 ->
    totalDrift (driftDistances previous rest rocketLocation rate)
    == fallTime previous rest rate * (steady * 1.68781).
Proof.
  induction rest as [| current rest IH];
    intros Hall previous rocketLocation rate Hprevious Hrate.
  - cbn [driftDistances totalDrift fold_right fallTime]. ring.
  - apply Forall_cons_iff in Hall. destruct Hall as [[Hspeed Hcurrent] Hall].
    pose proof (Qabs_other_than_zero rate Hrate) as Habs.
    cbn [driftDistances fallTime].
    unfold driftStep at 1. unfold driftWithWind at 1.
    replace (Qeqb 0 rate) with false
      by (symmetry; apply Qeqb_false; intro H; apply Hrate; lra).
    cbn [snd totalDrift fold_right].
    fold (totalDrift
            (driftDistances current rest
               (fst (driftStep previous current rocketLocation rate))
               (descentRate current))).
    rewrite (IH Hall current _ (descentRate current) Hspeed Hcurrent).
    rewrite Hspeed, Hprevious. field. exact Habs.
Qed.

Lemma fallTime_one_rate (rate : Q) (rest : list DescentData) :
  ~ rate == 0 ->
  Forall (fun s => descentRate s = rate) rest ->
  forall previous,
    fallTime previous rest rate
    == (stepAltitude previous - stepAltitude (last rest previous)) / Qabs rate.
Proof.
  intros Hrate. pose proof (Qabs_other_than_zero rate Hrate) as Habs.
  induction rest as [| current rest IH]; intros Hall previous.
  - cbn [fallTime last]. field. exact Habs.
  - apply Forall_cons_iff in Hall. destruct Hall as [Hcurrent Hall].
    cbn [fallTime]. rewrite Hcurrent, (IH Hall current).
    assert (Hlast : last (current :: rest) previous = last rest current).
    { destruct rest as [| next rest']; [reflexivity |].
      change (last (current :: next :: rest') previous)
        with (last (next :: rest') previous).
      apply last_any_default. discriminate. }
    rewrite Hlast. field. exact Habs.
Qed.

Section DualFall.

Variable windData : list WindAtAltitude.
Variable deployAltitude : Q.
Variable mainRate : Q.
Variable ground : WindAtAltitude.

Hypothesis windData_ascending : ascendingByAltitude windData.
Hypothesis ground_first : nth_error windData 0 = Some ground.
Hypothesis mainRate_usable : ~ mainRate == 0.

(** Under the main parachute, from any band down to the lowest sample. *)
Lemma walk_fall_time_main (i : nat) (steps : list DescentData)
    (previous : DescentData) :
  Walk deployAltitude mainRate windData i mainRate steps ->
  fallTime previous steps mainRate
  == (stepAltitude previous - altitude ground) / Qabs mainRate.
Proof.
  intros Hwalk.
  pose proof (walk_keeps_main_rate windData deployAltitude mainRate i steps
                Hwalk) as Hrates.
  destruct (walk_ends_at_ground windData deployAltitude mainRate
              windData_ascending i mainRate steps ground Hwalk ground_first)
    as (front & landing & Hsteps & Hlanding).
  rewrite (fallTime_one_rate mainRate steps mainRate_usable Hrates previous).
  rewrite Hsteps, last_last, Hlanding. reflexivity.
Qed.

(** Above the deployment altitude, at the rate the walk starts with:
    down to the deployment at that rate, then at the main rate. *)
Lemma walk_fall_time_pending (i : nat) :
  forall (rate : Q) (steps : list DescentData) (previous : DescentData)
         (hi : WindAtAltitude),
    Walk deployAltitude mainRate windData i rate steps ->
    nth_error windData (S i) = Some hi ->
    stepAltitude previous <= altitude hi ->
    altitude ground <= deployAltitude ->
    deployAltitude < stepAltitude previous ->
    ~ rate == 0 ->
    fallTime previous steps rate
    == (stepAltitude previous - deployAltitude) / Qabs rate
       + (deployAltitude - altitude ground) / Qabs mainRate.
Proof.
  pose proof (Qabs_other_than_zero mainRate mainRate_usable) as Hmain.
  induction i as [| below IH];
    intros rate steps previous top Hwalk Htop Hceiling Hfloor Habove Hrate;
    pose proof (Qabs_other_than_zero rate Hrate) as Habs;
    inversion Hwalk as [lo hi r pushed r' Hlo Hhi Hout
                       | below' lo hi r pushed r' rest Hlo Hhi Hout Hrest];
    subst.
  - rewrite ground_first in Hlo. injection Hlo as <-.
    rewrite Htop in Hhi. injection Hhi as <-.
    destruct Hout as [Hat | fraction speed direction Ha Hb Hf Hspeed | Hne Hno].
    + cbn [fallTime stepAltitude]. rewrite Hat. field. split; assumption.
    + cbn [fallTime stepAltitude descentRate]. field. split; assumption.
    + exfalso. apply Hno. split; [| lra].
      apply Qle_lteq in Hfloor. destruct Hfloor as [Hlt | Heq];
        [exact Hlt | contradiction].
  - rewrite Htop in Hhi. injection Hhi as <-.
    destruct Hout as [Hat | fraction speed direction Ha Hb Hf Hspeed | Hne Hno].
    + cbn [app fallTime stepAltitude descentRate].
      rewrite (walk_fall_time_main below rest _ Hrest).
      cbn [stepAltitude]. field. split; assumption.
    + cbn [app fallTime stepAltitude descentRate].
      rewrite (walk_fall_time_main below rest _ Hrest).
      cbn [stepAltitude]. field. split; assumption.
    + assert (Hbelow : deployAltitude < altitude lo).
      { destruct (Qlt_le_dec deployAltitude (altitude lo)) as [H | H];
          [exact H |].
        exfalso. apply Qle_lteq in H. destruct H as [Hlt | Heq].
        - apply Hno. split; [exact Hlt | lra].
        - apply Hne. exact Heq. }
      cbn [app fallTime stepAltitude descentRate].
      rewrite (IH rate rest _ lo Hrest Hlo); cbn [stepAltitude];
        [field; split; assumption | apply Qle_refl | exact Hfloor
         | exact Hbelow | exact Hrate].
Qed.

End DualFall.

(** X23.  In a wind of one speed at every sample, on samples of strictly
    increasing altitude, with dual deployment at a main deployment
    altitude below the apogee and not below the lowest sample, and rates
    other than 0, the distances returned by driftWithWind along the
    descent add up to the wind speed (knots, converted to feet per
    second) times the time of the fall: from the apogee to the
    deployment altitude at the drogue rate, and from there to the lowest
    sample at the main rate. *)
Theorem dual_deployment_drift_is_speed_times_fall_time {G : GeoModule}
    (windData : list WindAtAltitude) (deployAltitude mainRate : Q)
    (drogueRate steady rocketAltitude : Q) (ground top : WindAtAltitude)
    (j : nat) (rocketLocation : GeoLocation) :
  ascendingByAltitude windData ->
  (forall sample, In sample windData -> windSpeed sample == steady) ->
  ~ mainRate == 0 ->
  ~ drogueRate == 0 ->
  nth_error windData 0 = Some ground ->
  altitude ground <= deployAltitude ->
  deployAltitude < rocketAltitude ->
  (1 <= j)%nat ->
  nth_error windData j = Some top ->
  rocketAltitude <= altitude top ->
  exists descentList,
    buildDescentList windData deployAltitude (Fin mainRate) true
      (Fin drogueRate) rocketAltitude
    = Normal (Some (descentList, rocketAltitude))
    /\ totalDrift (descentDrifts descentList rocketLocation)
       == ((rocketAltitude - deployAltitude) / Qabs drogueRate
           + (deployAltitude - altitude ground) / Qabs mainRate)
          * (steady * 1.68781).
Proof.
  intros Hsorted Hsteady Hmain Hdrogue Hground Hfloor Habove Hj Htop Hceiling.
  assert (Hsamples : windData <> []).
  { intro H. subst windData. discriminate Hground. }
  pose proof (find_inside windData rocketAltitude j top Hj Htop Hceiling)
    as Hinside.
  destruct (build_sorted windData deployAltitude mainRate Hsorted true
              drogueRate rocketAltitude Hinside)
    as (first & steps & Hbuilt & Haltitude & Hfirst_rate & Hwalk).
  exists (first :: steps). split; [exact Hbuilt |].
  destruct (build_total windData deployAltitude mainRate true drogueRate
              rocketAltitude Hsamples) as (built & Hbuilt' & Hlist).
  rewrite Hbuilt in Hbuilt'. injection Hbuilt' as <-.
  destruct (Hlist (first :: steps) rocketAltitude eq_refl) as [_ Hrates].
  pose proof (Hrates (fun r => ~ r == 0) Hmain Hdrogue) as Husable.
  pose proof (steady_walk windData deployAltitude mainRate steady Hsteady
                _ _ _ Hwalk) as Hspeeds.
  destruct (apogee_entry_speed windData deployAltitude mainRate true
              drogueRate rocketAltitude ground top j first steps
              rocketAltitude Hsorted Hground
              ltac:(apply Qle_trans with deployAltitude;
                    [exact Hfloor | apply Qlt_le_weak; exact Habove])
              Hj Htop Hceiling Hbuilt)
    as (lo & hi & fraction & Hlo & Hhi & [_ Hreached] & _ & Hspeed).
  assert (Hfirst_speed : stepWindSpeed first == steady).
  { rewrite Hspeed.
    rewrite (Hsteady lo (nth_error_In _ _ Hlo)).
    rewrite (Hsteady hi (nth_error_In _ _ Hhi)). field. }
  cbn [descentDrifts]. rewrite Hfirst_rate.
  rewrite (steady_drifts_are_fall_time steady steps).
  - rewrite (walk_fall_time_pending windData deployAltitude mainRate ground
               Hsorted Hground Hmain _ drogueRate steps first hi Hwalk Hhi);
      rewrite ?Haltitude; try assumption.
    reflexivity.
  - apply Forall_inv_tail in Husable.
    rewrite Forall_forall in Husable, Hspeeds |- *.
    intros s Hs. split; [apply Hspeeds | apply Husable]; exact Hs.
  - exact Hfirst_speed.
  - exact Hdrogue.
Qed.

Lemma dual_deployment_drift_is_speed_times_fall_time_witness :
  exists descentList,
    buildDescentList
      [mkWindAtAltitude 0 10 270; mkWindAtAltitude 500 10 250;
       mkWindAtAltitude 2000 10 230]
      700 (Fin 20) true (Fin 75) 1200
    = Normal (Some (descentList, 1200))
    /\ totalDrift (@descentDrifts gridGeo descentList sampleSite)
       == ((1200 - 700) / Qabs 75 + (700 - 0) / Qabs 20) * (10 * 1.68781).
Proof.
  apply (@dual_deployment_drift_is_speed_times_fall_time gridGeo
           [mkWindAtAltitude 0 10 270; mkWindAtAltitude 500 10 250;
            mkWindAtAltitude 2000 10 230]
           700 20 75 10 1200
           (mkWindAtAltitude 0 10 270) (mkWindAtAltitude 2000 10 230) 2
           sampleSite).
  - unfold ascendingByAltitude.
    repeat (apply SSorted_cons;
            [| repeat (apply Forall_cons; [cbn; lra |]); apply Forall_nil]).
    apply SSorted_nil.
  - intros sample [<- | [<- | [<- | []]]]; reflexivity.
  - intro H. vm_compute in H. discriminate H.
  - intro H. vm_compute in H. discriminate H.
  - reflexivity.
  - cbn. lra.
  - lra.
  - lia.
  - reflexivity.
  - cbn. lra.
Defined.

(* ------------------------------------------------------------------ *)
(** ** A descent rate that cannot be used never reaches a step *)



